(** * Ankicard: extraction, prompt building, generation client and output
      validation, embedded from the TypeScript sources.

    Layout of the development:
    - [JS]: the ECMAScript string primitives the sources call
      ([trim], [split], [join], [includes], [startsWith], [parseInt], ...),
      over strings of UTF-16 code units;
    - [RegExp]: the interface of the host regular-expression engine, and a
      backtracking engine for a fragment of the ECMAScript pattern syntax,
      written after ECMA-262 section 22.2, used to run the sources on
      concrete patterns;
    - [App], [GeminiService], [InputPanel], [OutputPanel]: the functions of
      the corresponding source files;
    - the facts proved about them. *)

From Stdlib Require Import String Ascii.
From Stdlib Require Import List Bool Arith NArith ZArith Lia.
From Stdlib Require Import DecimalString DecimalN DecimalPos.
Import ListNotations.

Set Implicit Arguments.

(* ===================================================================== *)
(** * ECMAScript strings *)
(* ===================================================================== *)

Module JS.

(** A string is a sequence of 16-bit code units. *)
Definition jsstring := list N.

Local Open Scope N_scope.

(** The code units of an ASCII literal. *)
Definition js (s : string) : jsstring :=
  map N_of_ascii (list_ascii_of_string s).

Definition NL : N := 10.
Definition TAB : N := 9.
Definition DQ : N := 34.

Definition jsstring_eqb (a b : jsstring) : bool :=
  if list_eq_dec N.eq_dec a b then true else false.

(** [ch === ''] is false for every string but the empty one. *)
Definition isEmpty (s : jsstring) : bool :=
  match s with [] => true | _ :: _ => false end.

(** LineTerminator (ECMA-262 12.3). *)
Definition isLineTerminator (c : N) : bool :=
  (c =? 10) || (c =? 13) || (c =? 8232) || (c =? 8233).

(** WhiteSpace (ECMA-262 12.2) together with LineTerminator: the code units
    removed by [String.prototype.trim] and matched by [\s]. *)
Definition isWhiteSpace (c : N) : bool :=
  (c =? 9) || (c =? 11) || (c =? 12) || (c =? 32) || (c =? 160)
  || (c =? 5760) || ((8192 <=? c) && (c <=? 8202))
  || (c =? 8239) || (c =? 8287) || (c =? 12288) || (c =? 65279)
  || isLineTerminator c.

Fixpoint trimStart (s : jsstring) : jsstring :=
  match s with
  | c :: s' => if isWhiteSpace c then trimStart s' else s
  | [] => []
  end.

Definition trimEnd (s : jsstring) : jsstring := rev (trimStart (rev s)).

Definition trim (s : jsstring) : jsstring := trimEnd (trimStart s).

(** [!s.trim()], equivalently [s.trim() === '']. *)
Definition isBlank (s : jsstring) : bool := isEmpty (trim s).

Fixpoint startsWith (p s : jsstring) : bool :=
  match p, s with
  | [], _ => true
  | a :: p', b :: s' => (a =? b) && startsWith p' s'
  | _ :: _, [] => false
  end.

Definition endsWith (p s : jsstring) : bool := startsWith (rev p) (rev s).

(** [s.includes(p)]: [p] occurs in [s] as a contiguous run of code units,
    compared code unit by code unit (hence case-sensitively). *)
Fixpoint includes (p s : jsstring) : bool :=
  startsWith p s ||
  match s with
  | [] => false
  | _ :: s' => includes p s'
  end.

(** [s.substring(a, b)]: the arguments are clamped to the length and
    swapped when [a > b]. *)
Definition substring (a b : nat) (s : jsstring) : jsstring :=
  let lo := Nat.min a b in
  let hi := Nat.max a b in
  firstn (hi - lo)%nat (skipn lo s).

(** [s.substring(a)]. *)
Definition substringFrom (a : nat) (s : jsstring) : jsstring := skipn a s.

(** [s.indexOf(p, from)]; [None] stands for [-1]. *)
Fixpoint indexOfAux (p s : jsstring) (pos : nat) : option nat :=
  if startsWith p s then Some pos
  else match s with
       | [] => None
       | _ :: s' => indexOfAux p s' (S pos)
       end.

Definition indexOf (p : jsstring) (from : nat) (s : jsstring) : option nat :=
  let from' := Nat.min from (length s) in
  indexOfAux p (skipn from' s) from'.

(** [l.join(sep)]. *)
Fixpoint join (sep : jsstring) (l : list jsstring) : jsstring :=
  match l with
  | [] => []
  | [x] => x
  | x :: l' => x ++ sep ++ join sep l'
  end.

(** [s.split(sep)] for a string separator (ECMA-262 22.1.3.23): the pieces
    between the successive leftmost occurrences of [sep], found from left
    to right without overlap.  [cur] holds, reversed, the code units of
    the piece being read; [skip] counts the code units of an occurrence of
    the separator still to be passed over.  With the empty separator the
    result is the list of the code units. *)
Fixpoint splitAux (sep : jsstring) (s : jsstring) (cur : jsstring)
         (skip : nat) : list jsstring :=
  match s with
  | [] => [rev cur]
  | c :: s' =>
      match skip with
      | S k => splitAux sep s' cur k
      | O =>
          if startsWith sep s
          then rev cur :: splitAux sep s' [] (length sep - 1)%nat
          else splitAux sep s' (c :: cur) 0%nat
      end
  end.

Definition split (sep : jsstring) (s : jsstring) : list jsstring :=
  match sep with
  | [] => map (fun c => [c]) s
  | _ :: _ => splitAux sep s [] 0%nat
  end.

(** ** Numbers: [parseInt(s, 10)] and the printing of a Number *)

(** The Number values [parseInt] returns: NaN, a double whose value is an
    integer, or an infinity.  The sign of zero is not kept: a comparison
    with 0 and the printing do not see it. *)
Inductive Number :=
| NaN
| Finite (value : Z)
| Infinity (negative : bool).

(** The Number value of a mathematical integer (ECMA-262 6.1.6.1): the
    double nearest to it, the one with an even significand when two are
    equally near, and an infinity from 2^1024 - 2^970 on.  Below 2^53
    every integer is a double. *)
Definition toNumber (mathInt : Z) : Number :=
  let a := Z.abs mathInt in
  if (a <? 2 ^ 53)%Z then Finite mathInt
  else
    let e := (Z.log2 a - 52)%Z in
    let q := Z.shiftr a e in
    let r := (a - Z.shiftl q e)%Z in
    let half := Z.shiftl 1 (e - 1) in
    let q' := if (half <? r)%Z || ((r =? half)%Z && Z.odd q)
              then (q + 1)%Z else q in
    let v := Z.shiftl q' e in
    if (2 ^ 1024 <=? v)%Z then Infinity (mathInt <? 0)%Z
    else Finite (if (mathInt <? 0)%Z then (- v)%Z else v).

(** [x > 0]. *)
Definition isPositive (x : Number) : bool :=
  match x with
  | NaN => false
  | Finite value => (0 <? value)%Z
  | Infinity negative => negb negative
  end.

Definition digitOf (c : N) : option (Decimal.uint -> Decimal.uint) :=
  if c =? 48 then Some Decimal.D0 else
  if c =? 49 then Some Decimal.D1 else
  if c =? 50 then Some Decimal.D2 else
  if c =? 51 then Some Decimal.D3 else
  if c =? 52 then Some Decimal.D4 else
  if c =? 53 then Some Decimal.D5 else
  if c =? 54 then Some Decimal.D6 else
  if c =? 55 then Some Decimal.D7 else
  if c =? 56 then Some Decimal.D8 else
  if c =? 57 then Some Decimal.D9 else None.

(** The longest prefix of decimal digits, as a decimal numeral. *)
Fixpoint digitPrefix (s : jsstring) : Decimal.uint :=
  match s with
  | [] => Decimal.Nil
  | c :: s' =>
      match digitOf c with
      | Some d => d (digitPrefix s')
      | None => Decimal.Nil
      end
  end.

(** [parseInt(s, 10)] (ECMA-262 19.2.5): leading white space is skipped,
    one sign is accepted, the longest prefix of decimal digits is read and
    whatever follows is ignored; without a digit the result is NaN.  The
    result is the Number value of the integer the digits denote.  (Past
    the 20th significant digit the standard lets a host read the digits
    as zeros; all of them are read here.) *)
Definition parseInt10 (s : jsstring) : Number :=
  let t := trimStart s in
  let '(neg, body) :=
    match t with
    | c :: t' => if c =? 45 then (true, t')
                 else if c =? 43 then (false, t') else (false, t)
    | [] => (false, t)
    end in
  match digitPrefix body with
  | Decimal.Nil => NaN
  | d => let mathInt := Z.of_N (N.of_uint d) in
         toNumber (if neg then (- mathInt)%Z else mathInt)
  end.

Fixpoint uintCodes (d : Decimal.uint) : jsstring :=
  match d with
  | Decimal.Nil => []
  | Decimal.D0 d' => 48 :: uintCodes d'
  | Decimal.D1 d' => 49 :: uintCodes d'
  | Decimal.D2 d' => 50 :: uintCodes d'
  | Decimal.D3 d' => 51 :: uintCodes d'
  | Decimal.D4 d' => 52 :: uintCodes d'
  | Decimal.D5 d' => 53 :: uintCodes d'
  | Decimal.D6 d' => 54 :: uintCodes d'
  | Decimal.D7 d' => 55 :: uintCodes d'
  | Decimal.D8 d' => 56 :: uintCodes d'
  | Decimal.D9 d' => 57 :: uintCodes d'
  end.

(** The decimal numeral of an integer: all its digits. *)
Definition decimal (n : Z) : jsstring :=
  match n with
  | Z0 => [48]
  | Zpos p => uintCodes (Pos.to_uint p)
  | Zneg p => 45 :: uintCodes (Pos.to_uint p)
  end.

(** The search for the shortest decimal number whose Number value is
    [x]: with [fuel] the exponent plus one, the candidates are the
    multiples of [10 ^ (fuel - 1)] next to [x], the one below or equal
    and the one above; of two that fit, the nearer to [x] is taken, and
    the one with an even number of units when they are equally near.
    When neither fits the search goes on with one more digit; at the
    exponent 0 the candidate is [x] itself. *)
Fixpoint shortestFrom (x : Z) (fuel : nat) : Z :=
  match fuel with
  | O => x
  | S fuel' =>
      let p := (10 ^ Z.of_nat fuel')%Z in
      let lo := (x / p * p)%Z in
      let hi := (lo + p)%Z in
      let okLo := match toNumber lo with
                  | Finite v => (v =? x)%Z
                  | _ => false
                  end in
      let okHi := match toNumber hi with
                  | Finite v => (v =? x)%Z
                  | _ => false
                  end in
      if okLo && okHi then
        if (x - lo <? hi - x)%Z then lo
        else if (hi - x <? x - lo)%Z then hi
        else if Z.even (x / p) then lo else hi
      else if okLo then lo
      else if okHi then hi
      else shortestFrom x fuel'
  end.

(** The decimal number with the fewest significant digits that has the
    positive double [x] for Number value, the nearest to [x] of those
    (ECMA-262 6.1.6.1.20, step 5 and the note on the choice of the
    digits): the search starts with one significant digit. *)
Definition shortest (x : Z) : Z :=
  shortestFrom x (length (decimal x)).

Fixpoint dropZeros (r : jsstring) : jsstring :=
  match r with
  | c :: r' => if c =? 48 then dropZeros r' else r
  | [] => []
  end.

(** The digits of a numeral without its final zeros. *)
Definition significantDigits (d : jsstring) : jsstring :=
  rev (dropZeros (rev d)).

(** [Number::toString(x)] in radix 10 (ECMA-262 6.1.6.1.20) for the
    values above: the digits of the shortest decimal number followed by
    zeros when it is below 10^21, else its first digit, a point and the
    other digits if any, and the exponent. *)
Definition Number_toString (x : Number) : jsstring :=
  match x with
  | NaN => js "NaN"
  | Infinity negative => if negative then js "-Infinity" else js "Infinity"
  | Finite value =>
      let sign := if (value <? 0)%Z then [45] else [] in
      let a := Z.abs value in
      if (a =? 0)%Z then [48]
      else
        let v := shortest a in
        if (v <? 10 ^ 21)%Z then sign ++ decimal v
        else
          let exponent := decimal (Z.of_nat (length (decimal v)) - 1) in
          match significantDigits (decimal v) with
          | [] => sign ++ decimal v
          | [c] => sign ++ [c] ++ js "e+" ++ exponent
          | c :: rest => sign ++ [c] ++ js "." ++ rest ++ js "e+" ++ exponent
          end
  end.

End JS.

(* ===================================================================== *)
(** * Regular expressions *)
(* ===================================================================== *)

Module RegExp.
Import JS.

Local Open Scope N_scope.

(** ** What the sources see of the host engine *)

(** One element of [text.matchAll(regex)]: [m_index] is [match.index],
    [m_whole] is [match[0]], [m_groups] holds [match[1]], [match[2]], ...
    ([None] for a group that took no part in the match) and [m_indices] is
    [match.indices] (present under the [d] flag): the span of the whole
    match followed by the spans of the groups. *)
Record Match := mkMatch {
  m_index : nat;
  m_whole : jsstring;
  m_groups : list (option jsstring);
  m_indices : option (list (option (nat * nat)))
}.

(** The host: [RegExp_new pattern flags] is [new RegExp(pattern, flags)],
    [None] when it throws a SyntaxError; [RegExp_execAll re text] lists the
    matches that the iterator of [matchAll] yields on [text]. *)
Class Host := {
  regexp : Type;
  RegExp_new : jsstring -> jsstring -> option regexp;
  RegExp_execAll : regexp -> jsstring -> list Match
}.

Definition hasFlag (c : N) (flags : jsstring) : bool := existsb (N.eqb c) flags.

(** [text.matchAll(re)] (ECMA-262 22.1.3.14) throws a TypeError, here
    [None], when the flags of [re] do not contain [g]. *)
Definition String_matchAll `{Host} (re : regexp) (flags text : jsstring)
  : option (list Match) :=
  if hasFlag 103 flags then Some (RegExp_execAll re text) else None.

(** ** A backtracking engine for a fragment of the pattern syntax *)

Inductive EscClass := EDigit | EWord | ESpace.

Inductive ClassAtom :=
| CASingle (c : N)
| CARange (lo hi : N)
| CAEsc (neg : bool) (k : EscClass).

Inductive CharPred :=
| PChar (c : N)
| PDot
| PEsc (neg : bool) (k : EscClass)
| PClass (neg : bool) (items : list ClassAtom).

(** [RGroup k r] is the capturing group number [k + 1]; [RQuant] records
    the groups opened inside the repeated atom ([parenIndex] first group,
    [parenCount] how many): they are reset at each iteration. *)
Inductive Regex :=
| REmpty
| RChar (p : CharPred)
| RSeq (a b : Regex)
| RAlt (a b : Regex)
| RGroup (k : nat) (r : Regex)
| RLook (positive : bool) (r : Regex)
| RBol
| REol
| RQuant (r : Regex) (min : nat) (max : option nat) (greedy : bool)
         (parenIndex parenCount : nat).

(** *** Parsing *)

Inductive Parse (A : Type) :=
| POk (a : A)
| PSyntaxError
| PUnsupported.
Arguments PSyntaxError {A}.
Arguments PUnsupported {A}.

Definition pbind {A B} (x : Parse A) (f : A -> Parse B) : Parse B :=
  match x with
  | POk a => f a
  | PSyntaxError => PSyntaxError
  | PUnsupported => PUnsupported
  end.

Notation "' p <- x ;; k" := (pbind x (fun p => k))
  (at level 61, p pattern, x at next level, right associativity).

Definition isSyntaxChar (c : N) : bool :=
  existsb (N.eqb c) [94; 36; 92; 46; 42; 43; 63; 40; 41; 91; 93; 123; 125; 124; 47].

(** The escape after a backslash, outside ([inClass = false]) or inside a
    character class. *)
Definition parseEscape (inClass : bool) (inp : jsstring)
  : Parse (CharPred * jsstring) :=
  match inp with
  | [] => PSyntaxError
  | c :: r =>
      if c =? 110 then POk (PChar 10, r) else
      if c =? 116 then POk (PChar 9, r) else
      if c =? 114 then POk (PChar 13, r) else
      if c =? 118 then POk (PChar 11, r) else
      if c =? 102 then POk (PChar 12, r) else
      if c =? 100 then POk (PEsc false EDigit, r) else
      if c =? 68 then POk (PEsc true EDigit, r) else
      if c =? 119 then POk (PEsc false EWord, r) else
      if c =? 87 then POk (PEsc true EWord, r) else
      if c =? 115 then POk (PEsc false ESpace, r) else
      if c =? 83 then POk (PEsc true ESpace, r) else
      if isSyntaxChar c || (inClass && (c =? 45)) then POk (PChar c, r)
      else PUnsupported
  end.

(** One ClassAtom. *)
Definition parseClassAtom (inp : jsstring) : Parse (CharPred * jsstring) :=
  match inp with
  | [] => PSyntaxError
  | c :: r => if c =? 92 then parseEscape true r else POk (PChar c, r)
  end.

(** The ClassRanges up to the closing bracket. *)
Fixpoint parseClassItems (fuel : nat) (inp : jsstring)
  : Parse (list ClassAtom * jsstring) :=
  match fuel with
  | O => PUnsupported
  | S f =>
      match inp with
      | [] => PSyntaxError
      | c :: r =>
          if c =? 93 then POk ([], r) else
          ' (a, r1) <- parseClassAtom inp ;;
          match r1 with
          | d :: e :: r2 =>
              if (d =? 45) && negb (e =? 93) then
                ' (b, r3) <- parseClassAtom (e :: r2) ;;
                match a, b with
                | PChar lo, PChar hi =>
                    if hi <? lo then PSyntaxError
                    else ' (items, r4) <- parseClassItems f r3 ;;
                         POk (CARange lo hi :: items, r4)
                | _, _ => PUnsupported
                end
              else
                ' (items, r4) <- parseClassItems f r1 ;;
                match a with
                | PChar x => POk (CASingle x :: items, r4)
                | PEsc n k => POk (CAEsc n k :: items, r4)
                | _ => PUnsupported
                end
          | _ =>
              ' (items, r4) <- parseClassItems f r1 ;;
              match a with
              | PChar x => POk (CASingle x :: items, r4)
              | PEsc n k => POk (CAEsc n k :: items, r4)
              | _ => PUnsupported
              end
          end
      end
  end.

Definition parseClass (inp : jsstring) : Parse (CharPred * jsstring) :=
  match inp with
  | c :: r =>
      if c =? 94
      then ' (items, r') <- parseClassItems (S (length r)) r ;;
           POk (PClass true items, r')
      else ' (items, r') <- parseClassItems (S (length inp)) inp ;;
           POk (PClass false items, r')
  | [] => PSyntaxError
  end.

Definition isQuantChar (c : N) : bool := (c =? 42) || (c =? 43) || (c =? 63).

(** The quantifier that may follow an atom: the atom is returned as it is
    when none does. *)
Definition parseQuantifier (atom : Regex) (parenIndex parenCount : nat)
           (inp : jsstring) : Regex * jsstring :=
  let lazy r := match r with c :: r' => if c =? 63 then (false, r') else (true, r)
                             | [] => (true, r) end in
  match inp with
  | c :: r =>
      if c =? 42 then
        let '(g, r') := lazy r in
        (RQuant atom 0 None g parenIndex parenCount, r')
      else if c =? 43 then
        let '(g, r') := lazy r in
        (RQuant atom 1 None g parenIndex parenCount, r')
      else if c =? 63 then
        let '(g, r') := lazy r in
        (RQuant atom 0 (Some 1%nat) g parenIndex parenCount, r')
      else (atom, inp)
  | [] => (atom, inp)
  end.

Definition expectClose (inp : jsstring) : Parse jsstring :=
  match inp with
  | c :: r => if c =? 41 then POk r else PSyntaxError
  | [] => PSyntaxError
  end.

(** Disjunction, Alternative and Term; [k] counts the capturing groups
    opened so far.  Supported: literal characters, [.], the escapes of
    [parseEscape], character classes, capturing and non-capturing groups,
    lookahead, alternation, [^], [$] and the quantifiers [*], [+], [?] and
    their lazy variants.  Braces, an unescaped closing bracket, quantified
    lookaheads and the other group forms are answered [PUnsupported]. *)
Fixpoint parseDisjunction (fuel : nat) (inp : jsstring) (k : nat)
  : Parse (Regex * jsstring * nat) :=
  match fuel with
  | O => PUnsupported
  | S f =>
      ' (a, r, k1) <- parseAlternative f inp k ;;
      match r with
      | c :: r' =>
          if c =? 124 then
            ' (b, r2, k2) <- parseDisjunction f r' k1 ;;
            POk (RAlt a b, r2, k2)
          else POk (a, r, k1)
      | [] => POk (a, r, k1)
      end
  end
with parseAlternative (fuel : nat) (inp : jsstring) (k : nat)
  : Parse (Regex * jsstring * nat) :=
  match fuel with
  | O => PUnsupported
  | S f =>
      match inp with
      | [] => POk (REmpty, inp, k)
      | c :: _ =>
          if (c =? 124) || (c =? 41) then POk (REmpty, inp, k)
          else
            ' (t, r, k1) <- parseTerm f inp k ;;
            ' (rest, r2, k2) <- parseAlternative f r k1 ;;
            POk (RSeq t rest, r2, k2)
      end
  end
with parseTerm (fuel : nat) (inp : jsstring) (k : nat)
  : Parse (Regex * jsstring * nat) :=
  match fuel with
  | O => PUnsupported
  | S f =>
      match inp with
      | [] => PSyntaxError
      | c :: r =>
          if c =? 94 then POk (RBol, r, k) else
          if c =? 36 then POk (REol, r, k) else
          if c =? 40 then
            match r with
            | q :: x :: r' =>
                if q =? 63 then
                  if (x =? 61) || (x =? 33) then
                    ' (d, r1, k1) <- parseDisjunction f r' k ;;
                    ' r2 <- expectClose r1 ;;
                    match r2 with
                    | y :: _ => if isQuantChar y then PUnsupported
                                else POk (RLook (x =? 61) d, r2, k1)
                    | [] => POk (RLook (x =? 61) d, r2, k1)
                    end
                  else if x =? 58 then
                    ' (d, r1, k1) <- parseDisjunction f r' k ;;
                    ' r2 <- expectClose r1 ;;
                    let '(t, r3) := parseQuantifier d k (k1 - k) r2 in
                    POk (t, r3, k1)
                  else PUnsupported
                else
                  ' (d, r1, k1) <- parseDisjunction f r (S k) ;;
                  ' r2 <- expectClose r1 ;;
                  let '(t, r3) := parseQuantifier (RGroup k d) k (k1 - k) r2 in
                  POk (t, r3, k1)
            | _ =>
                ' (d, r1, k1) <- parseDisjunction f r (S k) ;;
                ' r2 <- expectClose r1 ;;
                let '(t, r3) := parseQuantifier (RGroup k d) k (k1 - k) r2 in
                POk (t, r3, k1)
            end
          else if isQuantChar c then PSyntaxError
          else if (c =? 123) || (c =? 125) || (c =? 93) then PUnsupported
          else if c =? 91 then
            ' (p, r1) <- parseClass r ;;
            let '(t, r2) := parseQuantifier (RChar p) k 0 r1 in
            POk (t, r2, k)
          else if c =? 92 then
            ' (p, r1) <- parseEscape false r ;;
            let '(t, r2) := parseQuantifier (RChar p) k 0 r1 in
            POk (t, r2, k)
          else
            let p := if c =? 46 then PDot else PChar c in
            let '(t, r2) := parseQuantifier (RChar p) k 0 r in
            POk (t, r2, k)
      end
  end.

(** A compiled expression: its syntax tree, the number of its capturing
    groups and the flags the engine reads. *)
Record Compiled := mkCompiled {
  re_ast : Regex;
  re_ngroups : nat;
  re_multiline : bool;
  re_dotAll : bool;
  re_hasIndices : bool
}.

Fixpoint noDup (l : jsstring) : bool :=
  match l with
  | [] => true
  | c :: l' => negb (existsb (N.eqb c) l') && noDup l'
  end.

(** The flags: [d g i m s u v y], each at most once, [u] and [v] not
    together; the engine below supports [d], [g], [m] and [s]. *)
Definition parseFlags (flags : jsstring) : Parse unit :=
  if forallb (fun c => existsb (N.eqb c) [100; 103; 105; 109; 115; 117; 118; 121]) flags
     && noDup flags && negb (hasFlag 117 flags && hasFlag 118 flags)
  then if forallb (fun c => existsb (N.eqb c) [100; 103; 109; 115]) flags
       then POk tt else PUnsupported
  else PSyntaxError.

Definition compile (pattern flags : jsstring) : Parse Compiled :=
  ' _ <- parseFlags flags ;;
  ' (r, rest, n) <- parseDisjunction (4 * length pattern + 8) pattern 0 ;;
  match rest with
  | [] => POk (mkCompiled r n (hasFlag 109 flags) (hasFlag 115 flags)
                          (hasFlag 100 flags))
  | _ :: _ => PSyntaxError
  end.

(** *** Matching (ECMA-262 22.2.2) *)

Record MatchState := mkState {
  endIndex : nat;
  captures : list (option (nat * nat))
}.

Definition Continuation := MatchState -> option MatchState.
Definition Matcher := MatchState -> Continuation -> option MatchState.

Definition escMatches (k : EscClass) (c : N) : bool :=
  match k with
  | EDigit => (48 <=? c) && (c <=? 57)
  | EWord => ((48 <=? c) && (c <=? 57)) || ((65 <=? c) && (c <=? 90))
             || ((97 <=? c) && (c <=? 122)) || (c =? 95)
  | ESpace => isWhiteSpace c
  end.

Definition atomMatches (a : ClassAtom) (c : N) : bool :=
  match a with
  | CASingle d => c =? d
  | CARange lo hi => (lo <=? c) && (c <=? hi)
  | CAEsc neg k => xorb neg (escMatches k c)
  end.

Definition charMatches (dotAll : bool) (p : CharPred) (c : N) : bool :=
  match p with
  | PChar d => c =? d
  | PDot => dotAll || negb (isLineTerminator c)
  | PEsc neg k => xorb neg (escMatches k c)
  | PClass neg items => xorb neg (existsb (fun a => atomMatches a c) items)
  end.

Fixpoint setNth {A} (k : nat) (v : A) (l : list A) : list A :=
  match l, k with
  | [], _ => []
  | _ :: l', O => v :: l'
  | a :: l', S k' => a :: setNth k' v l'
  end.

(** The captures [parenIndex], ..., [parenIndex + parenCount - 1] are made
    undefined. *)
Fixpoint clearRange {A} (parenIndex parenCount : nat) (l : list (option A))
  : list (option A) :=
  match l with
  | [] => []
  | a :: l' =>
      match parenIndex, parenCount with
      | S p, _ => a :: clearRange p parenCount l'
      | O, S c => None :: clearRange O c l'
      | O, O => l
      end
  end.

Section Matching.
Variable input : jsstring.
Variables multiline dotAll : bool.

(** RepeatMatcher: an iteration of a [min = 0] loop that consumes
    nothing is abandoned, so [fuel] above [min] plus the length of the
    input is never exhausted. *)
Fixpoint repeatMatcher (fuel : nat) (m : Matcher) (min : nat)
         (max : option nat) (greedy : bool) (parenIndex parenCount : nat)
         (x : MatchState) (c : Continuation) : option MatchState :=
  match fuel with
  | O => None
  | S f =>
      match max with
      | Some O => c x
      | _ =>
          let d := fun y : MatchState =>
            if (min =? 0)%nat && (endIndex y =? endIndex x)%nat then None
            else repeatMatcher f m (pred min) (option_map pred max) greedy
                               parenIndex parenCount y c in
          let xr := mkState (endIndex x)
                            (clearRange parenIndex parenCount (captures x)) in
          if negb (min =? 0)%nat then m xr d
          else if greedy then
            match m xr d with
            | Some z => Some z
            | None => c x
            end
          else
            match c x with
            | Some z => Some z
            | None => m xr d
            end
      end
  end.

Fixpoint matcher (r : Regex) (x : MatchState) (c : Continuation)
  : option MatchState :=
  match r with
  | REmpty => c x
  | RChar p =>
      match nth_error input (endIndex x) with
      | Some ch => if charMatches dotAll p ch
                   then c (mkState (S (endIndex x)) (captures x))
                   else None
      | None => None
      end
  | RSeq a b => matcher a x (fun y => matcher b y c)
  | RAlt a b =>
      match matcher a x c with
      | Some z => Some z
      | None => matcher b x c
      end
  | RGroup k a =>
      matcher a x (fun y =>
        c (mkState (endIndex y)
                   (setNth k (Some (endIndex x, endIndex y)) (captures y))))
  | RLook positive a =>
      match matcher a x (fun y => Some y) with
      | Some y => if positive then c (mkState (endIndex x) (captures y))
                  else None
      | None => if positive then None else c x
      end
  | RBol =>
      match endIndex x with
      | O => c x
      | S e =>
          match nth_error input e with
          | Some ch => if multiline && isLineTerminator ch then c x else None
          | None => None
          end
      end
  | REol =>
      match nth_error input (endIndex x) with
      | None => c x
      | Some ch => if multiline && isLineTerminator ch then c x else None
      end
  | RQuant a min max greedy parenIndex parenCount =>
      repeatMatcher (min + length input + 2) (matcher a) min max greedy
                    parenIndex parenCount x c
  end.
End Matching.

(** The pattern matched at the position [i], as the sticky flag does. *)
Definition matchAt (re : Compiled) (text : jsstring) (i : nat)
  : option MatchState :=
  matcher text (re_multiline re) (re_dotAll re) (re_ast re)
          (mkState i (repeat None (re_ngroups re))) (fun y => Some y).

(** RegExpBuiltinExec without the sticky flag: the first position from
    [lastIndex] on at which the pattern matches. *)
Fixpoint execFrom (re : Compiled) (text : jsstring) (fuel lastIndex : nat)
  : option (nat * MatchState) :=
  match fuel with
  | O => None
  | S f =>
      if (length text <? lastIndex)%nat then None
      else match matchAt re text lastIndex with
           | Some y => Some (lastIndex, y)
           | None => execFrom re text f (S lastIndex)
           end
  end.

Definition spanText (text : jsstring) (sp : nat * nat) : jsstring :=
  substring (fst sp) (snd sp) text.

Definition toMatch (re : Compiled) (text : jsstring) (i : nat)
           (y : MatchState) : Match :=
  mkMatch i
          (substring i (endIndex y) text)
          (map (option_map (spanText text)) (captures y))
          (if re_hasIndices re
           then Some (Some (i, endIndex y) :: captures y)
           else None).

(** The iterator of [matchAll] on a global expression (ECMA-262 22.2.9):
    after an empty match [lastIndex] is advanced by one code unit. *)
Fixpoint execAllFrom (re : Compiled) (text : jsstring) (fuel lastIndex : nat)
  : list Match :=
  match fuel with
  | O => []
  | S f =>
      match execFrom re text (length text + 2 - lastIndex) lastIndex with
      | None => []
      | Some (i, y) =>
          let e := endIndex y in
          toMatch re text i y
            :: execAllFrom re text f (if (e =? i)%nat then S e else e)
      end
  end.

Definition execAll (re : Compiled) (text : jsstring) : list Match :=
  execAllFrom re text (length text + 2) 0.

(** [text.split(re)] (ECMA-262 22.2.6.14) for an expression without
    capturing groups: [p] is the start of the piece being read and [q] the
    position tried next. *)
Fixpoint splitLoop (re : Compiled) (text : jsstring) (fuel p q : nat)
  : list jsstring :=
  match fuel with
  | O => [substring p (length text) text]
  | S f =>
      if (q <? length text)%nat then
        match matchAt re text q with
        | None => splitLoop re text f p (S q)
        | Some y =>
            let e := Nat.min (endIndex y) (length text) in
            if (e =? p)%nat then splitLoop re text f p (S q)
            else substring p q text :: splitLoop re text f e e
        end
      else [substring p (length text) text]
  end.

Definition split (re : Compiled) (text : jsstring) : list jsstring :=
  match text with
  | [] => match matchAt re text 0 with
          | Some _ => []
          | None => [text]
          end
  | _ :: _ => splitLoop re text (2 * length text + 2) 0 0
  end.

(** The engine as a host.  A pattern outside the supported fragment is
    answered like a syntax error; the runs below that go through this
    instance use patterns of the fragment, or patterns that [compile]
    itself rejects as syntax errors. *)
#[export] Instance engine : Host := {|
  regexp := Compiled;
  RegExp_new := fun pattern flags =>
    match compile pattern flags with
    | POk re => Some re
    | _ => None
    end;
  RegExp_execAll := execAll
|}.

End RegExp.

(* ===================================================================== *)
(** * The option types of [App.tsx] *)
(* ===================================================================== *)

Inductive OutputFormat := tsv | csv | json.
Inductive CardType := basic | mcq | cloze.
Inductive ExtractionMethod := none | auto | regex | ai | user_questions.

(* ===================================================================== *)
(** * services/geminiService.ts *)
(* ===================================================================== *)

Module GeminiService.
Import JS.

Local Open Scope N_scope.

(** [s.replace] with the global pattern of one double quote: every double
    quote is replaced by [rep]. *)
Definition replaceQuotes (rep s : jsstring) : jsstring :=
  flat_map (fun c => if c =? DQ then rep else [c]) s.

Definition frontExample (cardType : CardType) : jsstring :=
  match cardType with
  | basic => js "What causes <b>Community-Acquired Pneumonia</b>?"
  | mcq => js "Which organism causes <i>most</i> UTIs?"
  | cloze => js "{{c1::<b>Streptococcus pneumoniae</b>}} is the most common cause of community-acquired pneumonia."
  end.

Definition backExample (cardType : CardType) : jsstring :=
  match cardType with
  | basic => js "Common pathogens:<ul><li><i>Streptococcus pneumoniae</i></li><li>Haemophilus influenzae</li><li>Mycoplasma pneumoniae</li></ul>"
  | mcq => js "A) E. coli "
  ++ [10003]
  ++ js "<br>B) S. aureus<br>C) Pseudomonas<br>D) Klebsiella"
  | cloze => js "<b>Streptococcus pneumoniae</b> is the most common cause of community-acquired pneumonia."
  end.
Definition formattingInstruction : jsstring :=
  js "Use standard HTML tags (e.g., <b>, <i>, <ul>, <li>, <br>) to preserve formatting like bolding, italics, and lists from the original text.".

Definition formatCsv (cardType : CardType) : jsstring :=
  js "**FORMAT:** Use Comma-Separated Values (CSV) format with exactly 2 columns. Do not include a header row. Each line must be a single card with the front and back enclosed in double quotes and separated by a comma. Properly escape any double quotes within the content by doubling them. "
  ++ formattingInstruction
  ++ js "
      
      **EXAMPLE OF DESIRED FORMAT:**
      
      "
  ++ [DQ]
  ++ replaceQuotes [DQ; DQ] (frontExample cardType)
  ++ [DQ]
  ++ js ","
  ++ [DQ]
  ++ replaceQuotes [DQ; DQ] (backExample cardType)
  ++ [DQ].

Definition formatJson (cardType : CardType) : jsstring :=
  js "**FORMAT:** Use JSON format. The output MUST be a valid JSON array of objects. Each object in the array should represent a single flashcard and have two keys: "
  ++ [DQ]
  ++ js "front"
  ++ [DQ]
  ++ js " and "
  ++ [DQ]
  ++ js "back"
  ++ [DQ]
  ++ js ". Do not include any other text or formatting outside the JSON array. The "
  ++ [DQ]
  ++ js "front"
  ++ [DQ]
  ++ js " and "
  ++ [DQ]
  ++ js "back"
  ++ [DQ]
  ++ js " values should be strings. "
  ++ formattingInstruction
  ++ js "

      **EXAMPLE OF DESIRED FORMAT:**
      
      [
        {
          "
  ++ [DQ]
  ++ js "front"
  ++ [DQ]
  ++ js ": "
  ++ [DQ]
  ++ replaceQuotes [92; DQ] (frontExample cardType)
  ++ [DQ]
  ++ js ",
          "
  ++ [DQ]
  ++ js "back"
  ++ [DQ]
  ++ js ": "
  ++ [DQ]
  ++ replaceQuotes [92; DQ] (backExample cardType)
  ++ [DQ]
  ++ js "
        }
      ]".

Definition formatTsv (cardType : CardType) : jsstring :=
  js "**FORMAT:** Use Tab-Separated Values (TSV) format with exactly 2 columns. Do not include a header row like "
  ++ [DQ]
  ++ js "Front\tBack"
  ++ [DQ]
  ++ js ". Each line must be a single card with the front and back separated by a single tab character ('\t'). "
  ++ formattingInstruction
  ++ js "

      **EXAMPLE OF DESIRED FORMAT:**
      
      "
  ++ frontExample cardType
  ++ [TAB]
  ++ backExample cardType.

Definition getFormatInstructions (outputFormat : OutputFormat)
           (cardType : CardType) : jsstring :=
  match outputFormat with
  | csv => formatCsv cardType
  | json => formatJson cardType
  | tsv => formatTsv cardType
  end.

Definition getCardTypeInstructions (cardType : CardType) : jsstring :=
  match cardType with
  | mcq =>
  js "
**Instructions for "
  ++ [DQ]
  ++ js "Multiple Choice"
  ++ [DQ]
  ++ js ":**
*   For the 'Front', create a clear, answerable question based on the input text.
*   For the 'Back', provide multiple distinct answer options (e.g., A, B, C, D).
*   Ensure one option is clearly the correct answer and is derived from the text.
*   Mark the correct answer by appending a checkmark ("
  ++ [10003]
  ++ js ") to it.
"
  | cloze =>
  js "
**Instructions for "
  ++ [DQ]
  ++ js "Cloze Deletion"
  ++ [DQ]
  ++ js ":**
*   For the 'Front', take a key sentence from the text and hide a critical term or phrase using the Anki cloze format: `{{c1::hidden text}}`.
*   Create only one cloze (c1) per card.
*   The 'Back' should contain the full, unedited sentence for context.
*   Focus on hiding the most important piece of information in the sentence.
"
  | basic =>
  js "
**Instructions for "
  ++ [DQ]
  ++ js "Basic Q&A"
  ++ [DQ]
  ++ js ":**
*   'Front' should be a clear, focused question.
*   'Back' should be a comprehensive but concise answer.
"
  end.

Record GenerationOptions := mkOptions {
  model : jsstring;
  outputFormat : OutputFormat;
  cardType : CardType;
  numberOfCards : jsstring;
  extractionMethod : ExtractionMethod;
  questionList : option jsstring
}.

Definition systemInstruction : jsstring :=
  js "You are an expert Anki flashcard creator. Your task is to convert the provided text into a structured data format for flashcards. You must adhere strictly to the format and card type instructions. The output MUST BE ONLY the requested data format. Do not add any introductory text, explanations, summaries, or code block formatting like ``` ... ```. The entire response should be parsable as a raw file of the specified format.".

Definition appropriateQuantity : jsstring :=
  js "Generate an appropriate number of flashcards based on the length and density of the input text.".

(** The conditional on [parseInt(numberOfCards, 10) > 0], false for NaN;
    the template literal prints the Number with [Number::toString]. *)
Definition quantityInstruction (numberOfCards : jsstring) : jsstring :=
  if isPositive (parseInt10 numberOfCards)
  then js "Generate exactly "
       ++ Number_toString (parseInt10 numberOfCards)
       ++ js " flashcards."
  else appropriateQuantity.

Definition taskUserQuestions : jsstring :=
  js "
**TASK:** Your task is to act as a research assistant. You have been given a **CONTEXT DOCUMENT** and a **LIST OF QUESTIONS**. For each question in the list, you must find the answer within the context document.

Create one flashcard for each question.
- The 'Front' of the card MUST be the question from the list, exactly as written.
- The 'Back' of the card MUST contain the complete, unabridged answer derived *exclusively* from the **CONTEXT DOCUMENT**. You must extract the entire relevant passage or section that answers the question. DO NOT summarize, shorten, or omit any information from the source text. You can reformat the text using HTML for better readability (like lists or bolding), but the core information must be fully preserved.

If the answer to a specific question cannot be found in the context document, the 'Back' of the card for that question should be exactly: "
  ++ [DQ]
  ++ js "Answer not found in the provided text."
  ++ [DQ]
  ++ js "

Finally, format all the generated flashcards according to the specifications below.".

Definition inputUserQuestions (userInput questions : jsstring) : jsstring :=
  js "
**CONTEXT DOCUMENT:**
---
"
  ++ userInput
  ++ js "
---

**LIST OF QUESTIONS:**
---
"
  ++ questions
  ++ js "
---
".

Definition taskAi : jsstring :=
  js "
**TASK:** Your primary task is to act as an expert educator. First, thoroughly analyze the **INPUT TEXT** to identify the most important concepts, facts, and relationships. Based on your analysis, generate a series of insightful questions that cover these key areas.

Once you have formulated the questions, create one flashcard for each question. The 'Front' of the card should be the question you generated. The 'Back' of the card must be a concise, accurate answer derived *exclusively* from the information present in the **INPUT TEXT**.

Finally, format all the generated flashcards according to the specifications below.".

Definition inputAi (userInput : jsstring) : jsstring :=
  js "
**INPUT TEXT:**
---
"
  ++ userInput
  ++ js "
---
".

Definition taskDefault : jsstring :=
  js "
**TASK:** Convert the input text into flashcards with the following specifications.".

Definition inputDefault (userInput : jsstring) : jsstring :=
  js "
**INPUT TEXT:**
---
"
  ++ userInput
  ++ js "
---
".

(** A string is truthy when it is defined and not empty. *)
Definition truthy (s : option jsstring) : option jsstring :=
  match s with
  | Some (c :: t) => Some (c :: t)
  | _ => None
  end.

Definition taskAndInput (userInput : jsstring) (options : GenerationOptions)
  : jsstring * jsstring :=
  match extractionMethod options, truthy (questionList options) with
  | user_questions, Some questions =>
      (taskUserQuestions, inputUserQuestions userInput questions)
  | ai, _ => (taskAi, inputAi userInput)
  | _, _ => (taskDefault, inputDefault userInput)
  end.

(** The text of [userContent] before and after the quantity instruction. *)
Definition contentHead (options : GenerationOptions)
           (mainInputBlock taskInstruction : jsstring) : jsstring :=
  js "
"
  ++ mainInputBlock
  ++ js "

"
  ++ taskInstruction
  ++ js "

**SPECIFICATIONS:**

1.  **OUTPUT FORMAT DETAILS:**
    "
  ++ getFormatInstructions (outputFormat options) (cardType options)
  ++ js "

2.  **CARD TYPE DETAILS:**
    "
  ++ getCardTypeInstructions (cardType options)
  ++ js "

3.  **QUANTITY:** ".

Definition contentTail : jsstring :=
  js "

4.  **CONTENT RULES:**
    *   **FORMATTING:** Retain original text formatting (bold, italics, lists) using HTML tags (e.g., <b>, <i>, <ul>, <li>). This is crucial for Anki compatibility.
    *   Create 1 card per key concept/fact unless a specific quantity is requested.
    *   Keep questions/prompts clear and focused.
    *   Answers should be comprehensive but concise.
    *   Prioritize high-yield information for exams or study.
    *   Use simple language without sacrificing accuracy.
    *   **PRESERVE EXISTING QUESTIONS:** If the input text already contains full questions, use them verbatim for the 'Front' of the flashcard. Your main task is to generate the corresponding answer for the 'Back' from the provided text. Do not change the original questions.

**START CONVERSION NOW. Your entire response must be the raw data in the specified format, with no extra text.**
".

(** [createPromptParts]: the system instruction and the user content. *)
Definition createPromptParts (userInput : jsstring)
           (options : GenerationOptions) : jsstring * jsstring :=
  let '(taskInstruction, mainInputBlock) := taskAndInput userInput options in
  (systemInstruction,
   contentHead options mainInputBlock taskInstruction
   ++ quantityInstruction (numberOfCards options)
   ++ contentTail).

(** The [config] of the generation call. *)
Record Config := mkConfig {
  cfg_systemInstruction : jsstring;
  cfg_thinkingBudget : option N
}.

Definition buildConfig (model : jsstring) (systemInstruction : jsstring)
  : Config :=
  mkConfig systemInstruction
           (if jsstring_eqb model (js "gemini-2.5-pro")
            then Some 32768 else None).

(** A value caught by [catch (error)]: an instance of [Error] with its
    message, or anything else. *)
Inductive Thrown :=
| ErrorObject (message : jsstring)
| OtherValue.

Definition genericFailure : jsstring := js "An unexpected error occurred.".

(** The message of the [Error] thrown by the [catch] block. *)
Definition mapFailure (error : Thrown) : jsstring :=
  match error with
  | ErrorObject message =>
      if includes (js "API key not valid") message
      then js "API_KEY_INVALID"
      else if includes (js "RESOURCE_EXHAUSTED") message
              || includes (js "rate limit") message
      then js "RATE_LIMIT_EXCEEDED"
      else if includes (js "candidate") message
              && includes (js "was blocked") message
      then js "CONTENT_BLOCKED"
      else genericFailure
  | OtherValue => genericFailure
  end.

(** What the provider answers to one call: the chunks of the response
    stream, each with its [text] if it has one, and the value thrown by
    the call or by the stream, if any. *)
Record Response := mkResponse {
  chunks : list (option jsstring);
  failure : option Thrown
}.

Definition Provider := jsstring -> jsstring -> Config -> Response.

(** The arguments of [ai.models.generateContentStream]: the model, the
    contents and the configuration. *)
Definition request (userInput : jsstring) (options : GenerationOptions)
  : jsstring * jsstring * Config :=
  let '(sys, userContent) := createPromptParts userInput options in
  (model options, userContent, buildConfig (model options) sys).

(** The answer of the provider to the call. *)
Definition respond (provider : Provider) (userInput : jsstring)
           (options : GenerationOptions) : Response :=
  let '(model, contents, config) := request userInput options in
  provider model contents config.

(** [generateFlashcardsStream]: the fragments yielded, in order, and the
    message of the [Error] the generator throws, if it does. *)
Definition generateFlashcardsStream (provider : Provider)
           (userInput : jsstring) (options : GenerationOptions)
  : list jsstring * option jsstring :=
  let response := respond provider userInput options in
  (flat_map (fun chunk => match truthy chunk with
                          | Some text => [text]
                          | None => []
                          end) (chunks response),
   option_map mapFailure (failure response)).

End GeminiService.

(* ===================================================================== *)
(** * App.tsx *)
(* ===================================================================== *)

Module App.
Import JS.

(** The state of the component. *)
Record State := mkState {
  inputText : jsstring;
  outputText : jsstring;
  isLoading : bool;
  error : option jsstring;
  model : jsstring;
  cardType : CardType;
  outputFormat : OutputFormat;
  numberOfCards : jsstring;
  extractionMethod : ExtractionMethod;
  regexPattern : jsstring;
  regexFlags : jsstring;
  questionList : jsstring
}.

Definition setError (e : option jsstring) (st : State) : State :=
  mkState (inputText st) (outputText st) (isLoading st) e (model st)
          (cardType st) (outputFormat st) (numberOfCards st)
          (extractionMethod st) (regexPattern st) (regexFlags st)
          (questionList st).

Definition setIsLoading (b : bool) (st : State) : State :=
  mkState (inputText st) (outputText st) b (error st) (model st)
          (cardType st) (outputFormat st) (numberOfCards st)
          (extractionMethod st) (regexPattern st) (regexFlags st)
          (questionList st).

Definition setOutputText (o : jsstring) (st : State) : State :=
  mkState (inputText st) o (isLoading st) (error st) (model st)
          (cardType st) (outputFormat st) (numberOfCards st)
          (extractionMethod st) (regexPattern st) (regexFlags st)
          (questionList st).

Definition getFriendlyErrorMessage (errorMessage : jsstring) : jsstring :=
  if jsstring_eqb errorMessage (js "API_KEY_INVALID") then
    js "API Key Error: The provided API key is invalid. Please ensure it's correct and has the necessary permissions."
  else if jsstring_eqb errorMessage (js "RATE_LIMIT_EXCEEDED") then
    js "Rate Limit Exceeded: You've made too many requests in a short period. Please wait a moment before trying again."
  else if jsstring_eqb errorMessage (js "CONTENT_BLOCKED") then
    js "Content Safety Error: The request was blocked due to safety settings. Please modify your input text and try again."
  else
    js "An unexpected error occurred. Please check your network connection or try again later.".

Definition msgOffline : jsstring :=
  js "You appear to be offline. An internet connection is required to generate flashcards.".
Definition msgNoInput : jsstring :=
  js "Please enter some text to generate flashcards.".
Definition msgAutoNoMarkers : jsstring :=
  js "Auto-detect mode is on, but no lines starting with " ++ [DQ] ++ js "Q:"
  ++ [DQ] ++ js ", " ++ [DQ] ++ js "Question:" ++ [DQ] ++ js ", " ++ [DQ]
  ++ js "- " ++ [DQ] ++ js ", or " ++ [DQ] ++ js "* " ++ [DQ]
  ++ js " were found. Processing all text.".
Definition msgNoMatches : jsstring :=
  js "No matches found for the provided regular expression.".
Definition msgInvalidRegex : jsstring :=
  js "Invalid regular expression pattern or flags.".
Definition msgNoQuestions : jsstring :=
  js "Please enter a list of questions for the AI to answer.".
Definition msgEmptyAfterExtraction : jsstring :=
  js "The text after applying the extraction method is empty.".

(** The literal of the auto-detect split, with its [m] flag. *)
Definition autoPattern : jsstring := js "(?=^Q:|^Question:|^[-*] )".

Definition autoRegExp : RegExp.Compiled :=
  Eval vm_compute in
    match RegExp.compile autoPattern (js "m") with
    | RegExp.POk re => re
    | _ => RegExp.mkCompiled RegExp.REmpty 0 false false false
    end.

(** [inputText.split(...).filter(s => s.trim() !== '')]. *)
Definition autoMatches (text : jsstring) : list jsstring :=
  filter (fun s => negb (isBlank s)) (RegExp.split autoRegExp text).

(** [match[1] ?? match[0]]. *)
Definition snippet (m : RegExp.Match) : jsstring :=
  match hd None (RegExp.m_groups m) with
  | Some g => g
  | None => RegExp.m_whole m
  end.

(** The outcome of the extraction step: the text handed on, with the
    notice displayed on the way, or the message of the rejection. *)
Inductive Extraction :=
| Proceed (processedInput : jsstring) (notice : option jsstring)
| Abort (message : jsstring).

Section WithHost.
Context {host : RegExp.Host}.

(** The chain of [if]s on [extractionMethod].  Neither [split] nor
    [filter] nor [join] throws, so the [catch] of the auto branch is
    never entered. *)
Definition extract (st : State) : Extraction :=
  match extractionMethod st with
  | auto =>
      match autoMatches (inputText st) with
      | (_ :: _) as matches => Proceed (join [NL; NL] matches) None
      | [] => Proceed (inputText st) (Some msgAutoNoMarkers)
      end
  | regex =>
      if negb (isBlank (regexPattern st)) then
        match RegExp.RegExp_new (regexPattern st) (regexFlags st) with
        | Some re =>
            match RegExp.String_matchAll re (regexFlags st) (inputText st) with
            | Some ((_ :: _) as matches) =>
                Proceed (join [NL; NL] (map snippet matches)) None
            | Some [] => Abort msgNoMatches
            | None => Abort msgInvalidRegex
            end
        | None => Abort msgInvalidRegex
        end
      else Proceed (inputText st) None
  | user_questions =>
      if isBlank (questionList st) then Abort msgNoQuestions
      else Proceed (inputText st) None
  | _ => Proceed (inputText st) None
  end.

(** [handleGenerate] up to the call of the generator: the new state,
    and the text passed to the generator when generation starts.
    [onLine] is [navigator.onLine]. *)
Definition prepare (onLine : bool) (st : State) : State * option jsstring :=
  if negb onLine then (setError (Some msgOffline) st, None)
  else if isBlank (inputText st) then (setError (Some msgNoInput) st, None)
  else
    let st1 := setError None st in
    match extract st with
    | Abort message => (setError (Some message) st1, None)
    | Proceed processedInput notice =>
        let st2 := match notice with
                   | Some n => setError (Some n) st1
                   | None => st1
                   end in
        if isBlank processedInput
        then (setError (Some msgEmptyAfterExtraction) st2, None)
        else (setOutputText [] (setIsLoading true st2), Some processedInput)
    end.

Definition options (st : State) : GeminiService.GenerationOptions :=
  GeminiService.mkOptions (model st) (outputFormat st) (cardType st)
                          (numberOfCards st) (extractionMethod st)
                          (Some (questionList st)).

(** The states committed while the stream is consumed: one per
    fragment. *)
Fixpoint consume (fragments : list jsstring) (st : State) : list State :=
  match fragments with
  | [] => []
  | chunk :: rest =>
      let st' := setOutputText (outputText st ++ chunk) st in
      st' :: consume rest st'
  end.

(** [handleGenerate]: the successive states it commits, the last one
    being the state in which it returns. *)
Definition handleGenerate (onLine : bool)
           (provider : GeminiService.Provider) (st : State) : list State :=
  match prepare onLine st with
  | (st1, None) => [st1]
  | (st1, Some processedInput) =>
      let '(fragments, thrown) :=
        GeminiService.generateFlashcardsStream provider processedInput
                                               (options st) in
      let streamed := consume fragments st1 in
      let st2 := last streamed st1 in
      let st3 := match thrown with
                 | Some message =>
                     setError (Some (getFriendlyErrorMessage message)) st2
                 | None => st2
                 end in
      st1 :: streamed ++ [setIsLoading false st3]
  end.
End WithHost.

End App.

(* ===================================================================== *)
(** * components/InputPanel.tsx: the highlighted preview *)
(* ===================================================================== *)

Module InputPanel.
Import JS.

(** A child of the fragment [highlightedContent]: a run of plain text or a
    highlighted [span] with its key. *)
Inductive Part :=
| Plain (s : jsstring)
| Highlight (key : nat) (s : jsstring).

Definition partText (p : Part) : jsstring :=
  match p with
  | Plain s => s
  | Highlight _ s => s
  end.

Inductive PreviewError :=
| NoMatchesFound
| Thrown.

Record Preview := mkPreview {
  highlightedContent : list Part;
  matchCount : nat;
  error : option PreviewError
}.

(** [[...new Set(s)].join('')]: the first occurrence of each code unit is
    kept.  (The host iterates by code point; the two agree on every string
    without surrogate pairs, the only ones that can be valid flags.) *)
Fixpoint dedupe (seen s : jsstring) : jsstring :=
  match s with
  | [] => []
  | c :: s' => if existsb (N.eqb c) seen then dedupe seen s'
               else c :: dedupe (c :: seen) s'
  end.

(** The span chosen for a match: [match.indices[1]] when there is one,
    else [match.indices[0]]; [None] when [match.indices] is missing. *)
Definition selectIndices (m : RegExp.Match) : option (nat * nat) :=
  match RegExp.m_indices m with
  | None => None
  | Some indices =>
      match (if (1 <? length indices)%nat then nth 1 indices None else None) with
      | Some span => Some span
      | None => nth 0 indices None
      end
  end.

(** One call of the [forEach] callback on the match number [i]. *)
Definition highlightStep (text : jsstring) (i : nat) (m : RegExp.Match)
           (acc : nat * list Part) : nat * list Part :=
  let '(lastIndex, parts) := acc in
  match selectIndices m with
  | None =>
      let textToHighlight := App.snippet m in
      match indexOf textToHighlight (RegExp.m_index m) text with
      | None => acc
      | Some start =>
          let end_ := (start + length textToHighlight)%nat in
          let parts1 := if (lastIndex <? start)%nat
                        then parts ++ [Plain (substring lastIndex start text)]
                        else parts in
          (end_, parts1 ++ [Highlight i (substring start end_ text)])
      end
  | Some (start, end_) =>
      let parts1 := if (lastIndex <? start)%nat
                    then parts ++ [Plain (substring lastIndex start text)]
                    else parts in
      (end_, parts1 ++ [Highlight i (substring start end_ text)])
  end.

Fixpoint highlightLoop (text : jsstring) (i : nat) (matches : list RegExp.Match)
         (acc : nat * list Part) : nat * list Part :=
  match matches with
  | [] => acc
  | m :: rest => highlightLoop text (S i) rest (highlightStep text i m acc)
  end.

Section WithHost.
Context {host : RegExp.Host}.

(** The [useMemo] that computes [highlightedContent], [matchCount] and
    [error] from the debounced text, pattern and flags. *)
Definition preview (extractionMethod : ExtractionMethod)
           (text pattern flags : jsstring) : Preview :=
  match extractionMethod with
  | regex =>
      if isEmpty text || isBlank pattern
      then mkPreview [Plain text] 0 None
      else
        let flags' := dedupe [] (flags ++ js "dg") in
        match RegExp.RegExp_new pattern flags' with
        | None => mkPreview [Plain text] 0 (Some Thrown)
        | Some re =>
            match RegExp.String_matchAll re flags' text with
            | None => mkPreview [Plain text] 0 (Some Thrown)
            | Some [] => mkPreview [Plain text] 0 (Some NoMatchesFound)
            | Some matches =>
                let '(lastIndex, parts) :=
                  highlightLoop text 0 matches (0%nat, []) in
                let parts' := if (lastIndex <? length text)%nat
                              then parts ++ [Plain (substringFrom lastIndex text)]
                              else parts in
                mkPreview parts' (length matches) None
            end
        end
  | _ => mkPreview [Plain text] 0 None
  end.
End WithHost.

End InputPanel.

(* ===================================================================== *)
(** * components/OutputPanel.tsx: validation of the output *)
(* ===================================================================== *)

Module OutputPanel.
Import JS.

Inductive Status := idle | valid | invalid | warning.

Record ValidationState := mkValidation {
  status : Status;
  message : jsstring
}.

Record Props := mkProps {
  outputText : jsstring;
  isLoading : bool;
  error : option jsstring;
  outputFormat : OutputFormat
}.

(** The component keeps the verdict and the ref [prevIsLoadingRef]. *)
Record Panel := mkPanel {
  validation : ValidationState;
  prevIsLoadingRef : bool
}.

Definition idleState : ValidationState := mkValidation idle [].

(** The test of one line of CSV: [true] when the line is reported. *)
Definition csvLineFails (line : jsstring) : bool :=
  negb (startsWith [DQ] line) || negb (endsWith [DQ] line)
  || negb (length (split [DQ; 44%N; DQ] line) =? 2)%nat.

Definition tsvLineFails (line : jsstring) : bool :=
  negb (length (split [TAB] line) =? 2)%nat.

(** [outputText.trim().split('\n').filter(line => line.trim() !== '')]. *)
Definition nonBlankLines (outputText : jsstring) : list jsstring :=
  filter (fun line => negb (isBlank line)) (split [NL] (trim outputText)).

Section WithJSON.
(** [JSON_parses s] holds when [JSON.parse(s)] returns. *)
Variable JSON_parses : jsstring -> bool.

(** The verdict computed by the [switch] on [outputFormat]. *)
Definition validate (outputText : jsstring) (outputFormat : OutputFormat)
  : ValidationState :=
  match outputFormat with
  | json =>
      if JSON_parses (trim outputText)
      then mkValidation valid (js "JSON format is valid.")
      else mkValidation invalid
             (js "Invalid JSON detected. The file may be corrupted or incomplete.")
  | csv =>
      let csvLines := nonBlankLines outputText in
      if (0 <? length csvLines)%nat && existsb csvLineFails csvLines
      then mkValidation warning
             (js "Potential CSV formatting issues found. Check for proper quoting and delimiters.")
      else mkValidation valid (js "Format appears valid.")
  | tsv =>
      let tsvLines := nonBlankLines outputText in
      if (0 <? length tsvLines)%nat && existsb tsvLineFails tsvLines
      then mkValidation warning
             (js "Potential TSV formatting issues found. Some rows may not have exactly two columns.")
      else mkValidation valid (js "Format appears valid.")
  end.

(** One run of the validation effect: the state of the panel after it,
    and the arguments of the validation it computed, if it did. *)
Definition validationEffect (props : Props) (panel : Panel)
  : Panel * option (jsstring * OutputFormat) :=
  let justFinishedLoading := prevIsLoadingRef panel && negb (isLoading props) in
  if justFinishedLoading && negb (isEmpty (outputText props)) then
    (mkPanel (validate (outputText props) (outputFormat props)) (isLoading props),
     Some (outputText props, outputFormat props))
  else if isEmpty (outputText props) || isLoading props then
    (mkPanel idleState (isLoading props), None)
  else
    (mkPanel (validation panel) (isLoading props), None).

(** The effect run after each of a sequence of renders: the final state
    of the panel and the validations computed on the way, in order. *)
Fixpoint runEffects (renders : list Props) (panel : Panel)
  : Panel * list (jsstring * OutputFormat) :=
  match renders with
  | [] => (panel, [])
  | props :: rest =>
      let '(panel1, v) := validationEffect props panel in
      let '(panel2, vs) := runEffects rest panel1 in
      (panel2, match v with Some a => a :: vs | None => vs end)
  end.
End WithJSON.

(** The panel when the component mounts with [isLoading = false]. *)
Definition mounted : Panel := mkPanel idleState false.

(** The props a state of the application gives the panel. *)
Definition propsOf (st : App.State) : Props :=
  mkProps (App.outputText st) (App.isLoading st) (App.error st)
          (App.outputFormat st).

End OutputPanel.

(* ===================================================================== *)
(** * The controls of the two panels *)
(* ===================================================================== *)

Module Controls.
Import JS.

(** [!!error]: the error is a string that is not empty. *)
Definition isSet (error : option jsstring) : bool :=
  match error with
  | Some (_ :: _) => true
  | _ => false
  end.

(** The Generate button of the input panel is disabled by
    [isLoading || !inputText.trim()]. *)
Definition generateDisabled (st : App.State) : bool :=
  App.isLoading st || isBlank (App.inputText st).

(** The upload button, the text areas, the radio buttons, the selects and
    the inputs of the input panel are disabled by [isLoading]. *)
Definition inputsDisabled (st : App.State) : bool := App.isLoading st.

(** [hasOutput] of the output panel. *)
Definition hasOutput (props : OutputPanel.Props) : bool :=
  (0 <? length (OutputPanel.outputText props))%nat.

(** The Copy and Download buttons are disabled by
    [!hasOutput || isLoading || !!error]. *)
Definition exportDisabled (props : OutputPanel.Props) : bool :=
  negb (hasOutput props) || OutputPanel.isLoading props
  || isSet (OutputPanel.error props).

(** What the output panel shows under its title: the error in place of
    the text area when [error] is truthy, else the text area with the
    output. *)
Inductive Shown :=
| ErrorBox (message : jsstring)
| TextArea (value : jsstring).

Definition shown (props : OutputPanel.Props) : Shown :=
  match OutputPanel.error props with
  | Some (c :: message) => ErrorBox (c :: message)
  | _ => TextArea (OutputPanel.outputText props)
  end.

(** [handleCopy]: the text written to the clipboard, if any is. *)
Definition handleCopy (props : OutputPanel.Props) : option jsstring :=
  if isEmpty (OutputPanel.outputText props) then None
  else Some (OutputPanel.outputText props).

(** The file offered by [handleDownload]. *)
Record Download := mkDownload {
  download : jsstring;
  blobType : jsstring;
  blobContent : jsstring
}.

Definition extension (outputFormat : OutputFormat) : jsstring :=
  match outputFormat with
  | tsv => js "txt"
  | csv => js "csv"
  | json => js "json"
  end.

Definition mimeType (outputFormat : OutputFormat) : jsstring :=
  match outputFormat with
  | tsv => js "text/plain"
  | csv => js "text/csv"
  | json => js "application/json"
  end.

(** [handleDownload]: the file offered, if any is. *)
Definition handleDownload (props : OutputPanel.Props) : option Download :=
  if isEmpty (OutputPanel.outputText props) then None
  else Some (mkDownload
               (js "anki_flashcards." ++ extension (OutputPanel.outputFormat props))
               (mimeType (OutputPanel.outputFormat props) ++ js ";charset=utf-8")
               (OutputPanel.outputText props)).

End Controls.

(* ===================================================================== *)
(** * components/InputPanel.tsx: file upload and presets *)
(* ===================================================================== *)

Module Upload.
Import JS.

Local Open Scope N_scope.

(** What the handler reads of the chosen file: its MIME type, its size in
    bytes, and the text [readAsText] delivers, [None] when the reader
    fails. *)
Record File := mkFile {
  file_type : jsstring;
  file_size : N;
  file_text : option jsstring
}.

(** The input text (of [App]) and the error shown under the title. *)
Record State := mkState {
  inputText : jsstring;
  fileError : option jsstring
}.

Definition maxSize : N := 5 * 1024 * 1024.

Definition msgInvalidType : jsstring :=
  js "Invalid file type. Please upload a .txt file.".
Definition msgTooLarge : jsstring :=
  js "File is too large. Please upload files under 5MB.".
Definition msgReadError : jsstring :=
  js "Error reading file. Please try again.".

(** [handleFileChange], with the outcome of the reader it starts:
    [file] is [event.target.files?.[0]]. *)
Definition handleFileChange (file : option File) (st : State) : State :=
  match file with
  | None => st
  | Some f =>
      if negb (jsstring_eqb (file_type f) (js "text/plain"))
      then mkState (inputText st) (Some msgInvalidType)
      else if maxSize <? file_size f
      then mkState (inputText st) (Some msgTooLarge)
      else match file_text f with
           | Some text => mkState text None
           | None => mkState (inputText st) (Some msgReadError)
           end
  end.

End Upload.

Module Presets.
Import JS.

(** The keys of [presets]. *)
Inductive Key := custom | qa_pairs | q_lines | brackets | bold.

Definition pattern (k : Key) : jsstring :=
  match k with
  | custom => []
  | qa_pairs => js "^\*\*Question:\*\*.*\n^\*\*Answer:\*\*.*"
  | q_lines => js "^Q:.*"
  | brackets => js "\[\[(.*?)\]\]"
  | bold => js "\*\*(.*?)\*\*"
  end.

Definition flags (k : Key) : jsstring :=
  match k with
  | custom => js "g"
  | qa_pairs => js "gm"
  | q_lines => js "gm"
  | brackets => js "g"
  | bold => js "g"
  end.

(** The preset selected in the panel with the pattern and the flags held
    by [App]. *)
Record State := mkState {
  selectedPreset : Key;
  regexPattern : jsstring;
  regexFlags : jsstring
}.

(** The state when the application starts. *)
Definition initial : State := mkState custom [] (js "g").

Definition handlePresetChange (presetKey : Key) (st : State) : State :=
  match presetKey with
  | custom => mkState custom (regexPattern st) (regexFlags st)
  | _ => mkState presetKey (pattern presetKey) (flags presetKey)
  end.

Definition handlePatternChange (value : jsstring) (st : State) : State :=
  mkState custom value (regexFlags st).

Definition handleFlagsChange (value : jsstring) (st : State) : State :=
  mkState custom (regexPattern st) value.

(** What the user does to the three controls. *)
Inductive Event :=
| SelectPreset (presetKey : Key)
| EditPattern (value : jsstring)
| EditFlags (value : jsstring).

Definition handle (st : State) (e : Event) : State :=
  match e with
  | SelectPreset k => handlePresetChange k st
  | EditPattern v => handlePatternChange v st
  | EditFlags v => handleFlagsChange v st
  end.

Definition run (events : list Event) : State := fold_left handle events initial.

End Presets.

(* ===================================================================== *)
(** * components/InputPanel.tsx: the debounced values *)
(* ===================================================================== *)

Module Debounce.
Import JS.

(** [useDebounce] on a string.  [value] is the value of the last render,
    the dependency the effect compares; [debouncedValue] is the state of
    the hook; [handler] is the timeout pending, with the time at which it
    is due and the value its callback sets. *)
Record Hook := mkHook {
  value : jsstring;
  debouncedValue : jsstring;
  handler : option (nat * jsstring)
}.

Section WithDelay.
Variable delay : nat.

(** The first render, at the time [now]: the state starts at the value
    and the effect sets a timeout. *)
Definition mount (now : nat) (v : jsstring) : Hook :=
  mkHook v v (Some ((now + delay)%nat, v)).

(** The timeout fires: [setDebouncedValue(value)].  The render this
    causes leaves the dependencies as they are, so no effect runs. *)
Definition fire (h : Hook) : Hook :=
  match handler h with
  | Some (_, v) => mkHook (value h) v None
  | None => h
  end.

(** A render at the time [now] with the value [v].  When the value has
    changed, the cleanup of the previous effect clears its timeout and
    the effect sets a new one; when it has not, no effect runs. *)
Definition render (now : nat) (v : jsstring) (h : Hook) : Hook :=
  if jsstring_eqb v (value h) then h
  else mkHook v (debouncedValue h) (Some ((now + delay)%nat, v)).

(** Time passes until [now]: a timeout due by then fires. *)
Definition elapse (now : nat) (h : Hook) : Hook :=
  match handler h with
  | Some (due, _) => if (due <=? now)%nat then fire h else h
  | None => h
  end.

(** The hook after the renders [renders], each with its time and its
    value, in order. *)
Definition run (h : Hook) (renders : list (nat * jsstring)) : Hook :=
  fold_left (fun h r => render (fst r) (snd r) (elapse (fst r) h)) renders h.
End WithDelay.

End Debounce.


(* ===================================================================== *)
(** * Definitions used to state the facts *)
(* ===================================================================== *)

Module Markers.
Import JS RegExp.

(** The markers of the auto-detect mode, and the positions of a text at
    which a line starts with one of them. *)
Definition markers : list jsstring :=
  [js "Q:"; js "Question:"; js "- "; js "* "].

Definition lineStart (text : jsstring) (q : nat) : bool :=
  match q with
  | O => true
  | S e => match nth_error text e with
           | Some ch => isLineTerminator ch
           | None => false
           end
  end.

Definition markerAt (text : jsstring) (q : nat) : bool :=
  lineStart text q && existsb (fun mk => startsWith mk (skipn q text)) markers.

(** A piece that begins with one of the markers. *)
Definition marked (piece : jsstring) : bool :=
  existsb (fun mk => startsWith mk piece) markers.

(** The positions at which a list of consecutive pieces, the first one
    starting at [p], is cut. *)
Fixpoint boundaries (p : nat) (pieces : list jsstring) : list nat :=
  match pieces with
  | [] => []
  | [_] => []
  | c :: rest => (p + length c)%nat :: boundaries (p + length c) rest
  end.

(** The sequence of literal characters [s], as the parser builds it. *)
Definition literal (s : jsstring) : Regex :=
  fold_right (fun ch r => RSeq (RChar (PChar ch)) r) REmpty s.

End Markers.

Module Examples.
Import JS.

(** A state of the application with a previous output on display. *)
Definition stateWith (method : ExtractionMethod)
           (text pattern flags : jsstring) : App.State :=
  App.mkState text (js "old output") false None (js "gemini-2.5-flash")
              basic tsv [] method pattern flags [].

Definition scenarioA : jsstring := js "Q: What is 2+2?" ++ [NL] ++ js "A: 4".

(** Notes in which no line begins with a marker of the auto mode. *)
Definition plainNotes : jsstring :=
  js "The mitochondrion is the powerhouse of the cell.".
Definition boldPattern : jsstring := js "\*\*(.*?)\*\*".
Definition scenarioB : jsstring := js "**foo** and **bar**".

(** The rule of the specification for the text taken from a match: the
    text of the first capturing group when the pattern has one ([None]
    when that group has no text), else the whole match. *)
Definition statedSnippet (m : RegExp.Match) : option jsstring :=
  match RegExp.m_groups m with
  | [] => Some (RegExp.m_whole m)
  | g :: _ => g
  end.

(** The text taken from a match by the code: the text of the first
    capturing group when it took part in the match, else the whole
    match. *)
Definition firstGroupOrWhole (m : RegExp.Match) : jsstring :=
  match RegExp.m_groups m with
  | Some g :: _ => g
  | _ => RegExp.m_whole m
  end.

(** C1 as the specification states it, for one request. *)
Definition C1_stated (host : RegExp.Host) (st : App.State) : Prop :=
  forall re ms,
    RegExp.RegExp_new (App.regexPattern st) (App.regexFlags st) = Some re ->
    RegExp.RegExp_execAll re (App.inputText st) = ms ->
    ms <> [] ->
    exists texts,
      map statedSnippet ms = map Some texts
      /\ App.extract st = App.Proceed (join [NL; NL] texts) None.

(** C5 as the specification states it, for one request. *)
Definition C5_stated (host : RegExp.Host) (onLine : bool) (st : App.State)
  : Prop :=
  App.extractionMethod st = regex ->
  (RegExp.RegExp_new (App.regexPattern st) (App.regexFlags st) = None
   \/ exists re,
        RegExp.RegExp_new (App.regexPattern st) (App.regexFlags st) = Some re
        /\ RegExp.RegExp_execAll re (App.inputText st) = []) ->
  snd (App.prepare onLine st) = None
  /\ App.outputText (fst (App.prepare onLine st)) = App.outputText st.
End Examples.

Module GeminiExamples.
Import JS GeminiService.

Definition optionsWith (model numberOfCards : jsstring) : GenerationOptions :=
  mkOptions model tsv basic numberOfCards none (Some []).

(** A provider that yields two fragments and then fails with [raw]. *)
Definition failingProvider (raw : Thrown) : Provider :=
  fun _ _ _ => mkResponse [Some (js "front"); None; Some []; Some (js "back")]
                          (Some raw).

(** C8 as the specification states it, for one call. *)
Definition C8_stated (userInput : jsstring) (options : GenerationOptions)
  : Prop :=
  cfg_thinkingBudget (snd (request userInput options)) <> None
  <-> endsWith (js "-pro") (model options) = true.

(** The instruction that asks for exactly the number printed as
    [printed]. *)
Definition exactly (printed : jsstring) : jsstring :=
  js "Generate exactly " ++ printed ++ js " flashcards.".

(** "Generate exactly N flashcards.", [N] written with all its digits. *)
Definition exactQuantity (n : Z) : jsstring := exactly (decimal n).

(** What follows the digits of a field does not begin with a digit. *)
Definition noDigitAhead (rest : jsstring) : Prop :=
  match rest with
  | [] => True
  | c :: _ => digitOf c = None
  end.

(** C9 as the specification states it, for one call: the field holds a
    positive integer when it is the decimal numeral of one. *)
Definition C9_stated (userInput : jsstring) (options : GenerationOptions)
  : Prop :=
  let prompt := snd (createPromptParts userInput options) in
  (forall n : Z, (0 < n)%Z -> numberOfCards options = decimal n ->
                 includes (exactQuantity n) prompt = true)
  /\ ((forall n : Z, (0 < n)%Z -> numberOfCards options <> decimal n) ->
      includes appropriateQuantity prompt = true).
End GeminiExamples.

Module PanelExamples.
Import JS.

(** The span the preview highlights for a match: the chosen indices, or,
    without them, the place where the text to highlight is found. *)
Definition chosenSpan (text : jsstring) (m : RegExp.Match) : option (nat * nat) :=
  match InputPanel.selectIndices m with
  | Some span => Some span
  | None =>
      match indexOf (App.snippet m) (RegExp.m_index m) text with
      | Some start => Some (start, (start + length (App.snippet m))%nat)
      | None => None
      end
  end.

(** The spans follow one another inside the text: each starts at or after
    [lastIndex], the end of the one before. *)
Fixpoint spansOrdered (size lastIndex : nat) (spans : list (option (nat * nat)))
  : bool :=
  match spans with
  | [] => true
  | None :: rest => spansOrdered size lastIndex rest
  | Some (s, e) :: rest =>
      (lastIndex <=? s)%nat && (s <=? e)%nat && (e <=? size)%nat
      && spansOrdered size e rest
  end.

(** A pattern without lookahead. *)
Fixpoint noLook (r : RegExp.Regex) : bool :=
  match r with
  | RegExp.RLook _ _ => false
  | RegExp.RSeq a b => noLook a && noLook b
  | RegExp.RAlt a b => noLook a && noLook b
  | RegExp.RGroup _ a => noLook a
  | RegExp.RQuant a _ _ _ _ _ => noLook a
  | _ => true
  end.

(** A capture lies between the start [i0] of the match and the position
    [e] reached. *)
Definition capOk (i0 e : nat) (cap : option (nat * nat)) : Prop :=
  match cap with
  | None => True
  | Some (s, t) => (i0 <= s /\ s <= t /\ t <= e)%nat
  end.

(** A state of the matcher inside the text whose captures lie between
    the start of the match and the position reached. *)
Definition okState (size i0 : nat) (x : RegExp.MatchState) : Prop :=
  (i0 <= RegExp.endIndex x <= size)%nat
  /\ Forall (capOk i0 (RegExp.endIndex x)) (RegExp.captures x).

(** A matcher that, when it succeeds, has called its continuation on a
    state further in the text, with captures inside the match. *)
Definition progresses (text : jsstring) (i0 : nat) (m : RegExp.Matcher)
  : Prop :=
  forall x c z,
    okState (length text) i0 x -> m x c = Some z ->
    exists y, okState (length text) i0 y
              /\ (RegExp.endIndex x <= RegExp.endIndex y)%nat
              /\ c y = Some z.

(** The shape a line of CSV must have. *)
Definition csvWellShaped (line : jsstring) : Prop :=
  startsWith [DQ] line = true
  /\ endsWith [DQ] line = true
  /\ length (split [DQ; 44%N; DQ] line) = 2%nat.

Definition scenarioD : jsstring :=
  [DQ] ++ js "a" ++ [DQ] ++ js "," ++ [DQ] ++ js "b" ++ [DQ] ++ [NL]
  ++ [DQ] ++ js "c" ++ [DQ].

(** A well-shaped row followed by a space. *)
Definition spacedRow : jsstring :=
  [DQ] ++ js "a" ++ [DQ] ++ js "," ++ [DQ] ++ js "b" ++ [DQ] ++ js " ".

(** The non-blank lines of the output as the specification takes them:
    the output split at its line feeds. *)
Definition statedLines (outputText : jsstring) : list jsstring :=
  filter (fun line => negb (isBlank line)) (split [NL] outputText).

(** C6 as the specification states it, for one output. *)
Definition C6_stated (JSON_parses : jsstring -> bool) (outputText : jsstring)
  : Prop :=
  OutputPanel.status (OutputPanel.validate JSON_parses outputText csv)
  = OutputPanel.warning
  <-> exists line, In line (statedLines outputText) /\ ~ csvWellShaped line.

(** A provider that answers with the fragments "ab" and "c". *)
Definition twoFragments : GeminiService.Provider :=
  fun _ _ _ => GeminiService.mkResponse [Some (js "ab"); Some (js "c")] None.
End PanelExamples.

Module FlowDefs.
Import JS.

(** The text a chunk of the response contributes: none without [text]. *)
Definition chunkText (chunk : option jsstring) : jsstring :=
  match chunk with
  | Some text => text
  | None => []
  end.

(** The four messages the application shows after a failed generation. *)
Definition friendlyMessages : list jsstring :=
  [App.getFriendlyErrorMessage (js "API_KEY_INVALID");
   App.getFriendlyErrorMessage (js "RATE_LIMIT_EXCEEDED");
   App.getFriendlyErrorMessage (js "CONTENT_BLOCKED");
   App.getFriendlyErrorMessage GeminiService.genericFailure].

(** The messages with which a request is turned down before generation
    starts. *)
Definition rejectionMessages : list jsstring :=
  [App.msgOffline; App.msgNoInput; App.msgNoMatches; App.msgInvalidRegex;
   App.msgNoQuestions; App.msgEmptyAfterExtraction].

(** The code units of a string that are not white space, in order. *)
Definition visible (s : jsstring) : jsstring :=
  filter (fun c => negb (isWhiteSpace c)) s.

(** The text has no line, the first apart, that begins with a marker of
    the auto mode. *)
Definition unmarked (text : jsstring) : bool :=
  forallb (fun q => negb (Markers.markerAt text q))
          (seq 1 (length text - 1)).

(** A state with a list of questions. *)
Definition stateWithQuestions (text questions : jsstring) : App.State :=
  App.mkState text [] false None (js "gemini-2.5-flash")
              basic tsv [] user_questions [] (js "g") questions.

(** A provider that answers with "ab", a chunk without text, "c", and then
    fails for lack of quota. *)
Definition quotaProvider : GeminiService.Provider :=
  fun _ _ _ =>
    GeminiService.mkResponse [Some (js "ab"); None; Some (js "c")]
      (Some (GeminiService.ErrorObject (js "429 RESOURCE_EXHAUSTED"))).
End FlowDefs.

Module FormatDefs.
Import JS.

(** The number of tab characters of a line. *)
Definition tabs (line : jsstring) : nat := count_occ N.eq_dec line TAB.

(** The row of TSV and the row of CSV the prompt prescribes for a card
    whose fields need no escaping. *)
Definition tsvRow (front back : jsstring) : jsstring :=
  front ++ [TAB] ++ back.

Definition csvRow (front back : jsstring) : jsstring :=
  [DQ] ++ front ++ [DQ] ++ js "," ++ [DQ] ++ back ++ [DQ].

(** The output made of one such row for each card, each on its line. *)
Definition tsvOutput (cards : list (jsstring * jsstring)) : jsstring :=
  join [NL] (map (fun card => tsvRow (fst card) (snd card)) cards).

Definition csvOutput (cards : list (jsstring * jsstring)) : jsstring :=
  join [NL] (map (fun card => csvRow (fst card) (snd card)) cards).

(** A field that a row of TSV holds as it is: not blank, without tab and
    without line feed; and one that a quoted field of CSV holds as it is:
    without double quote and without line feed. *)
Definition tsvField (field : jsstring) : Prop :=
  isBlank field = false /\ ~ In TAB field /\ ~ In NL field.

Definition csvField (field : jsstring) : Prop :=
  ~ In DQ field /\ ~ In NL field.

(** The cards with the white space in front of the first front, and
    after the last back, removed. *)
Definition trimFirst (cards : list (jsstring * jsstring))
  : list (jsstring * jsstring) :=
  match cards with
  | [] => []
  | card :: rest => (trimStart (fst card), snd card) :: rest
  end.

Fixpoint trimLast (cards : list (jsstring * jsstring))
  : list (jsstring * jsstring) :=
  match cards with
  | [] => []
  | [card] => [(fst card, trimEnd (snd card))]
  | card :: rest => card :: trimLast rest
  end.

(** The options with another list of questions. *)
Definition withQuestionList (questions : option jsstring)
           (options : GeminiService.GenerationOptions)
  : GeminiService.GenerationOptions :=
  GeminiService.mkOptions (GeminiService.model options)
    (GeminiService.outputFormat options) (GeminiService.cardType options)
    (GeminiService.numberOfCards options)
    (GeminiService.extractionMethod options) questions.
End FormatDefs.

Module InputDefs.
Import JS.

(** The texts of the highlighted spans of a preview, in order. *)
Definition highlights (parts : list InputPanel.Part) : list jsstring :=
  flat_map (fun p => match p with
                     | InputPanel.Highlight _ s => [s]
                     | InputPanel.Plain _ => []
                     end) parts.

(** The keys of the highlighted spans of a preview, in order. *)
Definition keys (parts : list InputPanel.Part) : list nat :=
  flat_map (fun p => match p with
                     | InputPanel.Highlight key _ => [key]
                     | InputPanel.Plain _ => []
                     end) parts.

(** The keys go up strictly, from [from] on. *)
Fixpoint increasing (from : nat) (ks : list nat) : bool :=
  match ks with
  | [] => true
  | k :: rest => (from <=? k)%nat && increasing (S k) rest
  end.

(** The flags the preview compiles the pattern with. *)
Definition previewFlags (flags : jsstring) : jsstring :=
  InputPanel.dedupe [] (flags ++ js "dg").

(** Whether the user edits the flags by hand. *)
Definition editsFlags (e : Presets.Event) : bool :=
  match e with
  | Presets.EditFlags _ => true
  | _ => false
  end.

(** A state of the application in regex mode with the pattern and the
    flags of the panel. *)
Definition regexState (text : jsstring) (p : Presets.State) : App.State :=
  App.mkState text [] false None (js "gemini-2.5-flash") basic tsv []
              regex (Presets.regexPattern p) (Presets.regexFlags p) [].

(** The expression compiled with the flag [d] added. *)
Definition withIndices (re : RegExp.Compiled) : RegExp.Compiled :=
  RegExp.mkCompiled (RegExp.re_ast re) (RegExp.re_ngroups re)
                    (RegExp.re_multiline re) (RegExp.re_dotAll re) true.

(** The times of the renders do not go back, from [now] on. *)
Fixpoint inOrder (now : nat) (renders : list (nat * jsstring)) : bool :=
  match renders with
  | [] => true
  | r :: rest => (now <=? fst r)%nat && inOrder (fst r) rest
  end.

(** Renders in quick succession after the render of [v] at [now]: each
    changes the value and comes before the timeout set by the previous
    one is due. *)
Fixpoint burst (delay now : nat) (v : jsstring)
         (renders : list (nat * jsstring)) : bool :=
  match renders with
  | [] => true
  | r :: rest =>
      (now <=? fst r)%nat && (fst r <? now + delay)%nat
      && negb (jsstring_eqb (snd r) v) && burst delay (fst r) (snd r) rest
  end.

(** The time and the value of the last render. *)
Definition lastTime (now : nat) (renders : list (nat * jsstring)) : nat :=
  last (map fst renders) now.

Definition lastValue (v : jsstring) (renders : list (nat * jsstring))
  : jsstring :=
  last (map snd renders) v.

(** The timeout pending, if any, is for the value of the last render and
    is due at most [delay] after [now]; without one the debounced value
    is the value. *)
Definition settled (delay now : nat) (h : Debounce.Hook) : Prop :=
  match Debounce.handler h with
  | Some (due, v) => v = Debounce.value h /\ (due <= now + delay)%nat
  | None => Debounce.debouncedValue h = Debounce.value h
  end.
End InputDefs.

(* ===================================================================== *)
(** * Facts about the string primitives *)
(* ===================================================================== *)

Module JSFacts.
Import JS.

Lemma startsWith_app (p t : jsstring) : startsWith p (p ++ t) = true.
Proof.
  induction p as [|a p IH]; simpl; [reflexivity|].
  now rewrite N.eqb_refl, IH.
Qed.

Lemma startsWith_inv (p s : jsstring) :
  startsWith p s = true -> exists t, s = p ++ t.
Proof.
  revert s; induction p as [|a p IH]; intros s H; simpl in *.
  - now exists s.
  - destruct s as [|b s]; [discriminate|].
    apply andb_true_iff in H as [Hab Hps].
    apply N.eqb_eq in Hab; subst b.
    destruct (IH _ Hps) as [t ->]. now exists t.
Qed.

(** [includes] is containment as a contiguous run of code units. *)
Lemma includes_spec (p s : jsstring) :
  includes p s = true <-> exists a b, s = a ++ p ++ b.
Proof.
  split.
  - induction s as [|c s IH]; simpl; intros H.
    + rewrite orb_false_r in H. apply startsWith_inv in H as [t Ht].
      now exists [], t.
    + apply orb_true_iff in H as [H|H].
      * apply startsWith_inv in H as [t Ht]. now exists [], t.
      * destruct (IH H) as (a & b & ->). now exists (c :: a), b.
  - intros (a & b & ->). induction a as [|c a IH]; simpl.
    + destruct (p ++ b) eqn:E; simpl.
      * rewrite <- E, startsWith_app. reflexivity.
      * rewrite <- E, startsWith_app. reflexivity.
    + now rewrite IH, orb_true_r.
Qed.

Lemma trimStart_blank (s : jsstring) :
  trimStart s = [] <-> forallb isWhiteSpace s = true.
Proof.
  induction s as [|c s IH]; simpl; [tauto|].
  destruct (isWhiteSpace c); simpl; [exact IH|].
  split; discriminate.
Qed.

Lemma trimStart_head (s : jsstring) :
  match trimStart s with
  | [] => True
  | c :: _ => isWhiteSpace c = false
  end.
Proof.
  induction s as [|c s IH]; simpl; [exact I|].
  destruct (isWhiteSpace c) eqn:E; [exact IH|exact E].
Qed.

Lemma forallb_rev {A} (f : A -> bool) (l : list A) :
  forallb f (rev l) = forallb f l.
Proof.
  induction l as [|a l IH]; simpl; [reflexivity|].
  rewrite forallb_app, IH; simpl. rewrite andb_true_r. apply andb_comm.
Qed.

(** A string trims to the empty string exactly when all its code units are
    white space. *)
Lemma isBlank_forallb (s : jsstring) :
  isBlank s = forallb isWhiteSpace s.
Proof.
  unfold isBlank, trim, trimEnd.
  destruct (forallb isWhiteSpace s) eqn:E.
  - apply trimStart_blank in E. rewrite E. reflexivity.
  - destruct (rev (trimStart (rev (trimStart s)))) eqn:R; [|reflexivity].
    exfalso.
    apply (f_equal (@rev N)) in R. rewrite rev_involutive in R. simpl in R.
    apply trimStart_blank in R. rewrite forallb_rev in R.
    pose proof (trimStart_head s) as Hh.
    destruct (trimStart s) as [|c t] eqn:T.
    + apply trimStart_blank in T. congruence.
    + simpl in R. rewrite Hh in R. discriminate.
Qed.

Lemma isBlank_app (a b : jsstring) :
  isBlank (a ++ b) = isBlank a && isBlank b.
Proof. rewrite !isBlank_forallb. apply forallb_app. Qed.

Lemma isBlank_concat (l : list jsstring) :
  isBlank (concat l) = forallb isBlank l.
Proof.
  induction l as [|a l IH]; simpl; [reflexivity|].
  now rewrite isBlank_app, IH.
Qed.

(** A join that has a non-blank piece is not blank. *)
Lemma isBlank_join (sep : jsstring) (l : list jsstring) :
  existsb (fun s => negb (isBlank s)) l = true -> isBlank (join sep l) = false.
Proof.
  induction l as [|a l IH]; simpl; [discriminate|].
  intros H. destruct l as [|b l].
  - simpl in H. rewrite orb_false_r in H. now apply negb_true_iff in H.
  - rewrite !isBlank_app.
    apply orb_true_iff in H as [H|H].
    + apply negb_true_iff in H. now rewrite H.
    + rewrite (IH H). now rewrite !andb_false_r.
Qed.

Lemma filter_nil_forallb {A} (f : A -> bool) (l : list A) :
  filter (fun x => negb (f x)) l = [] <-> forallb f l = true.
Proof.
  induction l as [|a l IH]; simpl; [tauto|].
  destruct (f a); simpl; [exact IH|]. split; discriminate.
Qed.

Lemma nth_error_hd_skipn {A} (l : list A) (n : nat) :
  nth_error l n = hd_error (skipn n l).
Proof.
  revert l; induction n as [|n IH]; intros [|a l]; simpl; auto.
Qed.

Lemma skipn_S_tl {A} (l : list A) (n : nat) :
  skipn (S n) l = tl (skipn n l).
Proof.
  revert l; induction n as [|n IH]; intros [|a l]; try reflexivity.
  exact (IH l).
Qed.

Lemma length_substring (a b : nat) (s : jsstring) :
  (a <= b <= length s)%nat -> length (substring a b s) = (b - a)%nat.
Proof.
  intros H. unfold substring.
  rewrite Nat.min_l, Nat.max_r by lia.
  rewrite length_firstn, length_skipn. lia.
Qed.

Lemma substring_skipn (a b : nat) (s : jsstring) :
  (a <= b)%nat -> substring a b s ++ skipn b s = skipn a s.
Proof.
  intros H. unfold substring.
  rewrite Nat.min_l, Nat.max_r by lia.
  replace (skipn b s) with (skipn (b - a) (skipn a s)).
  - apply firstn_skipn.
  - rewrite skipn_skipn. f_equal. lia.
Qed.

Lemma substring_to_end (a : nat) (s : jsstring) :
  (a <= length s)%nat -> substring a (length s) s = skipn a s.
Proof.
  intros H. unfold substring.
  rewrite Nat.min_l, Nat.max_r by lia.
  apply firstn_all2. rewrite length_skipn. lia.
Qed.

Lemma firstn_plus {A} (a k : nat) (l : list A) :
  firstn (a + k) l = firstn a l ++ firstn k (skipn a l).
Proof.
  revert l; induction a as [|a IH]; intros [|x l]; simpl; try reflexivity.
  - now rewrite firstn_nil.
  - now rewrite IH.
Qed.

Lemma firstn_substring (a b : nat) (s : jsstring) :
  (a <= b)%nat -> firstn a s ++ substring a b s = firstn b s.
Proof.
  intros H. unfold substring.
  rewrite Nat.min_l, Nat.max_r by lia.
  replace b with (a + (b - a))%nat at 2 by lia.
  now rewrite firstn_plus.
Qed.

(** ** Splitting on a string *)

Lemma splitAux_nonempty (sep s cur : jsstring) (skip : nat) :
  splitAux sep s cur skip <> [].
Proof.
  revert cur skip; induction s as [|c s IH]; intros cur skip; simpl;
    [discriminate|].
  destruct skip; [|apply IH].
  destruct (startsWith sep (c :: s)); [discriminate|apply IH].
Qed.

Lemma splitAux_skip (sep u t cur : jsstring) :
  splitAux sep (u ++ t) cur (length u) = splitAux sep t cur 0.
Proof.
  induction u as [|a u IH]; simpl; [reflexivity|exact IH].
Qed.

Lemma join_cons (sep x : jsstring) (l : list jsstring) :
  l <> [] -> join sep (x :: l) = x ++ sep ++ join sep l.
Proof. destruct l; [congruence|reflexivity]. Qed.

Lemma join_splitAux (sep : jsstring) (n : nat) (s cur : jsstring) :
  sep <> [] -> (length s <= n)%nat ->
  join sep (splitAux sep s cur 0) = rev cur ++ s.
Proof.
  intros Hsep. revert s cur; induction n as [|n IH]; intros s cur Hn.
  - destruct s; [|simpl in Hn; lia]. simpl. now rewrite app_nil_r.
  - destruct s as [|c s]; [simpl; now rewrite app_nil_r|].
    cbn [splitAux].
    destruct (startsWith sep (c :: s)) eqn:Hs.
    + apply startsWith_inv in Hs as [t Ht].
      destruct sep as [|a sep']; [congruence|].
      injection Ht as -> ->.
      replace (length (a :: sep') - 1)%nat with (length sep')
        by (cbn [length]; lia).
      rewrite splitAux_skip.
      rewrite join_cons by apply splitAux_nonempty.
      rewrite IH.
      * reflexivity.
      * simpl in Hn. rewrite length_app in Hn. lia.
    + rewrite IH by (simpl in Hn; lia).
      simpl. now rewrite <- app_assoc.
Qed.

(** Joining the pieces of a split with the separator gives the string
    back. *)
Lemma join_split (sep s : jsstring) :
  sep <> [] -> join sep (split sep s) = s.
Proof.
  intros Hsep. unfold split. destruct sep as [|a sep']; [congruence|].
  now rewrite (@join_splitAux (a :: sep') (length s) s []).
Qed.

(** The pieces of a split on one code unit do not contain it. *)
Lemma splitAux_no_sep (c : N) (s cur : jsstring) :
  ~ In c cur -> Forall (fun piece => ~ In c piece) (splitAux [c] s cur 0).
Proof.
  revert cur; induction s as [|d s IH]; intros cur Hc; cbn [splitAux].
  - constructor; [|constructor]. now rewrite <- in_rev.
  - cbn [startsWith length Nat.sub]. rewrite andb_true_r.
    destruct (N.eqb c d) eqn:E.
    + constructor; [now rewrite <- in_rev|]. apply IH. intros [].
    + apply IH. intros [H|H]; [|contradiction].
      subst d. now rewrite N.eqb_refl in E.
Qed.

Lemma split_no_sep (c : N) (s : jsstring) :
  Forall (fun piece => ~ In c piece) (split [c] s).
Proof. apply splitAux_no_sep. intros []. Qed.

(** ** Decimal numerals *)

Lemma digitPrefix_uintCodes (d : Decimal.uint) (rest : jsstring) :
  match rest with
  | [] => True
  | c :: _ => digitOf c = None
  end ->
  digitPrefix (uintCodes d ++ rest) = d.
Proof.
  intros Hrest.
  induction d; simpl; try (now rewrite IHd).
  destruct rest as [|c r]; simpl; [reflexivity|]. now rewrite Hrest.
Qed.

Lemma uintCodes_head (d : Decimal.uint) :
  match uintCodes d with
  | [] => True
  | c :: _ => isWhiteSpace c = false /\ (c =? 45)%N = false /\ (c =? 43)%N = false
  end.
Proof. destruct d; simpl; auto. Qed.

Lemma trimStart_app_blank (a s : jsstring) :
  forallb isWhiteSpace a = true -> trimStart (a ++ s) = trimStart s.
Proof.
  induction a as [|c a IH]; [reflexivity|]. cbn.
  destruct (isWhiteSpace c); [exact IH | discriminate].
Qed.

(** [parseInt] reads the numeral of a positive integer behind any white
    space and in front of anything that does not begin with a digit. *)
Lemma parseInt10_decimal (n : Z) (space rest : jsstring) :
  (0 < n)%Z ->
  forallb isWhiteSpace space = true ->
  match rest with
  | [] => True
  | c :: _ => digitOf c = None
  end ->
  parseInt10 (space ++ decimal n ++ rest) = toNumber n.
Proof.
  intros Hn Hspace Hrest. destruct n as [|p|p]; try lia. clear Hn.
  unfold parseInt10, decimal. rewrite trimStart_app_blank by exact Hspace.
  pose proof (uintCodes_head (Pos.to_uint p)) as Hh.
  assert (Hne : Pos.to_uint p <> Decimal.Nil).
  { intros E. pose proof (DecimalPos.Unsigned.of_to p) as H.
    rewrite E in H. discriminate. }
  destruct (uintCodes (Pos.to_uint p)) as [|c t] eqn:Ec.
  - exfalso. destruct (Pos.to_uint p); try discriminate. now apply Hne.
  - destruct Hh as (Hw & Hm & Hp).
    cbn [app trimStart]. rewrite Hw, Hm, Hp.
    change (c :: t ++ rest) with ((c :: t) ++ rest). rewrite <- Ec.
    rewrite digitPrefix_uintCodes by exact Hrest.
    destruct (Pos.to_uint p) eqn:Eu; try (exfalso; now apply Hne);
      rewrite <- Eu; f_equal;
      change (N.of_uint (Pos.to_uint p)) with (N.of_uint (N.to_uint (Npos p)));
      now rewrite DecimalN.Unsigned.of_to.
Qed.

(** ** Doubles *)

Lemma toNumber_small (n : Z) :
  (Z.abs n < 2 ^ 53)%Z -> toNumber n = Finite n.
Proof.
  intros Hn. unfold toNumber.
  destruct (Z.ltb_spec (Z.abs n) (2 ^ 53)) as [_|H]; [reflexivity | lia].
Qed.

(** From 2^53 on the Number value is an infinity or a double of
    magnitude 2^53 at least, with the sign of the integer. *)
Lemma toNumber_cases (n : Z) :
  (2 ^ 53 <= Z.abs n)%Z ->
  toNumber n = Infinity (n <? 0)%Z
  \/ exists v, (2 ^ 53 <= v)%Z
               /\ toNumber n = Finite (if (n <? 0)%Z then (- v)%Z else v).
Proof.
  intros Hn. unfold toNumber.
  destruct (Z.ltb_spec (Z.abs n) (2 ^ 53)) as [H|_]; [lia|].
  cbv zeta.
  set (a := Z.abs n) in *.
  set (e := (Z.log2 a - 52)%Z).
  set (q := Z.shiftr a e).
  match goal with
  | |- context [if ?b then (q + 1)%Z else q] =>
      set (q' := if b then (q + 1)%Z else q)
  end.
  assert (Ha : (0 < a)%Z) by lia.
  assert (Hlog : (53 <= Z.log2 a)%Z)
    by (apply Z.log2_le_pow2; [exact Ha | exact Hn]).
  assert (He : (1 <= e)%Z) by (unfold e; lia).
  assert (Hq : (2 ^ 52 <= q)%Z).
  { unfold q. rewrite Z.shiftr_div_pow2 by lia.
    apply Z.div_le_lower_bound; [apply Z.pow_pos_nonneg; lia|].
    rewrite <- Z.pow_add_r by lia.
    replace (e + 52)%Z with (Z.log2 a) by (unfold e; lia).
    apply Z.log2_spec. exact Ha. }
  assert (Hq' : (q <= q')%Z).
  { unfold q'.
    match goal with |- context [if ?b then _ else _] => destruct b end; lia. }
  assert (Hv : (2 ^ 53 <= Z.shiftl q' e)%Z).
  { rewrite Z.shiftl_mul_pow2 by lia.
    assert (H2 : (2 <= 2 ^ e)%Z).
    { change 2%Z with (2 ^ 1)%Z at 1. apply Z.pow_le_mono_r; lia. }
    change (2 ^ 53)%Z with (2 ^ 52 * 2)%Z.
    apply Z.mul_le_mono_nonneg; lia. }
  destruct (2 ^ 1024 <=? Z.shiftl q' e)%Z; [now left|].
  right. now exists (Z.shiftl q' e).
Qed.

Lemma toNumber_large (n v : Z) :
  (2 ^ 53 <= Z.abs n)%Z -> toNumber n = Finite v -> (2 ^ 53 <= Z.abs v)%Z.
Proof.
  intros Hn Hv. destruct (toNumber_cases n Hn) as [H|(w & Hw & H)];
    rewrite H in Hv; [discriminate|].
  injection Hv as <-. destruct (n <? 0)%Z; lia.
Qed.

(** The Number value of a positive integer is positive. *)
Lemma toNumber_positive (n : Z) :
  (0 < n)%Z -> isPositive (toNumber n) = true.
Proof.
  intros Hn. destruct (Z.lt_ge_cases (Z.abs n) (2 ^ 53)) as [H|H].
  - rewrite toNumber_small by exact H. cbn. now apply Z.ltb_lt.
  - destruct (Z.ltb_spec n 0) as [Hneg|_]; [lia|].
    destruct (toNumber_cases n H) as [E|(v & Hv & E)]; rewrite E.
    + destruct (Z.ltb_spec n 0); [lia | reflexivity].
    + destruct (Z.ltb_spec n 0); [lia|]. cbn. apply Z.ltb_lt. lia.
Qed.

(** The search returns a decimal number that has [x] for Number value. *)
Lemma shortestFrom_fits (x : Z) (fuel : nat) :
  toNumber (shortestFrom x fuel) = Finite x \/ shortestFrom x fuel = x.
Proof.
  induction fuel as [|fuel IH]; [now right|].
  cbn [shortestFrom].
  set (p := (10 ^ Z.of_nat fuel)%Z).
  set (lo := (x / p * p)%Z). set (hi := (lo + p)%Z).
  assert (Hfit : forall c,
             match toNumber c with
             | Finite v => (v =? x)%Z
             | _ => false
             end = true -> toNumber c = Finite x).
  { intros c. destruct (toNumber c) as [|v|]; try discriminate.
    intros H. apply Z.eqb_eq in H. now subst. }
  pose proof (Hfit lo) as Hlo. pose proof (Hfit hi) as Hhi.
  destruct (match toNumber lo with Finite v => (v =? x)%Z | _ => false end);
    destruct (match toNumber hi with Finite v => (v =? x)%Z | _ => false end);
    cbn [andb].
  - destruct (x - lo <? hi - x)%Z; [left; auto|].
    destruct (hi - x <? x - lo)%Z; [left; auto|].
    destruct (Z.even (x / p)); left; auto.
  - left; auto.
  - left; auto.
  - exact IH.
Qed.

(** Below 2^53 the shortest decimal number is the integer itself, and
    the Number is printed with all its digits. *)
Lemma shortest_small (x : Z) : (Z.abs x < 2 ^ 53)%Z -> shortest x = x.
Proof.
  intros Hx. unfold shortest.
  destruct (shortestFrom_fits x (length (decimal x))) as [H|H]; [|exact H].
  set (v := shortestFrom x (length (decimal x))) in *.
  destruct (Z.lt_ge_cases (Z.abs v) (2 ^ 53)) as [Hv|Hv].
  - rewrite toNumber_small in H by exact Hv. now injection H.
  - pose proof (toNumber_large v Hv H). lia.
Qed.

Lemma Number_toString_small (n : Z) :
  (0 < n < 2 ^ 53)%Z -> Number_toString (Finite n) = decimal n.
Proof.
  intros Hn. unfold Number_toString.
  destruct (Z.ltb_spec n 0) as [H|_]; [lia|].
  replace (Z.abs n) with n by lia.
  destruct (Z.eqb_spec n 0) as [H|_]; [lia|].
  rewrite shortest_small by lia.
  destruct (Z.ltb_spec n (10 ^ 21)) as [_|H]; [reflexivity|].
  assert (2 ^ 53 < 10 ^ 21)%Z by reflexivity. lia.
Qed.

End JSFacts.

(* ===================================================================== *)
(** * Facts about the auto-detect split *)
(* ===================================================================== *)

Module AutoSplit.
Import JS JSFacts RegExp Markers.

Lemma boundaries_cons (p : nat) (c : jsstring) (rest : list jsstring) :
  rest <> [] ->
  boundaries p (c :: rest) = (p + length c)%nat :: boundaries (p + length c) rest.
Proof. destruct rest; [congruence|reflexivity]. Qed.

Lemma matcher_literal (text : jsstring) (ml da : bool) (s : jsstring)
      (x : MatchState) (c : Continuation) :
  matcher text ml da (literal s) x c =
  if startsWith s (skipn (endIndex x) text)
  then c (mkState (endIndex x + length s) (captures x))
  else None.
Proof.
  revert x; induction s as [|a s IH]; intros [e caps].
  - simpl. now rewrite Nat.add_0_r.
  - cbn [literal fold_right matcher endIndex captures charMatches length].
    fold (literal s).
    rewrite nth_error_hd_skipn.
    destruct (skipn e text) as [|b t] eqn:E; [reflexivity|].
    cbn [hd_error startsWith].
    rewrite (N.eqb_sym a b).
    destruct (N.eqb b a); [|reflexivity].
    rewrite IH. cbn [endIndex captures andb].
    rewrite skipn_S_tl, E. cbn [tl].
    now rewrite Nat.add_succ_r.
Qed.

Lemma matcher_bol (text : jsstring) (da : bool) (r : Regex)
      (x : MatchState) (c : Continuation) :
  matcher text true da (RSeq RBol r) x c =
  if lineStart text (endIndex x) then matcher text true da r x c else None.
Proof.
  destruct x as [[|e] caps]; simpl; [reflexivity|].
  destruct (nth_error text e); [|reflexivity].
  now destruct (isLineTerminator n).
Qed.

Lemma matcher_seq (text : jsstring) (ml da : bool) (a b : Regex)
      (x : MatchState) (c : Continuation) :
  matcher text ml da (RSeq a b) x c =
  matcher text ml da a x (fun y => matcher text ml da b y c).
Proof. reflexivity. Qed.

Lemma matcher_alt (text : jsstring) (ml da : bool) (a b : Regex)
      (x : MatchState) (c : Continuation) :
  matcher text ml da (RAlt a b) x c =
  match matcher text ml da a x c with
  | Some z => Some z
  | None => matcher text ml da b x c
  end.
Proof. reflexivity. Qed.

Lemma matcher_look (text : jsstring) (ml da : bool) (a : Regex)
      (x : MatchState) (c : Continuation) :
  matcher text ml da (RLook true a) x c =
  match matcher text ml da a x (fun y => Some y) with
  | Some y => c (mkState (endIndex x) (captures y))
  | None => None
  end.
Proof. reflexivity. Qed.

Lemma matcher_char (text : jsstring) (ml da : bool) (p : CharPred)
      (x : MatchState) (c : Continuation) :
  matcher text ml da (RChar p) x c =
  match nth_error text (endIndex x) with
  | Some ch => if charMatches da p ch
               then c (mkState (S (endIndex x)) (captures x))
               else None
  | None => None
  end.
Proof. reflexivity. Qed.

(** The lookahead of the auto-detect pattern succeeds exactly at the
    starts of the marked lines, and consumes nothing. *)
Lemma matchAt_auto (text : jsstring) (q : nat) :
  matchAt App.autoRegExp text q =
  if markerAt text q then Some (mkState q []) else None.
Proof.
  unfold matchAt, App.autoRegExp, markerAt, markers.
  cbn [re_ast re_multiline re_dotAll re_ngroups repeat].
  change (RSeq (RChar (PChar 81)) (RSeq (RChar (PChar 58)) REmpty))
    with (literal (js "Q:")).
  change (RSeq (RChar (PChar 81)) (RSeq (RChar (PChar 117)) _))
    with (literal (js "Question:")).
  change (RSeq (RChar (PChar 32)) REmpty) with (literal (js " ")).
  rewrite matcher_seq, matcher_look, !matcher_alt, !matcher_bol.
  cbn [endIndex captures].
  destruct (lineStart text q); cbn [andb]; [|reflexivity].
  rewrite !matcher_literal. cbn [endIndex captures].
  cbn [existsb].
  destruct (startsWith (js "Q:") (skipn q text)); [reflexivity|].
  destruct (startsWith (js "Question:") (skipn q text)); [reflexivity|].
  rewrite matcher_seq, matcher_char.
  cbn [endIndex captures]. rewrite nth_error_hd_skipn.
  destruct (skipn q text) as [|b t] eqn:E; [reflexivity|].
  cbn [hd_error charMatches existsb atomMatches xorb].
  rewrite matcher_literal. cbn [endIndex captures].
  rewrite skipn_S_tl, E. cbn [tl].
  change (js "- ") with (45%N :: js " ").
  change (js "* ") with (42%N :: js " ").
  cbn [startsWith].
  rewrite (N.eqb_sym 45 b), (N.eqb_sym 42 b).
  destruct (N.eqb b 45) eqn:E1; cbn [orb andb].
  - destruct (startsWith (js " ") t); [reflexivity|].
    destruct (N.eqb b 42); reflexivity.
  - rewrite !orb_false_r. destruct (N.eqb b 42); cbn [andb orb].
    + destruct (startsWith (js " ") t); reflexivity.
    + reflexivity.
Qed.

Section Loop.
Variable text : jsstring.
Let re := App.autoRegExp.
Let size := length text.

Lemma splitLoop_nonempty (fuel p q : nat) :
  splitLoop re text fuel p q <> [].
Proof.
  revert p q; induction fuel as [|f IH]; intros p q; simpl; [discriminate|].
  destruct (q <? length text)%nat; [|discriminate].
  unfold re. rewrite matchAt_auto.
  destruct (markerAt text q); [|apply IH].
  cbn [endIndex]. destruct (Nat.min q (length text) =? p)%nat; [apply IH|discriminate].
Qed.

(** The pieces are consecutive: nothing is removed by the split. *)
Lemma splitLoop_concat (fuel p q : nat) :
  (p <= q <= size)%nat ->
  concat (splitLoop re text fuel p q) = skipn p text.
Proof.
  unfold size.
  revert p q; induction fuel as [|f IH]; intros p q H; simpl.
  - rewrite app_nil_r. apply substring_to_end. lia.
  - destruct (q <? length text)%nat eqn:Hq.
    + apply Nat.ltb_lt in Hq.
      unfold re. rewrite matchAt_auto.
      destruct (markerAt text q).
      * cbn [endIndex]. rewrite Nat.min_l by lia.
        destruct (q =? p)%nat eqn:Hqp.
        -- apply IH. lia.
        -- apply Nat.eqb_neq in Hqp. simpl.
           fold re. rewrite IH by lia.
           apply substring_skipn. lia.
      * apply IH. lia.
    + simpl. rewrite app_nil_r. apply substring_to_end. lia.
Qed.

(** The cuts are exactly the marked positions after the start of the
    piece being read. *)
Lemma splitLoop_boundaries (fuel p q : nat) :
  (p <= q <= size)%nat ->
  (2 * (size - q) + (if (q =? p)%nat then 0 else 1) + 1 <= fuel)%nat ->
  boundaries p (splitLoop re text fuel p q) =
  filter (markerAt text)
         (seq (if (q =? p)%nat then S q else q)
              (size - (if (q =? p)%nat then S q else q))).
Proof.
  unfold size.
  revert p q; induction fuel as [|f IH]; intros p q H Hf; [lia|].
  simpl splitLoop.
  destruct (q <? length text)%nat eqn:Hq.
  - apply Nat.ltb_lt in Hq.
    unfold re. rewrite matchAt_auto. fold re.
    assert (Hnext : forall p', (p' <= q)%nat ->
              (2 * (length text - S q) + (if (S q =? p')%nat then 0 else 1) + 1 <= f)%nat).
    { intros p' Hp'. destruct (S q =? p')%nat eqn:E;
        [apply Nat.eqb_eq in E; lia|]. destruct (q =? p)%nat; lia. }
    assert (Hsq : (S q =? p)%nat = false) by (apply Nat.eqb_neq; lia).
    destruct (markerAt text q) eqn:Hm.
    + cbn [endIndex]. rewrite Nat.min_l by lia.
      destruct (q =? p)%nat eqn:Hqp.
      * rewrite IH by (try apply Hnext; lia). now rewrite Hsq.
      * apply Nat.eqb_neq in Hqp.
        rewrite boundaries_cons by apply splitLoop_nonempty.
        rewrite length_substring by lia.
        replace (p + (q - p))%nat with q by lia.
        rewrite IH by (rewrite ?Nat.eqb_refl; lia).
        rewrite Nat.eqb_refl.
        replace (length text - q)%nat with (S (length text - S q)) by lia.
        cbn [seq filter]. now rewrite Hm.
    + rewrite IH by (try apply Hnext; lia). rewrite Hsq.
      destruct (q =? p)%nat; [reflexivity|].
      replace (length text - q)%nat with (S (length text - S q)) by lia.
      cbn [seq filter]. now rewrite Hm.
  - apply Nat.ltb_ge in Hq. cbn [boundaries].
    destruct (q =? p)%nat;
      match goal with |- context [seq _ ?n] => replace n with 0%nat by lia end;
      reflexivity.
Qed.
End Loop.

Lemma markers_no_terminator (mk : jsstring) (c : N) :
  In mk markers -> In c mk -> isLineTerminator c = false.
Proof.
  unfold markers. cbn [In].
  intros [<- | [<- | [<- | [<- | []]]]] H; vm_compute in H;
    repeat (destruct H as [<- | H]; [reflexivity|]); contradiction.
Qed.

(** No line starts inside a marker. *)
Lemma lineStart_inside (text mk t : jsstring) (p q : nat) :
  skipn p text = mk ++ t -> In mk markers ->
  (p < q <= p + length mk)%nat -> lineStart text q = false.
Proof.
  intros Hs Hmk Hq. destruct q as [|e]; [lia|]. cbn [lineStart].
  replace e with (p + (e - p))%nat by lia.
  rewrite <- nth_error_skipn, Hs, nth_error_app1 by lia.
  destruct (nth_error mk (e - p)) as [c|] eqn:E; [|reflexivity].
  apply nth_error_In in E. exact (@markers_no_terminator mk c Hmk E).
Qed.

Lemma startsWith_firstn (mk s : jsstring) (n : nat) :
  startsWith mk s = true -> (length mk <= n)%nat ->
  startsWith mk (firstn n s) = true.
Proof.
  intros H Hn. apply startsWith_inv in H as [t ->].
  rewrite firstn_app, firstn_all2 by exact Hn. apply startsWith_app.
Qed.

(** A piece cut between two marked positions begins with the marker of
    the first. *)
Lemma marked_substring (text : jsstring) (p q : nat) :
  markerAt text p = true -> lineStart text q = true -> (p < q)%nat ->
  marked (substring p q text) = true.
Proof.
  unfold markerAt, marked. intros Hp Hq Hpq.
  apply andb_true_iff in Hp as [_ Hp].
  apply existsb_exists in Hp as (mk & Hmk & Hs).
  apply existsb_exists. exists mk. split; [exact Hmk|].
  unfold substring. rewrite Nat.min_l, Nat.max_r by lia.
  apply startsWith_firstn; [exact Hs|].
  destruct (@startsWith_inv _ _ Hs) as [t Ht].
  destruct (Nat.le_gt_cases q (p + length mk)) as [Hle|Hgt]; [|lia].
  rewrite (@lineStart_inside text mk t p q Ht Hmk) in Hq by lia. discriminate.
Qed.

Section Marked.
Variable text : jsstring.

(** Every piece but the first begins with a marker, and so does the first
    when it starts at a marked position. *)
Lemma splitLoop_marked (fuel p q : nat) :
  (p <= q <= length text)%nat ->
  (markerAt text p = true ->
   marked (hd [] (splitLoop App.autoRegExp text fuel p q)) = true)
  /\ Forall (fun c => marked c = true)
            (tl (splitLoop App.autoRegExp text fuel p q)).
Proof.
  assert (Hend : forall p', (p' <= length text)%nat -> markerAt text p' = true ->
            marked (substring p' (length text) text) = true).
  { intros p' Hp' Hm. rewrite substring_to_end by exact Hp'.
    unfold markerAt in Hm. now apply andb_true_iff in Hm as [_ Hm]. }
  revert p q; induction fuel as [|f IH]; intros p q H; cbn [splitLoop].
  - cbn [hd tl]. split; [apply Hend; lia|constructor].
  - destruct (q <? length text)%nat eqn:Hq.
    + apply Nat.ltb_lt in Hq. rewrite matchAt_auto.
      destruct (markerAt text q) eqn:Hm; [|apply IH; lia].
      cbn [endIndex]. rewrite Nat.min_l by lia.
      destruct (q =? p)%nat eqn:Hqp; [apply IH; lia|].
      apply Nat.eqb_neq in Hqp. cbn [hd tl]. split.
      * intros Hp. apply marked_substring; [exact Hp| |lia].
        unfold markerAt in Hm. now apply andb_true_iff in Hm as [Hm _].
      * destruct (IH q q) as [Hh Ht]; [lia|].
        pose proof (splitLoop_nonempty text f q q) as Hne.
        destruct (splitLoop App.autoRegExp text f q q) as [|c rest];
          [congruence|].
        constructor; [exact (Hh Hm)|exact Ht].
    + cbn [hd tl]. split; [apply Hend; lia|constructor].
Qed.
End Marked.

(** The split of the auto-detect mode keeps every code unit. *)
Lemma split_concat (text : jsstring) :
  concat (RegExp.split App.autoRegExp text) = text.
Proof.
  unfold RegExp.split. destruct text as [|c t] eqn:E.
  - rewrite matchAt_auto. reflexivity.
  - rewrite <- E. rewrite splitLoop_concat by lia. reflexivity.
Qed.

(** It cuts the text at the start of each marked line, the start of the
    text apart, and nowhere else. *)
Lemma split_boundaries (text : jsstring) :
  boundaries 0 (RegExp.split App.autoRegExp text) =
  filter (markerAt text) (seq 1 (length text - 1)).
Proof.
  unfold RegExp.split. destruct text as [|c t] eqn:E.
  - rewrite matchAt_auto. reflexivity.
  - rewrite <- E. rewrite splitLoop_boundaries; [reflexivity|lia|].
    simpl. lia.
Qed.

(** Each piece after the first begins with the marker at which the text
    was cut. *)
Lemma split_marked (text : jsstring) :
  Forall (fun c => marked c = true) (tl (RegExp.split App.autoRegExp text)).
Proof.
  unfold RegExp.split. destruct text as [|c t] eqn:E.
  - rewrite matchAt_auto. cbn. constructor.
  - rewrite <- E. apply splitLoop_marked. lia.
Qed.

(** No piece survives the filter exactly when the text is blank. *)
Lemma autoMatches_nil (text : jsstring) :
  App.autoMatches text = [] <-> isBlank text = true.
Proof.
  unfold App.autoMatches.
  rewrite (filter_nil_forallb isBlank).
  rewrite <- isBlank_concat, split_concat. tauto.
Qed.

End AutoSplit.

(* ===================================================================== *)
(** * Facts about [App.tsx] *)
(* ===================================================================== *)

Module AppFacts.
Import JS JSFacts RegExp Markers AutoSplit Examples.

Lemma snippet_firstGroupOrWhole (m : Match) :
  App.snippet m = firstGroupOrWhole m.
Proof.
  unfold App.snippet, firstGroupOrWhole.
  destruct (m_groups m) as [|[g|] l]; reflexivity.
Qed.

Lemma filter_head {A} (f : A -> bool) (l : list A) (c : A) (r : list A) :
  filter f l = c :: r -> f c = true.
Proof.
  intros E. assert (H : In c (filter f l)) by (rewrite E; now left).
  now apply filter_In in H.
Qed.

(** [prepare] changes the output and the loading flag only when it starts
    the generation. *)
Lemma prepare_frame (host : Host) (onLine : bool) (st : App.State) :
  match App.prepare onLine st with
  | (st', None) =>
      App.outputText st' = App.outputText st
      /\ App.isLoading st' = App.isLoading st
      /\ App.error st' <> None
  | (st', Some processed) =>
      App.outputText st' = [] /\ App.isLoading st' = true
      /\ isBlank processed = false
  end.
Proof.
  unfold App.prepare.
  destruct onLine; simpl; [|repeat split; discriminate].
  destruct (isBlank (App.inputText st)); [repeat split; discriminate|].
  destruct (App.extract st) as [p notice|msg]; [|repeat split; discriminate].
  destruct (isBlank p) eqn:Hp.
  - destruct notice; repeat split; discriminate.
  - destruct notice; repeat split; assumption.
Qed.

(** What [extract] answers carries no notice when the text is not
    blank: the notice of the auto mode is set for a text without piece,
    and such a text is blank. *)
Lemma extract_notice (host : Host) (st : App.State) (p : jsstring)
      (notice : option jsstring) :
  isBlank (App.inputText st) = false ->
  App.extract st = App.Proceed p notice -> notice = None.
Proof.
  intros Hb Hx. unfold App.extract in Hx.
  destruct (App.extractionMethod st).
  - now injection Hx as _ <-.
  - destruct (App.autoMatches (App.inputText st)) eqn:E.
    + apply autoMatches_nil in E. congruence.
    + now injection Hx as _ <-.
  - destruct (negb (isBlank (App.regexPattern st))).
    + destruct (RegExp_new (App.regexPattern st) (App.regexFlags st));
        [|discriminate].
      destruct (String_matchAll r (App.regexFlags st) (App.inputText st))
        as [[|]|]; try discriminate.
      now injection Hx as _ <-.
    + now injection Hx as _ <-.
  - now injection Hx as _ <-.
  - destruct (isBlank (App.questionList st)); [discriminate|].
    now injection Hx as _ <-.
Qed.

(** C3. The code cuts the text as the specification describes: for every
    text the pieces of the split, put end to end, are the text, the cuts are
    exactly the starts of the lines, the first position apart, that begin
    with "Q:", "Question:", "- " or "* ", every piece after the first
    begins with its marker, the blank pieces are dropped and the others
    are joined by a blank line; on scenario A the result is the text.
    The fall-back diverges.  On notes without any marker the split gives
    one piece, the notes: they are handed on unchanged and generation
    starts, but without the notice.  The branch that sets the notice and
    keeps the whole text is entered when no piece is left, which is so
    exactly when the text is blank, and a blank text has been turned down
    before the extraction and would be again after it: whatever the
    request, the notice is never the error shown. *)
Theorem C3_auto_notice_unreachable :
  let st := stateWith auto plainNotes [] (js "g") in
  (forall text : jsstring,
     let pieces := RegExp.split App.autoRegExp text in
     concat pieces = text
     /\ boundaries 0 pieces = filter (markerAt text) (seq 1 (length text - 1))
     /\ Forall (fun piece => marked piece = true) (tl pieces)
     /\ App.autoMatches text = filter (fun s => negb (isBlank s)) pieces)
  /\ join [NL; NL] (App.autoMatches scenarioA) = scenarioA
  /\ forallb (fun q => negb (markerAt plainNotes q))
             (seq 0 (length plainNotes)) = true
  /\ App.autoMatches plainNotes = [plainNotes]
  /\ App.extract (host := engine) st = App.Proceed plainNotes None
  /\ App.prepare (host := engine) true st
     = (App.setOutputText [] (App.setIsLoading true (App.setError None st)),
        Some plainNotes)
  /\ (forall (host : Host) (st0 : App.State),
        App.extractionMethod st0 = auto ->
        App.autoMatches (App.inputText st0) = [] ->
        App.extract st0
        = App.Proceed (App.inputText st0) (Some App.msgAutoNoMarkers)
        /\ isBlank (App.inputText st0) = true
        /\ forall onLine, snd (App.prepare onLine st0) = None)
  /\ (forall (host : Host) (onLine : bool) (st0 : App.State),
        App.error (fst (App.prepare onLine st0))
        <> Some App.msgAutoNoMarkers).
Proof.
  intros st.
  split.
  { intros text pieces. subst pieces.
    split; [apply split_concat|].
    split; [apply split_boundaries|].
    split; [apply split_marked | reflexivity]. }
  split; [vm_compute; reflexivity|].
  split; [vm_compute; reflexivity|].
  split; [vm_compute; reflexivity|].
  split; [vm_compute; reflexivity|].
  split; [vm_compute; reflexivity|].
  split.
  - intros host st0 Hm Hnil.
    assert (Hb : isBlank (App.inputText st0) = true)
      by now apply autoMatches_nil.
    split; [unfold App.extract; now rewrite Hm, Hnil|].
    split; [exact Hb|].
    intros onLine. unfold App.prepare. rewrite Hb.
    now destruct onLine.
  - intros host onLine st0. unfold App.prepare.
    destruct onLine; cbn [negb];
      [|intros [= H]; vm_compute in H; discriminate].
    destruct (isBlank (App.inputText st0)) eqn:Hb;
      [intros [= H]; vm_compute in H; discriminate|].
    destruct (App.extract st0) as [p notice|message] eqn:Hx.
    + rewrite (@extract_notice host st0 p notice Hb Hx).
      destruct (isBlank p);
        [intros [= H]; vm_compute in H|]; discriminate.
    + cbn. intros [= ->]. revert Hx. unfold App.extract, String_matchAll.
      destruct (App.extractionMethod st0); try discriminate.
      * destruct (App.autoMatches (App.inputText st0)); discriminate.
      * destruct (negb (isBlank (App.regexPattern st0))); [|discriminate].
        destruct (RegExp_new (App.regexPattern st0) (App.regexFlags st0));
          [|intros [= H]; vm_compute in H; discriminate].
        destruct (hasFlag 103 (App.regexFlags st0));
          [|intros [= H]; vm_compute in H; discriminate].
        destruct (RegExp_execAll r (App.inputText st0));
          [intros [= H]; vm_compute in H|]; discriminate.
      * destruct (isBlank (App.questionList st0));
          [intros [= H]; vm_compute in H|]; discriminate.
Qed.

(** C1 (as amended). In regex mode, for a pattern that is not blank and
    flags that contain [g], when the pattern compiles and has at least one
    match the extraction hands on the texts taken from the matches, in
    order, joined by a blank line; the text taken from a match is that of
    the first capturing group when this group took part in the match, and
    the whole match otherwise.  Generation starts on this text when it is
    not blank.  On scenario B there are 2 matches and the result is "foo",
    a blank line, "bar". *)
Theorem C1_regex_extraction (host : Host) (st : App.State) (re : regexp)
        (m : Match) (ms : list Match) :
  App.extractionMethod st = regex ->
  isBlank (App.regexPattern st) = false ->
  hasFlag 103 (App.regexFlags st) = true ->
  RegExp_new (App.regexPattern st) (App.regexFlags st) = Some re ->
  RegExp_execAll re (App.inputText st) = m :: ms ->
  App.extract st
  = App.Proceed (join [NL; NL] (map firstGroupOrWhole (m :: ms))) None
  /\ (isBlank (App.inputText st) = false ->
      isBlank (join [NL; NL] (map firstGroupOrWhole (m :: ms))) = false ->
      snd (App.prepare true st)
      = Some (join [NL; NL] (map firstGroupOrWhole (m :: ms))))
  /\ App.extract (host := engine) (stateWith regex scenarioB boldPattern (js "g"))
     = App.Proceed (js "foo" ++ [NL; NL] ++ js "bar") None
  /\ option_map (fun re' => length (RegExp_execAll re' scenarioB))
                (RegExp_new (Host := engine) boldPattern (js "g"))
     = Some 2%nat.
Proof.
  intros Hm Hb Hg Hre Hms.
  assert (Hx : App.extract st
               = App.Proceed (join [NL; NL] (map firstGroupOrWhole (m :: ms))) None).
  { unfold App.extract. rewrite Hm, Hb. cbn [negb]. rewrite Hre.
    unfold String_matchAll. rewrite Hg, Hms.
    f_equal. f_equal. apply map_ext. exact snippet_firstGroupOrWhole. }
  split; [exact Hx|]. split; [|split; vm_compute; reflexivity].
  intros Hi Hj. unfold App.prepare. rewrite Hx, Hi, Hj. reflexivity.
Qed.

(** C1 on a pattern whose first group takes part in one match out of
    two. *)
Lemma C1_witness :
  let st := stateWith regex (js "ab") (js "(a)|b") (js "g") in
  App.extract (host := engine) st
  = App.Proceed (js "a" ++ [NL; NL] ++ js "b") None.
Proof.
  intros st.
  destruct (RegExp_new (Host := engine) (js "(a)|b") (js "g")) as [re|] eqn:Hre;
    [|vm_compute in Hre; discriminate].
  destruct (RegExp_execAll re (js "ab")) as [|m ms] eqn:Hms;
    [vm_compute in Hre; injection Hre as <-; vm_compute in Hms; discriminate|].
  destruct (@C1_regex_extraction engine st re m ms eq_refl eq_refl eq_refl Hre Hms)
    as [H _].
  rewrite H.
  vm_compute in Hre. injection Hre as <-.
  vm_compute in Hms. injection Hms as <- <-.
  vm_compute. reflexivity.
Defined.

(** C1, counterexamples to the statement of the specification: a first
    group that takes no part in the match, flags without [g], and a blank
    pattern. *)
Lemma C1_counterexample :
  ~ C1_stated engine (stateWith regex (js "b") (js "(a)|b") (js "g"))
  /\ ~ C1_stated engine (stateWith regex (js "a") (js "a") (js "m"))
  /\ ~ C1_stated engine (stateWith regex (js "a b") (js " ") (js "g")).
Proof.
  repeat split; intros H.
  - edestruct H as (texts & Hs & _);
      [vm_compute; reflexivity|reflexivity|vm_compute; discriminate|].
    vm_compute in Hs. destruct texts; discriminate.
  - edestruct H as (texts & _ & He);
      [vm_compute; reflexivity|reflexivity|vm_compute; discriminate|].
    vm_compute in He. discriminate.
  - edestruct H as (texts & Hs & He);
      [vm_compute; reflexivity|reflexivity|vm_compute; discriminate|].
    vm_compute in Hs. destruct texts as [|t [|u l]]; try discriminate.
    injection Hs as <-. vm_compute in He. discriminate.
Qed.

(** C5 (as amended). In regex mode with a pattern that is not blank, a
    request whose pattern does not compile under the flags, or compiles
    and has no match, is rejected with a message: generation does not
    start and the output and the loading flag are left as they were.  For
    every request, the output is cleared only when generation starts. *)
Theorem C5_regex_rejection (host : Host) (onLine : bool) (st : App.State) :
  App.extractionMethod st = regex ->
  isBlank (App.regexPattern st) = false ->
  (RegExp_new (App.regexPattern st) (App.regexFlags st) = None
   \/ exists re,
        RegExp_new (App.regexPattern st) (App.regexFlags st) = Some re
        /\ RegExp_execAll re (App.inputText st) = []) ->
  (snd (App.prepare onLine st) = None
   /\ App.error (fst (App.prepare onLine st)) <> None
   /\ App.outputText (fst (App.prepare onLine st)) = App.outputText st
   /\ App.isLoading (fst (App.prepare onLine st)) = App.isLoading st)
  /\ (forall (onLine' : bool) (st0 : App.State),
        App.outputText (fst (App.prepare onLine' st0)) <> App.outputText st0 ->
        snd (App.prepare onLine' st0) <> None
        /\ App.isLoading (fst (App.prepare onLine' st0)) = true
        /\ App.outputText (fst (App.prepare onLine' st0)) = []).
Proof.
  intros Hm Hb Hfail. split.
  - assert (Hx : exists msg, App.extract st = App.Abort msg).
    { unfold App.extract. rewrite Hm, Hb. cbn [negb].
      destruct Hfail as [-> | (re & -> & Hnone)]; [now eexists|].
      unfold String_matchAll. rewrite Hnone.
      destruct (hasFlag 103 (App.regexFlags st)); now eexists. }
    destruct Hx as [msg Hx].
    pose proof (prepare_frame host onLine st) as Hf.
    assert (Hs : snd (App.prepare onLine st) = None).
    { unfold App.prepare. rewrite Hx.
      destruct onLine; [|reflexivity].
      destruct (isBlank (App.inputText st)); reflexivity. }
    destruct (App.prepare onLine st) as [st' [p|]]; [discriminate|].
    cbn [fst snd]. tauto.
  - intros onLine' st0 Hne.
    pose proof (prepare_frame host onLine' st0) as Hf.
    destruct (App.prepare onLine' st0) as [st' [p|]]; cbn [fst snd] in *.
    + repeat split; [discriminate|tauto|tauto].
    + exfalso. apply Hne. tauto.
Qed.

(** C5 on a pattern that does not compile and on one without match. *)
Lemma C5_witness :
  let bad := stateWith regex (js "abc") (js "(") (js "g") in
  let none := stateWith regex (js "abc") (js "x") (js "g") in
  (snd (App.prepare (host := engine) true bad) = None
   /\ App.outputText (fst (App.prepare (host := engine) true bad)) = js "old output")
  /\ (snd (App.prepare (host := engine) true none) = None
      /\ App.outputText (fst (App.prepare (host := engine) true none)) = js "old output").
Proof.
  intros bad none. split.
  - assert (H : RegExp_new (Host := engine) (App.regexPattern bad) (App.regexFlags bad) = None)
      by (vm_compute; reflexivity).
    destruct (@C5_regex_rejection engine true bad eq_refl eq_refl (or_introl H))
      as [(H1 & _ & H3 & _) _].
    split; [exact H1|exact H3].
  - assert (H : exists re,
        RegExp_new (Host := engine) (App.regexPattern none) (App.regexFlags none) = Some re
        /\ RegExp_execAll re (App.inputText none) = []).
    { eexists. split; vm_compute; reflexivity. }
    destruct (@C5_regex_rejection engine true none eq_refl eq_refl (or_intror H))
      as [(H1 & _ & H3 & _) _].
    split; [exact H1|exact H3].
Defined.

(** C5, counterexample to the statement of the specification: the pattern
    of one space compiles and has no match in "abc", yet generation starts
    and the output is cleared. *)
Lemma C5_counterexample :
  ~ C5_stated engine true (stateWith regex (js "abc") (js " ") (js "g")).
Proof.
  intros H. destruct H as [H _]; [reflexivity| |vm_compute in H; discriminate].
  right. eexists. split; vm_compute; reflexivity.
Qed.

(** C10. In regex mode with an empty or blank pattern the extraction is
    skipped: the outcome does not depend on the host engine, which is not
    consulted, the text is handed on unchanged with no message, and when
    the browser is on line and the text is not blank generation starts on
    the text as it is. *)
Theorem C10_blank_pattern_skipped (host : Host) (onLine : bool) (st : App.State) :
  App.extractionMethod st = regex ->
  isBlank (App.regexPattern st) = true ->
  App.extract st = App.Proceed (App.inputText st) None
  /\ (forall host' : Host,
        App.prepare (host := host') onLine st = App.prepare onLine st)
  /\ (onLine = true -> isBlank (App.inputText st) = false ->
      App.prepare onLine st
      = (App.setOutputText [] (App.setIsLoading true (App.setError None st)),
         Some (App.inputText st))).
Proof.
  intros Hm Hb.
  assert (Hx : forall h : Host, App.extract (host := h) st
                                = App.Proceed (App.inputText st) None).
  { intros h. unfold App.extract. now rewrite Hm, Hb. }
  split; [apply Hx|]. split.
  - intros host'. unfold App.prepare. now rewrite !Hx.
  - intros -> Hi. unfold App.prepare. rewrite Hx, Hi. reflexivity.
Qed.

(** C10 on the pattern of two spaces. *)
Lemma C10_witness :
  let st := stateWith regex (js "abc") (js "  ") (js "g") in
  App.prepare (host := engine) true st
  = (App.setOutputText [] (App.setIsLoading true (App.setError None st)),
     Some (js "abc")).
Proof.
  intros st.
  destruct (@C10_blank_pattern_skipped engine true st eq_refl eq_refl)
    as (_ & _ & H).
  exact (H eq_refl eq_refl).
Defined.

End AppFacts.

(* ===================================================================== *)
(** * Facts about the generation client *)
(* ===================================================================== *)

Module GeminiFacts.
Import JS JSFacts GeminiService GeminiExamples.

Lemma jsstring_eqb_eq (a b : jsstring) : jsstring_eqb a b = true <-> a = b.
Proof.
  unfold jsstring_eqb. destruct (list_eq_dec N.eq_dec a b); split; congruence.
Qed.

(** C4. When the call or the stream fails, the generator throws an [Error]
    whose message is the kind obtained from the failure, never the failure
    itself: one of the four kinds.  For an [Error] the kind is read from
    its message by containment ([includes], which compares code units):
    "API key not valid" gives API_KEY_INVALID; failing that,
    "RESOURCE_EXHAUSTED" or "rate limit" gives RATE_LIMIT_EXCEEDED; failing
    that, "candidate" together with "was blocked" gives CONTENT_BLOCKED;
    anything else, and a failure that is no [Error], gives the generic
    message.  The same words in another case give the generic message. *)
Theorem C4_failure_mapping (provider : Provider) (userInput : jsstring)
        (options : GenerationOptions) (raw : Thrown) :
  failure (respond provider userInput options) = Some raw ->
  snd (generateFlashcardsStream provider userInput options)
  = Some (mapFailure raw)
  /\ In (mapFailure raw)
        [js "API_KEY_INVALID"; js "RATE_LIMIT_EXCEEDED"; js "CONTENT_BLOCKED";
         genericFailure]
  /\ (forall message, raw = ErrorObject message ->
      (includes (js "API key not valid") message = true ->
       mapFailure raw = js "API_KEY_INVALID")
      /\ (includes (js "API key not valid") message = false ->
          includes (js "RESOURCE_EXHAUSTED") message = true
          \/ includes (js "rate limit") message = true ->
          mapFailure raw = js "RATE_LIMIT_EXCEEDED")
      /\ (includes (js "API key not valid") message = false ->
          includes (js "RESOURCE_EXHAUSTED") message = false ->
          includes (js "rate limit") message = false ->
          includes (js "candidate") message = true ->
          includes (js "was blocked") message = true ->
          mapFailure raw = js "CONTENT_BLOCKED")
      /\ (includes (js "API key not valid") message = false ->
          includes (js "RESOURCE_EXHAUSTED") message = false ->
          includes (js "rate limit") message = false ->
          includes (js "candidate") message = false
          \/ includes (js "was blocked") message = false ->
          mapFailure raw = genericFailure))
  /\ (raw = OtherValue -> mapFailure raw = genericFailure)
  /\ mapFailure (ErrorObject (js "api key not valid")) = genericFailure.
Proof.
  intros Hf. split; [|split; [|split; [|split]]].
  - unfold generateFlashcardsStream. cbn [snd]. now rewrite Hf.
  - destruct raw as [message|]; cbn [mapFailure].
    + destruct (includes (js "API key not valid") message); [now left|].
      destruct (includes (js "RESOURCE_EXHAUSTED") message
                || includes (js "rate limit") message); [right; now left|].
      destruct (includes (js "candidate") message
                && includes (js "was blocked") message);
        [right; right; now left|right; right; right; now left].
    + right; right; right; now left.
  - intros message ->. cbn [mapFailure].
    repeat split.
    + now intros ->.
    + intros -> [-> | ->]; [reflexivity|]. now rewrite orb_true_r.
    + now intros -> -> -> -> ->.
    + intros -> -> -> [-> | ->]; [reflexivity|]. now rewrite andb_false_r.
  - now intros ->.
  - vm_compute. reflexivity.
Qed.

(** C4 on a quota failure of the provider. *)
Lemma C4_witness :
  let raw := ErrorObject (js "[429] RESOURCE_EXHAUSTED: quota") in
  snd (generateFlashcardsStream (failingProvider raw) (js "notes")
                                (optionsWith (js "gemini-2.5-flash") []))
  = Some (js "RATE_LIMIT_EXCEEDED").
Proof.
  intros raw.
  destruct (@C4_failure_mapping (failingProvider raw) (js "notes")
              (optionsWith (js "gemini-2.5-flash") []) raw eq_refl)
    as (H & _ & Hk & _).
  destruct (Hk _ eq_refl) as (_ & H2 & _).
  rewrite H. apply (f_equal Some).
  apply H2; [vm_compute; reflexivity|left; vm_compute; reflexivity].
Defined.

(** C8 (as amended). The configuration of the call carries the extended
    reasoning budget exactly when the model identifier is
    "gemini-2.5-pro"; for every other identifier it holds the system
    instruction and nothing else.  The system instruction is there in both
    cases. *)
Theorem C8_thinking_budget (userInput : jsstring) (options : GenerationOptions) :
  let config := snd (request userInput options) in
  (cfg_thinkingBudget config = Some 32768%N
   <-> model options = js "gemini-2.5-pro")
  /\ (model options <> js "gemini-2.5-pro" ->
      config = mkConfig systemInstruction None)
  /\ cfg_systemInstruction config = systemInstruction.
Proof.
  unfold request, createPromptParts.
  destruct (taskAndInput userInput options) as [t i]. cbn [snd].
  unfold buildConfig. cbn [cfg_thinkingBudget cfg_systemInstruction].
  pose proof (jsstring_eqb_eq (model options) (js "gemini-2.5-pro")) as Heq.
  destruct (jsstring_eqb (model options) (js "gemini-2.5-pro")).
  - assert (E : model options = js "gemini-2.5-pro") by now apply Heq.
    repeat split; auto. intros Hne. contradiction.
  - assert (E : model options <> js "gemini-2.5-pro").
    { intros E. apply Heq in E. discriminate. }
    repeat split; auto; try discriminate. intros E'. contradiction.
Qed.

(** C8, counterexample to the statement of the specification: an
    identifier that ends in "-pro" and gets no reasoning budget. *)
Lemma C8_counterexample :
  ~ C8_stated (js "notes") (optionsWith (js "gemini-1.5-pro") []).
Proof.
  intros [_ H]. apply H; vm_compute; reflexivity.
Qed.

Lemma uintCodes_digits (d : Decimal.uint) (c : N) :
  In c (uintCodes d) -> (48 <= c <= 57)%N.
Proof.
  induction d; simpl; intros H; try tauto;
    (destruct H as [<- | H]; [lia|auto]).
Qed.

Lemma numeral_digits (n : Z) (c : N) :
  (0 < n)%Z -> In c (decimal n) -> (48 <= c <= 57)%N.
Proof.
  destruct n; try lia. intros _. apply uintCodes_digits.
Qed.

Lemma includes_middle (a p b : jsstring) : includes p (a ++ p ++ b) = true.
Proof. apply includes_spec. now exists a, b. Qed.

(** The two instructions differ, whatever the number printed. *)
Lemma exactly_not_appropriate (printed : jsstring) :
  exactly printed <> appropriateQuantity.
Proof.
  intros H. apply (f_equal (fun s => nth 9 s 0%N)) in H.
  vm_compute in H. discriminate.
Qed.

(** The instruction for a field that holds the numeral of a positive
    integer, behind white space and in front of anything but a digit. *)
Lemma quantityInstruction_decimal (n : Z) (space rest : jsstring) :
  (0 < n)%Z -> isBlank space = true -> noDigitAhead rest ->
  quantityInstruction (space ++ decimal n ++ rest)
  = exactly (Number_toString (toNumber n)).
Proof.
  intros Hn Hspace Hrest. unfold quantityInstruction.
  rewrite isBlank_forallb in Hspace.
  rewrite (@parseInt10_decimal n space rest Hn Hspace Hrest).
  now rewrite toNumber_positive.
Qed.

(** C9 (as amended). The user content is made of a head, the quantity
    instruction and a tail, so it contains the quantity instruction.  The
    instruction is "Generate exactly N flashcards.", with N the text the
    template literal prints for the Number, when [parseInt] reads a
    positive Number off the field, and the instruction that asks for an
    appropriate number exactly when it reads none or one that is not
    positive.  [parseInt] skips leading white space and reads the digits
    up to the first other character: for a field made of white space, the
    numeral of a positive integer and anything that does not begin with a
    digit, the Number is the double nearest to the integer.  Below 2^53
    it is the integer and N is its numeral; beyond, N is the text of the
    double: 9007199254740992 for the field 9007199254740993, 1e+21 for
    the field of 10^21, Infinity for the field of 10^309. *)
Theorem C9_quantity_instruction (userInput : jsstring)
        (options : GenerationOptions) :
  let field := numberOfCards options in
  let prompt := snd (createPromptParts userInput options) in
  (exists head, prompt = head ++ quantityInstruction field ++ contentTail)
  /\ includes (quantityInstruction field) prompt = true
  /\ (isPositive (parseInt10 field) = true ->
      quantityInstruction field
      = exactly (Number_toString (parseInt10 field)))
  /\ (quantityInstruction field = appropriateQuantity
      <-> isPositive (parseInt10 field) = false)
  /\ (forall (n : Z) (space rest : jsstring),
        (0 < n)%Z -> isBlank space = true -> noDigitAhead rest ->
        field = space ++ decimal n ++ rest ->
        parseInt10 field = toNumber n
        /\ quantityInstruction field
           = exactly (Number_toString (toNumber n))
        /\ ((n < 2 ^ 53)%Z -> quantityInstruction field = exactQuantity n))
  /\ quantityInstruction (js "9007199254740993")
     = exactQuantity 9007199254740992
  /\ quantityInstruction (decimal (10 ^ 21)) = exactly (js "1e+21")
  /\ quantityInstruction (decimal (10 ^ 309)) = exactly (js "Infinity").
Proof.
  cbv zeta. unfold createPromptParts.
  destruct (taskAndInput userInput options) as [t i]. cbn [snd].
  split; [now eexists|]. split; [apply includes_middle|].
  split; [intros Hp; unfold quantityInstruction; now rewrite Hp|].
  split.
  { unfold quantityInstruction.
    destruct (isPositive (parseInt10 (numberOfCards options))).
    - split; [|discriminate]. intros H.
      now apply exactly_not_appropriate in H.
    - now split. }
  split.
  { intros n space rest Hn Hspace Hrest ->.
    split.
    - rewrite isBlank_forallb in Hspace.
      exact (@parseInt10_decimal n space rest Hn Hspace Hrest).
    - split; [exact (@quantityInstruction_decimal n space rest Hn Hspace Hrest)|].
      intros Hlt.
      rewrite (@quantityInstruction_decimal n space rest Hn Hspace Hrest).
      rewrite toNumber_small by lia.
      now rewrite Number_toString_small by lia. }
  split; [vm_compute; reflexivity|].
  split; vm_compute; reflexivity.
Qed.

(** C9, counterexamples to the statement of the specification.  The field
    "2.5" is not the numeral of an integer, yet the prompt asks for
    exactly 2 flashcards and does not hold the other instruction.  The
    field "9007199254740993" is the numeral of a positive integer, yet
    the prompt does not ask for exactly that number: it asks for
    9007199254740992. *)
Lemma C9_counterexample :
  ~ C9_stated (js "notes") (optionsWith (js "gemini-2.5-flash") (js "2.5"))
  /\ ~ C9_stated (js "notes")
         (optionsWith (js "gemini-2.5-flash") (js "9007199254740993")).
Proof.
  split.
  - intros [_ H].
    assert (Hno : forall n : Z, (0 < n)%Z ->
              numberOfCards (optionsWith (js "gemini-2.5-flash") (js "2.5"))
              <> decimal n).
    { intros n Hn E.
      assert (Hin : In 46%N (decimal n)).
      { rewrite <- E. vm_compute. tauto. }
      apply (numeral_digits _ Hn) in Hin. lia. }
    specialize (H Hno). vm_compute in H. discriminate.
  - intros [H _].
    specialize (H 9007199254740993%Z eq_refl eq_refl).
    vm_compute in H. discriminate.
Qed.

End GeminiFacts.

(* ===================================================================== *)
(** * Facts about the preview and the output panel *)
(* ===================================================================== *)

Module PanelFacts.
Import JS JSFacts RegExp Examples PanelExamples.

(** ** The preview *)

Section Preview.
Variable text : jsstring.

Lemma highlightStep_invariant (i : nat) (m : Match) (lastIndex : nat)
      (parts : list InputPanel.Part) (rest : list (option (nat * nat))) :
  (lastIndex <= length text)%nat ->
  concat (map InputPanel.partText parts) = firstn lastIndex text ->
  spansOrdered (length text) lastIndex (chosenSpan text m :: rest) = true ->
  let '(lastIndex', parts') :=
    InputPanel.highlightStep text i m (lastIndex, parts) in
  (lastIndex' <= length text)%nat
  /\ concat (map InputPanel.partText parts') = firstn lastIndex' text
  /\ spansOrdered (length text) lastIndex' rest = true.
Proof.
  intros Hl Hc Ho.
  assert (Hspan : forall s e, chosenSpan text m = Some (s, e) ->
    (e <= length text)%nat
    /\ concat (map InputPanel.partText
         ((if (lastIndex <? s)%nat
           then parts ++ [InputPanel.Plain (substring lastIndex s text)]
           else parts) ++ [InputPanel.Highlight i (substring s e text)]))
       = firstn e text
    /\ spansOrdered (length text) e rest = true).
  { intros s e E. rewrite E in Ho. cbn [spansOrdered] in Ho.
    apply andb_true_iff in Ho as [Ho Hr].
    apply andb_true_iff in Ho as [Ho He].
    apply andb_true_iff in Ho as [Hs Hse].
    apply Nat.leb_le in Hs, Hse, He.
    repeat split; [exact He| |exact Hr].
    rewrite map_app, concat_app. cbn [map concat InputPanel.partText].
    rewrite app_nil_r.
    destruct (lastIndex <? s)%nat eqn:Hlt.
    - rewrite map_app, concat_app. cbn [map concat InputPanel.partText].
      rewrite app_nil_r, Hc, !firstn_substring by lia. reflexivity.
    - apply Nat.ltb_ge in Hlt. assert (s = lastIndex) by lia. subst s.
      rewrite Hc, firstn_substring by lia. reflexivity. }
  unfold InputPanel.highlightStep.
  unfold chosenSpan in Hspan, Ho.
  destruct (InputPanel.selectIndices m) as [[s e]|].
  - apply Hspan. reflexivity.
  - destruct (indexOf (App.snippet m) (m_index m) text) as [start|].
    + apply Hspan. reflexivity.
    + cbn [spansOrdered] in Ho. auto.
Qed.

Lemma highlightLoop_invariant (matches : list Match) (i lastIndex : nat)
      (parts : list InputPanel.Part) :
  (lastIndex <= length text)%nat ->
  concat (map InputPanel.partText parts) = firstn lastIndex text ->
  spansOrdered (length text) lastIndex (map (chosenSpan text) matches) = true ->
  let '(lastIndex', parts') :=
    InputPanel.highlightLoop text i matches (lastIndex, parts) in
  (lastIndex' <= length text)%nat
  /\ concat (map InputPanel.partText parts') = firstn lastIndex' text.
Proof.
  revert i lastIndex parts.
  induction matches as [|m ms IH]; intros i lastIndex parts Hl Hc Ho.
  - cbn. auto.
  - cbn [InputPanel.highlightLoop map] in *.
    pose proof (highlightStep_invariant i m parts _ Hl Hc Ho) as Hs.
    destruct (InputPanel.highlightStep text i m (lastIndex, parts))
      as [l1 p1].
    destruct Hs as (H1 & H2 & H3). now apply IH.
Qed.
End Preview.

(** ** The engine on patterns without lookahead *)

Lemma capOk_mono (i0 e e' : nat) (cap : option (nat * nat)) :
  (e <= e')%nat -> capOk i0 e cap -> capOk i0 e' cap.
Proof. destruct cap as [[s t]|]; simpl; [lia|auto]. Qed.

Lemma Forall_capOk_mono (i0 e e' : nat) (caps : list (option (nat * nat))) :
  (e <= e')%nat -> Forall (capOk i0 e) caps -> Forall (capOk i0 e') caps.
Proof.
  intros He H. eapply Forall_impl; [|exact H].
  intros cap. now apply capOk_mono.
Qed.

Lemma Forall_setNth {A} (P : A -> Prop) (k : nat) (v : A) (l : list A) :
  P v -> Forall P l -> Forall P (setNth k v l).
Proof.
  intros Hv. revert k; induction l as [|a l IH]; intros k H; cbn [setNth].
  - destruct k; constructor.
  - inversion H; subst. destruct k; constructor; auto.
Qed.

Lemma Forall_clearRange (i0 e parenIndex parenCount : nat)
      (l : list (option (nat * nat))) :
  Forall (capOk i0 e) l -> Forall (capOk i0 e) (clearRange parenIndex parenCount l).
Proof.
  revert parenIndex parenCount; induction l as [|a l IH];
    intros parenIndex parenCount H; cbn [clearRange]; [constructor|].
  inversion H; subst.
  destruct parenIndex; [destruct parenCount|]; try constructor; auto.
  exact I.
Qed.

Section Progress.
Variable text : jsstring.
Variables multiline dotAll : bool.
Variable i0 : nat.

Lemma repeatMatcher_progresses (m : Matcher) :
  progresses text i0 m ->
  forall fuel min max greedy parenIndex parenCount,
    progresses text i0
      (repeatMatcher fuel m min max greedy parenIndex parenCount).
Proof.
  intros Hm. induction fuel as [|f IH];
    intros min max greedy parenIndex parenCount x c z Hx H;
    cbn [repeatMatcher] in H; [discriminate|].
  assert (Hhere : c x = Some z ->
            exists y, okState (length text) i0 y
                      /\ (endIndex x <= endIndex y)%nat /\ c y = Some z)
    by (intros Hc; exists x; auto).
  set (d := fun y : MatchState =>
         if (min =? 0)%nat && (endIndex y =? endIndex x)%nat then None
         else repeatMatcher f m (pred min) (option_map pred max) greedy
                            parenIndex parenCount y c) in H.
  set (xr := mkState (endIndex x)
                     (clearRange parenIndex parenCount (captures x))) in H.
  assert (Hxr : okState (length text) i0 xr).
  { destruct Hx as [Hb Hc]. split; [exact Hb|]. now apply Forall_clearRange. }
  assert (Hloop : m xr d = Some z ->
            exists y, okState (length text) i0 y
                      /\ (endIndex x <= endIndex y)%nat /\ c y = Some z).
  { intros Hd. destruct (Hm xr d z Hxr Hd) as (y1 & Hy1 & Hle & Hd1).
    unfold d in Hd1.
    destruct ((min =? 0)%nat && (endIndex y1 =? endIndex x)%nat);
      [discriminate|].
    destruct (IH _ _ _ _ _ y1 c z Hy1 Hd1) as (y2 & Hy2 & Hle2 & Hc2).
    exists y2. split; [exact Hy2|]. split; [|exact Hc2].
    unfold xr in Hle. cbn [endIndex] in Hle. lia. }
  destruct max as [[|mx]|]; [now apply Hhere| |].
  - destruct (negb (min =? 0)%nat); [now apply Hloop|].
    destruct greedy.
    + destruct (m xr d) eqn:E; [injection H as <-; now apply Hloop|now apply Hhere].
    + destruct (c x) eqn:E; [injection H as <-; now apply Hhere|now apply Hloop].
  - destruct (negb (min =? 0)%nat); [now apply Hloop|].
    destruct greedy.
    + destruct (m xr d) eqn:E; [injection H as <-; now apply Hloop|now apply Hhere].
    + destruct (c x) eqn:E; [injection H as <-; now apply Hhere|now apply Hloop].
Qed.

Lemma matcher_progresses (r : Regex) :
  noLook r = true -> progresses text i0 (matcher text multiline dotAll r).
Proof.
  induction r as [|p|a IHa b IHb|a IHa b IHb|k a IHa|pos a IHa| | |a IHa min max greedy pi pc];
    intros Hn x c z Hx H; cbn [matcher noLook] in *.
  - exists x. auto.
  - destruct (nth_error text (endIndex x)) as [ch|] eqn:E; [|discriminate].
    destruct (charMatches dotAll p ch); [|discriminate].
    eexists. split; [|split; [|exact H]]; cbn [endIndex]; [|lia].
    assert (Hlt : (endIndex x < length text)%nat)
      by (apply nth_error_Some; congruence).
    destruct Hx as [Hb Hc]. split; cbn [endIndex captures]; [lia|].
    eapply Forall_capOk_mono; [|exact Hc]. lia.
  - apply andb_true_iff in Hn as [Ha Hb].
    destruct (IHa Ha x _ z Hx H) as (y1 & Hy1 & Hle1 & H1).
    destruct (IHb Hb y1 c z Hy1 H1) as (y2 & Hy2 & Hle2 & H2).
    exists y2. split; [exact Hy2|]. split; [lia|exact H2].
  - apply andb_true_iff in Hn as [Ha Hb].
    destruct (matcher text multiline dotAll a x c) eqn:E.
    + injection H as <-. now apply (IHa Ha x c).
    + now apply (IHb Hb x c).
  - destruct (IHa Hn x _ z Hx H) as (y1 & Hy1 & Hle1 & H1).
    eexists. split; [|split; [|exact H1]]; cbn [endIndex]; [|exact Hle1].
    destruct Hy1 as [Hb Hc]. destruct Hx as [Hxb _].
    split; cbn [endIndex captures]; [exact Hb|].
    apply Forall_setNth; [|exact Hc]. cbn. lia.
  - discriminate.
  - exists x. split; [exact Hx|]. split; [lia|].
    destruct (endIndex x) as [|e]; [exact H|].
    destruct (nth_error text e); [|discriminate].
    now destruct (multiline && isLineTerminator n).
  - exists x. split; [exact Hx|]. split; [lia|].
    destruct (nth_error text (endIndex x)); [|exact H].
    now destruct (multiline && isLineTerminator n).
  - exact (@repeatMatcher_progresses _ (IHa Hn) _ min max greedy pi pc
             x c z Hx H).
Qed.
End Progress.

Section EngineSpans.
Variable re : Compiled.
Variable text : jsstring.
Hypothesis re_noLook : noLook (re_ast re) = true.
Hypothesis re_indices : re_hasIndices re = true.

Lemma Forall_repeat_None (i0 e n : nat) :
  Forall (capOk i0 e) (repeat None n).
Proof. induction n; cbn; constructor; auto. exact I. Qed.

Lemma matchAt_ok (i : nat) (y : MatchState) :
  (i <= length text)%nat -> matchAt re text i = Some y ->
  okState (length text) i y.
Proof.
  intros Hi H. unfold matchAt in H.
  assert (Hstart : okState (length text) i
                     (mkState i (repeat None (re_ngroups re)))).
  { split; cbn [endIndex captures]; [lia|apply Forall_repeat_None]. }
  destruct (@matcher_progresses text (re_multiline re) (re_dotAll re) i
              (re_ast re) re_noLook _ _ _ Hstart H)
    as (y' & Hy & _ & [= <-]).
  exact Hy.
Qed.

Lemma execFrom_found (fuel lastIndex i : nat) (y : MatchState) :
  execFrom re text fuel lastIndex = Some (i, y) ->
  (lastIndex <= i <= length text)%nat /\ matchAt re text i = Some y.
Proof.
  revert lastIndex; induction fuel as [|f IH]; intros lastIndex H;
    cbn [execFrom] in H; [discriminate|].
  destruct (length text <? lastIndex)%nat eqn:Hl; [discriminate|].
  apply Nat.ltb_ge in Hl.
  destruct (matchAt re text lastIndex) as [y'|] eqn:E.
  - injection H as <- <-. split; [lia|exact E].
  - apply IH in H. split; [lia|apply H].
Qed.

(** The span chosen for a match of the engine lies inside the match. *)
Lemma chosenSpan_engine (i : nat) (y : MatchState) :
  okState (length text) i y ->
  exists s e, chosenSpan text (toMatch re text i y) = Some (s, e)
              /\ (i <= s /\ s <= e /\ e <= endIndex y)%nat.
Proof.
  intros [Hb Hc]. unfold chosenSpan, InputPanel.selectIndices, toMatch.
  cbn [m_indices]. rewrite re_indices.
  destruct (captures y) as [|c0 caps]; cbn.
  - exists i, (endIndex y). split; [reflexivity|lia].
  - inversion Hc as [|? ? H0 _]; subst.
    destruct c0 as [[s e]|].
    + exists s, e. split; [reflexivity|exact H0].
    + exists i, (endIndex y). split; [reflexivity|lia].
Qed.

Lemma execAllFrom_ordered (fuel lastIndex bound : nat) :
  (bound <= lastIndex)%nat ->
  spansOrdered (length text) bound
    (map (chosenSpan text) (execAllFrom re text fuel lastIndex)) = true.
Proof.
  revert lastIndex bound; induction fuel as [|f IH];
    intros lastIndex bound Hb; cbn [execAllFrom]; [reflexivity|].
  destruct (execFrom re text (length text + 2 - lastIndex) lastIndex)
    as [[i y]|] eqn:E; [|reflexivity].
  apply execFrom_found in E as [Hi Hm].
  pose proof (matchAt_ok (proj2 Hi) Hm) as Hok.
  destruct (chosenSpan_engine Hok) as (s & e & Hs & Hse).
  cbn [map]. rewrite Hs. cbn [spansOrdered].
  destruct Hok as [Hend _].
  rewrite IH by (destruct (endIndex y =? i)%nat; lia).
  rewrite andb_true_r.
  repeat (apply andb_true_iff; split); apply Nat.leb_le; lia.
Qed.
End EngineSpans.

Lemma hasFlag_dedupe (c : N) (seen s : jsstring) :
  hasFlag c (InputPanel.dedupe seen s)
  = hasFlag c s && negb (hasFlag c seen).
Proof.
  unfold hasFlag. revert seen; induction s as [|a s IH]; intros seen;
    cbn [InputPanel.dedupe existsb]; [reflexivity|].
  destruct (existsb (N.eqb a) seen) eqn:Ea.
  - rewrite IH. destruct (N.eqb c a) eqn:Eca; [|reflexivity].
    apply N.eqb_eq in Eca. subst a. rewrite Ea. cbn.
    now rewrite andb_false_r.
  - cbn [existsb]. rewrite IH. cbn [existsb].
    destruct (N.eqb c a) eqn:Eca.
    + apply N.eqb_eq in Eca. subst a. now rewrite Ea.
    + cbn [orb]. reflexivity.
Qed.

(** When the spans chosen for the successive matches follow one another,
    the parts of the preview, put end to end, are the text. *)
Lemma preview_reconstructs (host : Host) (method : ExtractionMethod)
      (text pattern flags : jsstring) :
  (forall re, RegExp_new pattern (InputPanel.dedupe [] (flags ++ js "dg")) = Some re ->
     spansOrdered (length text) 0
       (map (chosenSpan text) (RegExp_execAll re text)) = true) ->
  concat (map InputPanel.partText
            (InputPanel.highlightedContent
               (InputPanel.preview method text pattern flags))) = text.
Proof.
  intros Hord. unfold InputPanel.preview.
  assert (Hplain : concat (map InputPanel.partText [InputPanel.Plain text]) = text)
    by (cbn; apply app_nil_r).
  destruct method; try exact Hplain.
  destruct (isEmpty text || isBlank pattern); [exact Hplain|].
  destruct (RegExp_new pattern (InputPanel.dedupe [] (flags ++ js "dg")))
    as [re|] eqn:Hre; [|exact Hplain].
  specialize (Hord re eq_refl).
  unfold String_matchAll.
  destruct (hasFlag 103 (InputPanel.dedupe [] (flags ++ js "dg")));
    [|exact Hplain].
  destruct (RegExp_execAll re text) as [|m ms] eqn:Hms; [exact Hplain|].
  pose proof (@highlightLoop_invariant text (m :: ms) 0 0 [] (Nat.le_0_l _)
                eq_refl Hord) as Hinv.
  destruct (InputPanel.highlightLoop text 0 (m :: ms) (0%nat, []))
    as [lastIndex parts].
  destruct Hinv as [Hl Hc].
  destruct (lastIndex <? length text)%nat eqn:Hlt;
    cbn [InputPanel.highlightedContent].
  - rewrite map_app, concat_app, Hc. cbn. rewrite app_nil_r.
    apply firstn_skipn.
  - apply Nat.ltb_ge in Hlt. rewrite Hc. apply firstn_all2. exact Hlt.
Qed.

(** With the engine as host, the parts of the preview of a pattern
    without lookahead, put end to end, are the text. *)
Lemma preview_reconstructs_noLook (method : ExtractionMethod)
      (text pattern flags : jsstring) :
  (forall re, compile pattern (InputPanel.dedupe [] (flags ++ js "dg")) = POk re ->
              noLook (re_ast re) = true) ->
  concat (map InputPanel.partText
            (InputPanel.highlightedContent
               (InputPanel.preview (host := engine) method text pattern flags)))
  = text.
Proof.
  intros Hno. apply preview_reconstructs. intros re Hre.
  cbn [RegExp_new engine] in Hre.
  destruct (compile pattern (InputPanel.dedupe [] (flags ++ js "dg")))
    as [re'| |] eqn:Hc; try discriminate.
  injection Hre as ->.
  cbn [RegExp_execAll engine]. unfold execAll.
  apply execAllFrom_ordered; [now apply Hno| |lia].
  unfold compile in Hc.
  destruct (parseFlags (InputPanel.dedupe [] (flags ++ js "dg")));
    try discriminate.
  cbn [pbind] in Hc.
  destruct (parseDisjunction (4 * length pattern + 8) pattern 0)
    as [[[r rest] n]| |]; try discriminate.
  cbn [pbind] in Hc. destruct rest; [|discriminate].
  injection Hc as <-. cbn [re_hasIndices].
  rewrite hasFlag_dedupe. unfold hasFlag at 1. rewrite existsb_app.
  cbn. now rewrite orb_true_r.
Qed.

(** The bold preset on scenario B. *)
Lemma preview_reconstructs_bold :
  concat (map InputPanel.partText
            (InputPanel.highlightedContent
               (InputPanel.preview (host := engine) regex scenarioB boldPattern
                                   (js "g")))) = scenarioB.
Proof.
  apply preview_reconstructs_noLook. intros re Hre.
  vm_compute in Hre. injection Hre as <-. reflexivity.
Qed.

(** C2, run of the code at the failing input. With the pattern
    [(?=(aa))a] the first group lies in a lookahead: on "aaa" the two
    matches have the group spans 0..2 and 1..3, which overlap, and the
    preview holds the two highlighted parts "aa" and "aa": put end to end
    they give "aaaa", not the text. *)
Theorem C2_preview_overlap :
  let text := js "aaa" in
  let p := InputPanel.preview (host := engine) regex text (js "(?=(aa))a")
                              (js "g") in
  InputPanel.highlightedContent p
  = [InputPanel.Highlight 0 (js "aa"); InputPanel.Highlight 1 (js "aa")]
  /\ InputPanel.matchCount p = 2%nat
  /\ InputPanel.error p = None
  /\ concat (map InputPanel.partText (InputPanel.highlightedContent p))
     = js "aaaa"
  /\ concat (map InputPanel.partText (InputPanel.highlightedContent p))
     <> text.
Proof.
  cbv zeta. repeat split; try (vm_compute; reflexivity).
  vm_compute. discriminate.
Qed.

End PanelFacts.

Module OutputFacts.
Import JS JSFacts Examples PanelExamples AppFacts.
Import OutputPanel.

(** ** The verdict on CSV *)

Lemma csvLineFails_spec (line : jsstring) :
  csvLineFails line = true <-> ~ csvWellShaped line.
Proof.
  unfold csvLineFails, csvWellShaped.
  destruct (startsWith [DQ] line), (endsWith [DQ] line); cbn [negb orb];
    try (split; [intros _ (H1 & H2 & _); discriminate|reflexivity]).
  rewrite negb_true_iff, Nat.eqb_neq. tauto.
Qed.

Lemma csvLineFails_false (line : jsstring) :
  csvLineFails line = false <-> csvWellShaped line.
Proof.
  unfold csvLineFails, csvWellShaped.
  destruct (startsWith [DQ] line), (endsWith [DQ] line); cbn [negb orb];
    try (split; [discriminate|intros (H1 & H2 & _); discriminate]).
  rewrite negb_false_iff, Nat.eqb_eq. tauto.
Qed.

Lemma validate_csv_status (JSON_parses : jsstring -> bool) (text : jsstring) :
  status (validate JSON_parses text csv)
  = if existsb csvLineFails (nonBlankLines text) then warning else valid.
Proof.
  unfold validate.
  destruct (nonBlankLines text) as [|l ls]; [reflexivity|].
  cbn [length Nat.ltb Nat.leb andb].
  now destruct (existsb csvLineFails (l :: ls)).
Qed.

(** C6 (as amended). For a text validated as CSV the verdict is [warning]
    exactly when one of its lines, taken from the trimmed text and not
    blank, does not have the shape: it starts with a double quote, ends
    with one and splits in exactly two on the delimiter made of a double
    quote, a comma and a double quote.  The verdict is [valid] otherwise,
    in particular when no line is left.  The lines are the pieces of the
    trimmed text between its line feeds, that is the lines of the text
    without the white space before its first character and after its
    last: joined by line feeds they give the trimmed text back, and none
    contains a line feed.  So a well-shaped row followed by a space gets
    [valid], though the line as it stands does not end with a double
    quote.  The text of scenario D gets [warning]. *)
Theorem C6_csv_verdict (JSON_parses : jsstring -> bool) (text : jsstring) :
  (status (validate JSON_parses text csv) = warning
   <-> exists line, In line (nonBlankLines text) /\ ~ csvWellShaped line)
  /\ (status (validate JSON_parses text csv) = valid
      <-> forall line, In line (nonBlankLines text) -> csvWellShaped line)
  /\ (nonBlankLines text = [] -> status (validate JSON_parses text csv) = valid)
  /\ (forall line, In line (nonBlankLines text)
                   <-> In line (split [NL] (trim text)) /\ isBlank line = false)
  /\ join [NL] (split [NL] (trim text)) = trim text
  /\ Forall (fun line => ~ In NL line) (nonBlankLines text)
  /\ nonBlankLines text = statedLines (trim text)
  /\ (nonBlankLines spacedRow = [trim spacedRow]
      /\ statedLines spacedRow = [spacedRow]
      /\ ~ csvWellShaped spacedRow
      /\ status (validate JSON_parses spacedRow csv) = valid)
  /\ status (validate JSON_parses scenarioD csv) = warning.
Proof.
  rewrite validate_csv_status.
  split; [|split; [|split; [|split; [|split; [|split; [|split; [|split]]]]]]].
  - destruct (existsb csvLineFails (nonBlankLines text)) eqn:E.
    + split; [intros _|reflexivity].
      apply existsb_exists in E as (line & Hin & Hf).
      exists line. split; [exact Hin|now apply csvLineFails_spec].
    + split; [discriminate|]. intros (line & Hin & Hf). exfalso.
      apply csvLineFails_spec in Hf.
      assert (Hex : existsb csvLineFails (nonBlankLines text) = true)
        by (apply existsb_exists; now exists line).
      congruence.
  - destruct (existsb csvLineFails (nonBlankLines text)) eqn:E.
    + split; [discriminate|]. intros Hall. exfalso.
      apply existsb_exists in E as (line & Hin & Hf).
      apply csvLineFails_spec in Hf. apply Hf, Hall, Hin.
    + split; [intros _|reflexivity]. intros line Hin.
      apply csvLineFails_false.
      destruct (csvLineFails line) eqn:Hf; [|reflexivity]. exfalso.
      assert (Hex : existsb csvLineFails (nonBlankLines text) = true)
        by (apply existsb_exists; now exists line).
      congruence.
  - now intros ->.
  - intros line. unfold nonBlankLines. rewrite filter_In, negb_true_iff. tauto.
  - apply join_split. discriminate.
  - unfold nonBlankLines. apply Forall_forall. intros line Hin.
    apply filter_In in Hin as [Hin _].
    pose proof (split_no_sep NL (trim text)) as Hall.
    rewrite Forall_forall in Hall. now apply Hall.
  - reflexivity.
  - split; [vm_compute; reflexivity|]. split; [vm_compute; reflexivity|].
    split; [|rewrite validate_csv_status; vm_compute; reflexivity].
    intros (_ & He & _). vm_compute in He. discriminate.
  - rewrite validate_csv_status. vm_compute. reflexivity.
Qed.

(** C6, counterexample to the statement of the specification: the output
    made of a well-shaped row followed by a space has one non-blank line,
    which does not end with a double quote, yet the verdict is [valid]:
    the output is trimmed before it is cut into lines. *)
Lemma C6_counterexample : ~ C6_stated (fun _ => false) spacedRow.
Proof.
  intros [_ H].
  assert (Hw : status (validate (fun _ => false) spacedRow csv) = warning).
  { apply H. exists spacedRow. split; [vm_compute; now left|].
    intros (_ & He & _). vm_compute in He. discriminate. }
  vm_compute in Hw. discriminate.
Qed.

(** ** The validation effect *)

Section Effect.
Variable JSON_parses : jsstring -> bool.

(** Running the effect again on the same props changes nothing and
    computes nothing: it makes no difference whether the effect runs at
    every render or when one of its dependencies has changed. *)
Lemma validationEffect_idempotent (props : Props) (panel : Panel) :
  validationEffect JSON_parses props (fst (validationEffect JSON_parses props panel))
  = (fst (validationEffect JSON_parses props panel), None).
Proof.
  unfold validationEffect.
  destruct (prevIsLoadingRef panel), (isLoading props),
    (isEmpty (outputText props)); reflexivity.
Qed.

Lemma runEffects_app (a b : list Props) (panel : Panel) :
  runEffects JSON_parses (a ++ b) panel
  = (fst (runEffects JSON_parses b (fst (runEffects JSON_parses a panel))),
     snd (runEffects JSON_parses a panel)
     ++ snd (runEffects JSON_parses b (fst (runEffects JSON_parses a panel)))).
Proof.
  revert panel; induction a as [|p a IH]; intros panel.
  - cbn. now destruct (runEffects JSON_parses b panel).
  - cbn [app runEffects].
    destruct (validationEffect JSON_parses p panel) as [p1 v].
    rewrite IH.
    destruct (runEffects JSON_parses a p1) as [p2 vs]. cbn [fst snd].
    destruct (runEffects JSON_parses b p2) as [p3 ws]. cbn [fst snd].
    now destruct v.
Qed.

(** While the generation is in progress the verdict is [idle] and nothing
    is validated. *)
Lemma runEffects_loading (renders : list Props) (panel : Panel) :
  Forall (fun p => isLoading p = true) renders ->
  renders <> [] ->
  runEffects JSON_parses renders panel = (mkPanel idleState true, []).
Proof.
  revert panel; induction renders as [|p rs IH]; intros panel Hall Hne;
    [congruence|].
  inversion Hall as [|? ? Hp Hrs]; subst.
  cbn [runEffects]. unfold validationEffect at 1.
  rewrite Hp. rewrite andb_false_r. cbn [andb]. rewrite orb_true_r.
  destruct rs as [|r rs'].
  - reflexivity.
  - rewrite IH by (auto; discriminate). reflexivity.
Qed.
End Effect.

Lemma validationEffect_quiet (JSON_parses : jsstring -> bool) (props : Props)
      (panel : Panel) :
  prevIsLoadingRef panel = false -> isLoading props = false ->
  snd (validationEffect JSON_parses props panel) = None
  /\ prevIsLoadingRef (fst (validationEffect JSON_parses props panel)) = false.
Proof.
  intros Hp Hl. unfold validationEffect. rewrite Hp, Hl.
  cbn [andb negb]. rewrite orb_false_r.
  now destruct (isEmpty (outputText props)).
Qed.

Lemma runEffects_not_loading (JSON_parses : jsstring -> bool)
      (renders : list Props) (panel : Panel) :
  prevIsLoadingRef panel = false ->
  Forall (fun p => isLoading p = false) renders ->
  snd (runEffects JSON_parses renders panel) = []
  /\ prevIsLoadingRef (fst (runEffects JSON_parses renders panel)) = false.
Proof.
  revert panel; induction renders as [|p rs IH]; intros panel Hp Hall;
    [now split|].
  inversion Hall as [|? ? Hl Hrs]; subst.
  cbn [runEffects].
  destruct (validationEffect_quiet JSON_parses p panel Hp Hl) as [Hv Hr].
  destruct (validationEffect JSON_parses p panel) as [p1 v].
  cbn [fst snd] in Hv, Hr. subst v.
  destruct (IH p1 Hr Hrs) as [H1 H2].
  destruct (runEffects JSON_parses rs p1). cbn [fst snd] in *. now split.
Qed.

Lemma validationEffect_ref (JSON_parses : jsstring -> bool) (props : Props)
      (panel : Panel) :
  prevIsLoadingRef (fst (validationEffect JSON_parses props panel))
  = isLoading props.
Proof.
  unfold validationEffect.
  destruct (prevIsLoadingRef panel && negb (isLoading props)
            && negb (isEmpty (outputText props))); [reflexivity|].
  destruct (isEmpty (outputText props) || isLoading props); reflexivity.
Qed.

Lemma consume_loading (fragments : list jsstring) (st : App.State) :
  App.isLoading st = true ->
  Forall (fun p => isLoading p = true) (map propsOf (App.consume fragments st)).
Proof.
  revert st; induction fragments as [|c fs IH]; intros st H; cbn;
    constructor; [exact H|]. now apply IH.
Qed.

(** C7. Over the renders of one generation the validation is computed
    exactly once when the accumulated output is not empty, and not at all
    when it is: it is computed by the effect of the last render, the one
    where loading goes from true to false, on the whole output, and the
    renders that follow while nothing is loading compute none.  An effect
    computes a validation only on such a transition and with a non-empty
    output.  The verdict is [idle] after the first render of the
    generation, where the output has been cleared, and after every effect
    that sees an empty output or a generation in progress. *)
Theorem C7_validation_once (host : RegExp.Host)
        (JSON_parses : jsstring -> bool) (onLine : bool)
        (provider : GeminiService.Provider) (st : App.State)
        (processed : jsstring) (panel : Panel) :
  snd (App.prepare onLine st) = Some processed ->
  let renders := map propsOf (App.handleGenerate onLine provider st) in
  let final := last renders (propsOf st) in
  isLoading final = false
  /\ snd (runEffects JSON_parses renders panel)
     = (if isEmpty (outputText final) then []
        else [(outputText final, outputFormat final)])
  /\ validation (fst (runEffects JSON_parses renders panel))
     = (if isEmpty (outputText final) then idleState
        else validate JSON_parses (outputText final) (outputFormat final))
  /\ (exists first rest,
        renders = first :: rest
        /\ outputText first = [] /\ isLoading first = true
        /\ validation (fst (validationEffect JSON_parses first panel))
           = idleState)
  /\ (forall later,
        Forall (fun p => isLoading p = false) later ->
        snd (runEffects JSON_parses (renders ++ later) panel)
        = snd (runEffects JSON_parses renders panel))
  /\ (forall props pnl,
        isEmpty (outputText props) || isLoading props = true ->
        validation (fst (validationEffect JSON_parses props pnl)) = idleState)
  /\ (forall props pnl v,
        snd (validationEffect JSON_parses props pnl) = Some v ->
        prevIsLoadingRef pnl = true /\ isLoading props = false
        /\ outputText props <> [] /\ v = (outputText props, outputFormat props)).
Proof.
  intros Hstart renders final.
  assert (Hreset : forall props pnl,
            isEmpty (outputText props) || isLoading props = true ->
            validation (fst (validationEffect JSON_parses props pnl)) = idleState).
  { intros props pnl H. unfold validationEffect.
    destruct (isLoading props), (isEmpty (outputText props)),
      (prevIsLoadingRef pnl); try discriminate; reflexivity. }
  pose proof (prepare_frame host onLine st) as Hf.
  subst final renders. unfold App.handleGenerate.
  destruct (App.prepare onLine st) as [st1 [p|]]; [|discriminate].
  destruct Hf as (Hout & Hload & _).
  destruct (GeminiService.generateFlashcardsStream provider p (App.options st))
    as [fragments thrown].
  set (streamed := App.consume fragments st1).
  set (st3 := match thrown with
              | Some message =>
                  App.setError (Some (App.getFriendlyErrorMessage message))
                               (last streamed st1)
              | None => last streamed st1
              end).
  set (done := propsOf (App.setIsLoading false st3)).
  assert (Hlast : last (map propsOf (st1 :: streamed ++ [App.setIsLoading false st3]))
                       (propsOf st) = done).
  { change (st1 :: streamed ++ [App.setIsLoading false st3])
      with ((st1 :: streamed) ++ [App.setIsLoading false st3]).
    rewrite map_app. apply last_last. }
  rewrite Hlast.
  assert (Hrun : runEffects JSON_parses
                   (map propsOf (st1 :: streamed ++ [App.setIsLoading false st3])) panel
                 = runEffects JSON_parses [done] (mkPanel idleState true)).
  { change (st1 :: streamed ++ [App.setIsLoading false st3])
      with ((st1 :: streamed) ++ [App.setIsLoading false st3]).
    rewrite map_app, runEffects_app.
    rewrite (@runEffects_loading JSON_parses (map propsOf (st1 :: streamed)) panel).
    - cbn [fst snd app map]. fold done.
      now destruct (runEffects JSON_parses [done] (mkPanel idleState true)).
    - cbn [map]. constructor; [exact Hload|].
      now apply consume_loading.
    - discriminate. }
  pose proof Hrun as Hrun0. rewrite Hrun.
  assert (Hdone : isLoading done = false) by reflexivity.
  split; [exact Hdone|].
  split; [|split; [|split; [|split; [|split]]]].
  - cbn [runEffects]. unfold validationEffect. rewrite Hdone.
    cbn [prevIsLoadingRef negb andb orb].
    destruct (isEmpty (outputText done)); reflexivity.
  - cbn [runEffects]. unfold validationEffect. rewrite Hdone.
    cbn [prevIsLoadingRef negb andb orb].
    destruct (isEmpty (outputText done)); reflexivity.
  - exists (propsOf st1), (map propsOf (streamed ++ [App.setIsLoading false st3])).
    repeat split; [exact Hout|exact Hload|].
    apply Hreset. unfold propsOf at 2. cbn [isLoading]. rewrite Hload.
    apply orb_true_r.
  - intros later Hlater.
    rewrite runEffects_app. cbn [snd]. rewrite Hrun0.
    destruct (@runEffects_not_loading JSON_parses later
                (fst (runEffects JSON_parses [done] (mkPanel idleState true))))
      as [Hnone _]; [|exact Hlater|].
    + cbn [runEffects fst].
      destruct (validationEffect JSON_parses done (mkPanel idleState true))
        as [p1 v] eqn:E.
      cbn [fst]. change p1 with (fst (p1, v)). rewrite <- E.
      apply validationEffect_ref.
    + rewrite Hnone. apply app_nil_r.
  - exact Hreset.
  - intros props pnl v. unfold validationEffect.
    destruct (prevIsLoadingRef pnl), (isLoading props),
      (outputText props) as [|c t]; cbn; try discriminate.
    intros [= <-]. repeat split. discriminate.
Qed.

(** C7 on a generation that receives two fragments. *)
Lemma C7_witness :
  let st := stateWith none (js "notes") [] (js "g") in
  snd (runEffects (fun _ => false)
         (map propsOf (App.handleGenerate (host := RegExp.engine) true
                                           twoFragments st))
         mounted)
  = [(js "abc", tsv)].
Proof.
  intros st.
  destruct (@C7_validation_once RegExp.engine (fun _ => false) true twoFragments
              st (js "notes") mounted eq_refl) as (_ & H & _).
  rewrite H. vm_compute. reflexivity.
Defined.

End OutputFacts.

(* ===================================================================== *)
(** * Facts about the course of a generation *)
(* ===================================================================== *)

Module FlowFacts.
Import JS JSFacts RegExp Examples FlowDefs Controls.
Import Markers AutoSplit.

(** ** The stream *)

Lemma last_cons_default (A : Type) (l : list A) (a d : A) :
  last (a :: l) d = last l a.
Proof.
  revert a d; induction l as [|b l IH]; intros a d; [reflexivity|].
  change (last (a :: b :: l) d) with (last (b :: l) d).
  rewrite IH. symmetry. apply IH.
Qed.

Lemma consume_last (fragments : list jsstring) (st : App.State) :
  App.outputText (last (App.consume fragments st) st)
  = App.outputText st ++ concat fragments
  /\ App.isLoading (last (App.consume fragments st) st) = App.isLoading st
  /\ App.error (last (App.consume fragments st) st) = App.error st
  /\ App.inputText (last (App.consume fragments st) st) = App.inputText st.
Proof.
  revert st; induction fragments as [|c fs IH]; intros st.
  - cbn. now rewrite app_nil_r.
  - cbn [App.consume].
    set (st' := App.setOutputText (App.outputText st ++ c) st).
    assert (Hl : last (st' :: App.consume fs st') st
                 = last (App.consume fs st') st')
      by apply last_cons_default.
    rewrite Hl. destruct (IH st') as (H1 & H2 & H3 & H4).
    rewrite H1, H2, H3, H4. unfold st'. cbn.
    now rewrite <- app_assoc.
Qed.

Lemma consume_prefix (fragments : list jsstring) (st : App.State) :
  Forall (fun s => exists rest,
            App.outputText (last (App.consume fragments st) st)
            = App.outputText s ++ rest)
         (st :: App.consume fragments st).
Proof.
  apply Forall_forall. intros s Hs.
  assert (Hgen : forall fs st0 s0, In s0 (st0 :: App.consume fs st0) ->
            exists pre post, fs = pre ++ post
              /\ App.outputText s0 = App.outputText st0 ++ concat pre).
  { induction fs as [|c fs IH]; intros st0 s0 Hin.
    - destruct Hin as [<- | []]. exists [], []. cbn. now rewrite app_nil_r.
    - destruct Hin as [<- | Hin].
      + exists [], (c :: fs). cbn. now rewrite app_nil_r.
      + cbn [App.consume] in Hin.
        destruct (IH _ _ Hin) as (pre & post & -> & Ho).
        exists (c :: pre), post. split; [reflexivity|].
        rewrite Ho. cbn. now rewrite <- app_assoc. }
  destruct (Hgen _ _ _ Hs) as (pre & post & Hf & Ho).
  destruct (consume_last fragments st) as (Hl & _).
  exists (concat post). rewrite Hl, Ho, Hf, concat_app.
  now rewrite <- app_assoc.
Qed.

Lemma fragments_concat (chunks : list (option jsstring)) :
  concat (flat_map (fun chunk => match GeminiService.truthy chunk with
                                 | Some text => [text]
                                 | None => []
                                 end) chunks)
  = concat (map chunkText chunks).
Proof.
  induction chunks as [|[[|c t]|] cs IH]; cbn; rewrite ?IH; reflexivity.
Qed.

(** When generation starts, online, the input is not blank and the error
    is cleared. *)
Lemma prepare_started (host : Host) (onLine : bool) (st : App.State)
      (processed : jsstring) :
  snd (App.prepare onLine st) = Some processed ->
  onLine = true /\ isBlank (App.inputText st) = false
  /\ isBlank processed = false
  /\ fst (App.prepare onLine st)
     = App.setOutputText [] (App.setIsLoading true (App.setError None st)).
Proof.
  unfold App.prepare. destruct onLine; [|discriminate]. cbn [negb].
  destruct (isBlank (App.inputText st)) eqn:Hb; [discriminate|].
  destruct (App.extract st) as [p notice|msg] eqn:Hx; [|discriminate].
  destruct (isBlank p) eqn:Hp; [discriminate|].
  cbn [snd fst]. intros [= <-].
  repeat split; auto.
  destruct notice as [n|]; [|reflexivity]. exfalso.
  unfold App.extract in Hx.
  destruct (App.extractionMethod st).
  - discriminate.
  - destruct (App.autoMatches (App.inputText st)) eqn:E; [|discriminate].
    apply autoMatches_nil in E. congruence.
  - destruct (negb (isBlank (App.regexPattern st))); [|discriminate].
    destruct (RegExp_new (App.regexPattern st) (App.regexFlags st));
      [|discriminate].
    destruct (String_matchAll r (App.regexFlags st) (App.inputText st))
      as [[|]|]; discriminate.
  - discriminate.
  - destruct (isBlank (App.questionList st)); discriminate.
Qed.

(** What the generator yields and throws, in terms of the response. *)
Lemma stream_of_response (provider : GeminiService.Provider)
      (userInput : jsstring) (options : GeminiService.GenerationOptions) :
  let response := GeminiService.respond provider userInput options in
  let stream := GeminiService.generateFlashcardsStream provider userInput
                  options in
  concat (fst stream) = concat (map chunkText (GeminiService.chunks response))
  /\ snd stream
     = option_map GeminiService.mapFailure (GeminiService.failure response).
Proof.
  cbn zeta. unfold GeminiService.generateFlashcardsStream. cbn [fst snd].
  split; [apply fragments_concat | reflexivity].
Qed.

(** The run of [handleGenerate] once generation has started, in terms of
    what the generator yields and throws. *)
Lemma handleGenerate_started (host : Host) (onLine : bool)
        (provider : GeminiService.Provider) (st : App.State)
        (processed : jsstring) :
  snd (App.prepare onLine st) = Some processed ->
  let stream := GeminiService.generateFlashcardsStream provider processed
                  (App.options st) in
  let states := App.handleGenerate onLine provider st in
  let final := last states st in
  App.outputText final = concat (fst stream)
  /\ Forall (fun s => exists rest,
               App.outputText final = App.outputText s ++ rest) states
  /\ App.isLoading final = false
  /\ App.error final = option_map App.getFriendlyErrorMessage (snd stream).
Proof.
  intros Hstart stream states final.
  destruct (@prepare_started host onLine st processed Hstart)
    as (_ & _ & _ & Hst1).
  subst final states. unfold App.handleGenerate.
  destruct (App.prepare onLine st) as [st1 [p|]] eqn:Hp; [|discriminate].
  cbn [snd fst] in Hstart, Hst1. injection Hstart as ->.
  fold stream. destruct stream as [fragments thrown]. cbn [fst snd].
  set (streamed := App.consume fragments st1).
  set (st2 := last streamed st1).
  destruct (consume_last fragments st1) as (Hout & Hload & Herr & _).
  fold streamed in Hout, Hload, Herr. fold st2 in Hout, Hload, Herr.
  assert (Hout1 : App.outputText st1 = []) by (rewrite Hst1; reflexivity).
  assert (Herr1 : App.error st1 = None) by (rewrite Hst1; reflexivity).
  rewrite Hout1 in Hout. cbn [app] in Hout. rewrite Herr1 in Herr.
  set (st3 := match thrown with
              | Some message =>
                  App.setError (Some (App.getFriendlyErrorMessage message)) st2
              | None => st2
              end).
  assert (Hlast : last (st1 :: streamed ++ [App.setIsLoading false st3]) st
                  = App.setIsLoading false st3).
  { change (st1 :: streamed ++ [App.setIsLoading false st3])
      with ((st1 :: streamed) ++ [App.setIsLoading false st3]).
    apply last_last. }
  rewrite Hlast.
  assert (H23 : App.outputText (App.setIsLoading false st3)
                = App.outputText st2)
    by (cbn; unfold st3; now destruct thrown).
  split; [now rewrite H23|]. split; [|split; [reflexivity|]].
  - pose proof (consume_prefix fragments st1) as Hpre.
    fold streamed in Hpre. fold st2 in Hpre.
    rewrite H23.
    change (st1 :: streamed ++ [App.setIsLoading false st3])
      with ((st1 :: streamed) ++ [App.setIsLoading false st3]).
    apply Forall_app. split; [exact Hpre|].
    constructor; [|constructor]. exists []. rewrite H23.
    now rewrite app_nil_r.
  - cbn. unfold st3. destruct thrown; [reflexivity|exact Herr].
Qed.

(** X1. When generation starts, the output in the state [handleGenerate]
    returns in is the texts of all the chunks of the response, in the
    order of arrival, end to end: a chunk without text or with an empty
    text adds nothing and nothing else is lost.  The output of every state
    committed on the way is a beginning of it, the loading flag is false at
    the end, no error is set when the stream ends normally, and the
    message of the kind of the failure is set when it fails. *)
Theorem X1_stream_accumulates (host : Host) (onLine : bool)
        (provider : GeminiService.Provider) (st : App.State)
        (processed : jsstring) :
  snd (App.prepare onLine st) = Some processed ->
  let response := GeminiService.respond provider processed (App.options st) in
  let states := App.handleGenerate onLine provider st in
  let final := last states st in
  App.outputText final
  = concat (map chunkText (GeminiService.chunks response))
  /\ Forall (fun s => exists rest,
               App.outputText final = App.outputText s ++ rest) states
  /\ App.isLoading final = false
  /\ (GeminiService.failure response = None -> App.error final = None)
  /\ (forall raw, GeminiService.failure response = Some raw ->
      App.error final
      = Some (App.getFriendlyErrorMessage (GeminiService.mapFailure raw))).
Proof.
  intros Hstart response states final.
  destruct (@handleGenerate_started host onLine provider st processed Hstart)
    as (Hout & Hpre & Hload & Herr).
  destruct (stream_of_response provider processed (App.options st))
    as (Hchunks & Hthrown).
  fold states in Hout, Hpre, Hload, Herr. fold final in Hout, Hpre, Hload, Herr.
  fold response in Hchunks, Hthrown.
  rewrite Hchunks in Hout. rewrite Hthrown in Herr.
  split; [exact Hout|]. split; [exact Hpre|]. split; [exact Hload|].
  split.
  - intros Hnone. now rewrite Herr, Hnone.
  - intros raw Hraw. now rewrite Herr, Hraw.
Qed.

(** X1 on a response of three chunks that ends with a failure. *)
Lemma X1_witness :
  let st := stateWith none (js "notes") [] (js "g") in
  App.outputText
    (last (App.handleGenerate (host := engine) true quotaProvider st) st)
  = js "abc".
Proof.
  intros st.
  destruct (@X1_stream_accumulates engine true quotaProvider st (js "notes")
              eq_refl) as (H & _).
  rewrite H. reflexivity.
Defined.

Lemma extract_abort (host : Host) (st : App.State) (message : jsstring) :
  App.extract st = App.Abort message ->
  In message [App.msgNoMatches; App.msgInvalidRegex; App.msgNoQuestions].
Proof.
  unfold App.extract.
  destruct (App.extractionMethod st); try discriminate.
  - destruct (App.autoMatches (App.inputText st)); discriminate.
  - destruct (negb (isBlank (App.regexPattern st))); [|discriminate].
    destruct (RegExp_new (App.regexPattern st) (App.regexFlags st)).
    + destruct (String_matchAll r (App.regexFlags st) (App.inputText st))
        as [[|]|]; try discriminate; intros [= <-]; cbn; auto.
    + intros [= <-]; cbn; auto.
  - destruct (isBlank (App.questionList st)); [|discriminate].
    intros [= <-]; cbn; auto.
Qed.

(** A request that is turned down gets one of the six messages. *)
Lemma prepare_rejected (host : Host) (onLine : bool) (st : App.State) :
  snd (App.prepare onLine st) = None ->
  exists message,
    App.error (fst (App.prepare onLine st)) = Some message
    /\ In message rejectionMessages.
Proof.
  unfold App.prepare. destruct onLine; cbn [negb].
  2:{ intros _. exists App.msgOffline. split; [reflexivity|]. cbn; auto. }
  destruct (isBlank (App.inputText st)) eqn:Hb.
  { intros _. exists App.msgNoInput. split; [reflexivity|]. cbn; auto. }
  destruct (App.extract st) as [p notice|message] eqn:Hx.
  - destruct (isBlank p); [|discriminate]. intros _.
    exists App.msgEmptyAfterExtraction. split; [reflexivity|].
    cbn; auto 10.
  - intros _. exists message. split; [reflexivity|].
    apply extract_abort in Hx. cbn in Hx |- *. intuition.
Qed.

(** X2. Whatever the request, the provider and its failure, the error in
    the state [handleGenerate] returns in is absent or one of ten fixed
    texts: the six with which a request is turned down and the four that
    stand for the kinds of failure of a generation; a text received from
    the provider is never shown.  A request that is turned down always
    gets one of the six, and the notice on the absence of markers in auto
    mode is not among the ten: it is never what the user is left with. *)
Theorem X2_error_is_a_fixed_text (host : Host) (onLine : bool)
        (provider : GeminiService.Provider) (st : App.State) :
  let final := last (App.handleGenerate onLine provider st) st in
  (App.error final = None
   \/ exists message, App.error final = Some message
                      /\ In message (rejectionMessages ++ friendlyMessages))
  /\ (snd (App.prepare onLine st) = None ->
      exists message, App.error final = Some message
                      /\ In message rejectionMessages)
  /\ App.error final <> Some App.msgAutoNoMarkers
  /\ ~ In App.msgAutoNoMarkers (rejectionMessages ++ friendlyMessages).
Proof.
  intros final.
  assert (Hnot : ~ In App.msgAutoNoMarkers
                     (rejectionMessages ++ friendlyMessages)).
  { intros Hin.
    assert (Hb : existsb (jsstring_eqb App.msgAutoNoMarkers)
                   (rejectionMessages ++ friendlyMessages) = false)
      by (vm_compute; reflexivity).
    apply Bool.not_true_iff_false in Hb. apply Hb.
    apply existsb_exists. exists App.msgAutoNoMarkers. split; [exact Hin|].
    now apply GeminiFacts.jsstring_eqb_eq. }
  assert (Hrej : snd (App.prepare onLine st) = None ->
                 exists message, App.error final = Some message
                                 /\ In message rejectionMessages).
  { intros Hn. destruct (@prepare_rejected host onLine st Hn) as (m & Hm & Hin).
    exists m. split; [|exact Hin].
    subst final. unfold App.handleGenerate.
    destruct (App.prepare onLine st) as [st1 [p|]]; [discriminate|].
    exact Hm. }
  assert (Hcases : App.error final = None
    \/ exists message, App.error final = Some message
                       /\ In message (rejectionMessages ++ friendlyMessages)).
  { destruct (snd (App.prepare onLine st)) as [processed|] eqn:Hs.
    - destruct (@handleGenerate_started host onLine provider st processed Hs)
        as (_ & _ & _ & Herr).
      fold final in Herr.
      rewrite (proj2 (stream_of_response provider processed (App.options st)))
        in Herr.
      destruct (GeminiService.failure
                  (GeminiService.respond provider processed (App.options st)))
        as [raw|] eqn:Hf.
      + right. eexists. split; [exact Herr|].
        apply in_or_app. right.
        unfold friendlyMessages, App.getFriendlyErrorMessage.
        destruct raw as [message|]; cbn [GeminiService.mapFailure].
        * destruct (includes (js "API key not valid") message);
            [vm_compute; auto|].
          destruct (includes (js "RESOURCE_EXHAUSTED") message
                    || includes (js "rate limit") message);
            [vm_compute; auto|].
          destruct (includes (js "candidate") message
                    && includes (js "was blocked") message);
            vm_compute; auto.
        * vm_compute; auto.
      + left. exact Herr.
    - right. destruct (Hrej eq_refl) as (m & Hm & Hin).
      exists m. split; [exact Hm|]. apply in_or_app. now left. }
  split; [exact Hcases|]. split; [exact Hrej|]. split; [|exact Hnot].
  intros He. destruct Hcases as [Hn | (m & Hm & Hin)]; [congruence|].
  rewrite He in Hm. injection Hm as <-. now apply Hnot.
Qed.

(** ** Regex mode *)

(** The message on an invalid pattern or flags is set in regex mode
    only, when the host rejects the pattern or the flags lack [g]. *)
Lemma prepare_invalidRegex (host : Host) (onLine : bool) (st : App.State) :
  App.error (fst (App.prepare onLine st)) = Some App.msgInvalidRegex ->
  App.extractionMethod st = regex
  /\ (RegExp_new (App.regexPattern st) (App.regexFlags st) = None
      \/ hasFlag 103 (App.regexFlags st) = false).
Proof.
  unfold App.prepare. destruct onLine; cbn [negb];
    [|intros [= H]; vm_compute in H; discriminate].
  destruct (isBlank (App.inputText st)) eqn:Hb;
    [intros [= H]; vm_compute in H; discriminate|].
  destruct (App.extract st) as [p notice|message] eqn:Hx.
  - rewrite (@AppFacts.extract_notice host st p notice Hb Hx).
    destruct (isBlank p); [intros [= H]; vm_compute in H|]; discriminate.
  - cbn. intros [= ->]. revert Hx. unfold App.extract, String_matchAll.
    destruct (App.extractionMethod st); try discriminate.
    + destruct (App.autoMatches (App.inputText st)); discriminate.
    + destruct (negb (isBlank (App.regexPattern st))); [|discriminate].
      destruct (RegExp_new (App.regexPattern st) (App.regexFlags st));
        [|auto].
      destruct (hasFlag 103 (App.regexFlags st)); [|auto].
      destruct (RegExp_execAll r (App.inputText st));
        [intros [= H]; vm_compute in H|]; discriminate.
    + destruct (isBlank (App.questionList st));
        [intros [= H]; vm_compute in H|]; discriminate.
Qed.

(** X3. In regex mode with a pattern that is not blank, on line and on a
    text that is not blank, the request is turned down with the message
    on an invalid pattern or flags exactly when the host rejects the
    pattern with these flags or the flags lack [g]: flags without [g]
    stop the request whatever the pattern matches, since [matchAll]
    refuses an expression that is not global. *)
Theorem X3_flags_without_g (host : Host) (st : App.State) :
  App.extractionMethod st = regex ->
  isBlank (App.regexPattern st) = false ->
  isBlank (App.inputText st) = false ->
  (App.error (fst (App.prepare true st)) = Some App.msgInvalidRegex
   <-> RegExp_new (App.regexPattern st) (App.regexFlags st) = None
       \/ hasFlag 103 (App.regexFlags st) = false)
  /\ (hasFlag 103 (App.regexFlags st) = false ->
      snd (App.prepare true st) = None
      /\ App.outputText (fst (App.prepare true st)) = App.outputText st
      /\ App.isLoading (fst (App.prepare true st)) = App.isLoading st).
Proof.
  intros Hm Hp Hb.
  unfold App.prepare, App.extract, String_matchAll.
  cbn [negb]. rewrite Hb, Hm, Hp. cbn [negb].
  destruct (RegExp_new (App.regexPattern st) (App.regexFlags st)) as [re|].
  - destruct (hasFlag 103 (App.regexFlags st)).
    + split; [|discriminate].
      destruct (RegExp_execAll re (App.inputText st)) as [|m ms].
      * cbn. split; [intros [= H]; vm_compute in H; discriminate|].
        intros [H|H]; discriminate.
      * match goal with |- context [isBlank ?p] => destruct (isBlank p) end;
          cbn; (split; [intros H; try discriminate;
                        injection H as H; vm_compute in H; discriminate
                       |intros [H|H]; discriminate]).
    + cbn. split; [split; auto|]. intros _. repeat split.
  - cbn. split; [split; auto|].
    destruct (hasFlag 103 (App.regexFlags st)); [discriminate|].
    intros _. repeat split.
Qed.

(** X3 on the pattern "a" with the flag [m] alone, on a text it matches. *)
Lemma X3_witness :
  App.error (fst (App.prepare (host := engine) true
                    (stateWith regex (js "a b a") (js "a") (js "m"))))
  = Some App.msgInvalidRegex.
Proof.
  apply (@X3_flags_without_g engine
           (stateWith regex (js "a b a") (js "a") (js "m")));
    [reflexivity | reflexivity | reflexivity |].
  right. reflexivity.
Defined.

Lemma isBlank_join_blank (sep : jsstring) (l : list jsstring) :
  isBlank sep = true -> isBlank (join sep l) = forallb isBlank l.
Proof.
  intros Hsep. induction l as [|x l IH]; [reflexivity|].
  destruct l as [|y l].
  - cbn. now rewrite andb_true_r.
  - rewrite join_cons by discriminate.
    rewrite !isBlank_app, Hsep, IH. reflexivity.
Qed.

(** X4. In regex mode with a pattern that is not blank, on line and on a
    text that is not blank, when the host accepts the pattern with the
    flags and the flags hold [g], what decides is the snippets of the
    matches, not the matches: generation starts exactly when some snippet
    is not blank.  When there are matches and every snippet is blank
    (matches of the empty string, or of white space), the request is
    turned down with the message on an empty text after extraction, and
    nothing else changes.  (With a blank pattern the extraction is
    skipped and none of this applies.) *)
Theorem X4_blank_snippets (host : Host) (st : App.State) (re : regexp) :
  App.extractionMethod st = regex ->
  isBlank (App.regexPattern st) = false ->
  isBlank (App.inputText st) = false ->
  hasFlag 103 (App.regexFlags st) = true ->
  RegExp_new (App.regexPattern st) (App.regexFlags st) = Some re ->
  let snippets := map App.snippet (RegExp_execAll re (App.inputText st)) in
  (snd (App.prepare true st) <> None
   <-> existsb (fun s => negb (isBlank s)) snippets = true)
  /\ (snippets <> [] -> forallb isBlank snippets = true ->
      App.prepare true st
      = (App.setError (Some App.msgEmptyAfterExtraction) st, None)).
Proof.
  intros Hm Hp Hb Hg Hre snippets.
  unfold App.prepare, App.extract, String_matchAll.
  cbn [negb]. rewrite Hb, Hm, Hp, Hre, Hg. cbn [negb].
  subst snippets.
  destruct (RegExp_execAll re (App.inputText st)) as [|m ms] eqn:Hx.
  - cbn. split; [split; [intros H; now elim H | discriminate]|].
    intros H; now elim H.
  - rewrite isBlank_join_blank by reflexivity.
    set (snippets := map App.snippet (m :: ms)).
    assert (Hex : existsb (fun s => negb (isBlank s)) snippets
                  = negb (forallb isBlank snippets)).
    { clear. induction snippets as [|x l IH]; [reflexivity|].
      cbn. rewrite IH. now destruct (isBlank x). }
    rewrite Hex.
    destruct (forallb isBlank snippets); cbn.
    + split; [split; [intros H; now elim H | discriminate]|].
      intros _ _. reflexivity.
    + split; [split; [reflexivity | discriminate]|].
      intros _ H; discriminate.
Qed.

(** X4 on the pattern "x*", which matches the empty string at each of the
    three positions of "ab". *)
Lemma X4_witness :
  App.prepare (host := engine) true
    (stateWith regex (js "ab") (js "x*") (js "g"))
  = (App.setError (Some App.msgEmptyAfterExtraction)
       (stateWith regex (js "ab") (js "x*") (js "g")), None).
Proof.
  refine (proj2 (@X4_blank_snippets engine
                   (stateWith regex (js "ab") (js "x*") (js "g"))
                   (match compile (js "x*") (js "g") with
                    | POk re => re
                    | _ => App.autoRegExp
                    end)
                   eq_refl eq_refl eq_refl eq_refl _) _ _).
  - vm_compute. reflexivity.
  - vm_compute. discriminate.
  - vm_compute. reflexivity.
Defined.

(** ** Auto mode *)

Lemma visible_app (a b : jsstring) : visible (a ++ b) = visible a ++ visible b.
Proof. apply filter_app. Qed.

Lemma visible_blank (s : jsstring) : isBlank s = true -> visible s = [].
Proof.
  rewrite isBlank_forallb. unfold visible.
  induction s as [|c s IH]; [reflexivity|]. cbn.
  destruct (isWhiteSpace c); [cbn; exact IH | discriminate].
Qed.

Lemma visible_join (sep : jsstring) (l : list jsstring) :
  isBlank sep = true -> visible (join sep l) = visible (concat l).
Proof.
  intros Hsep. induction l as [|x l IH]; [reflexivity|].
  destruct l as [|y l].
  - cbn. now rewrite app_nil_r.
  - rewrite join_cons by discriminate.
    change (concat (x :: y :: l)) with (x ++ concat (y :: l)).
    rewrite !visible_app, IH, (visible_blank _ Hsep).
    reflexivity.
Qed.

Lemma visible_concat_filter (l : list jsstring) :
  visible (concat (filter (fun s => negb (isBlank s)) l)) = visible (concat l).
Proof.
  induction l as [|x l IH]; [reflexivity|]. cbn [filter concat].
  destruct (isBlank x) eqn:Hx; cbn [negb concat];
    rewrite !visible_app, ?IH, ?(visible_blank _ Hx); reflexivity.
Qed.

Lemma boundaries_nil (p : nat) (pieces : list jsstring) :
  boundaries p pieces = [] -> (length pieces <= 1)%nat.
Proof.
  destruct pieces as [|a [|b l]]; cbn; [lia | lia | discriminate].
Qed.

(** X5. In auto mode the text handed on differs from the text entered by
    white space only: cutting at the markers, dropping the blank pieces
    and joining the others by a blank line keeps every other character,
    in order.  When no line after the first begins with a marker and the
    text is not blank, the text is handed on as it is. *)
Theorem X5_auto_keeps_the_text (host : Host) (st : App.State) :
  App.extractionMethod st = auto ->
  (exists processed notice,
     App.extract st = App.Proceed processed notice
     /\ visible processed = visible (App.inputText st))
  /\ (isBlank (App.inputText st) = false ->
      unmarked (App.inputText st) = true ->
      App.extract st = App.Proceed (App.inputText st) None
      /\ snd (App.prepare true st) = Some (App.inputText st)).
Proof.
  intros Hm. set (text := App.inputText st).
  assert (Hvis : visible (join [NL; NL] (App.autoMatches text)) = visible text).
  { rewrite visible_join by reflexivity. unfold App.autoMatches.
    now rewrite visible_concat_filter, split_concat. }
  split.
  - unfold App.extract. rewrite Hm. fold text.
    destruct (App.autoMatches text) as [|m ms] eqn:E.
    + now exists text, (Some App.msgAutoNoMarkers).
    + eexists _, None. split; [reflexivity|]. exact Hvis.
  - intros Hb Hun.
    assert (Hpieces : RegExp.split App.autoRegExp text = [text]).
    { pose proof (split_boundaries text) as Hbd.
      pose proof (split_concat text) as Hc.
      assert (Hnil : filter (markerAt text) (seq 1 (length text - 1)) = []).
      { unfold unmarked in Hun. revert Hun. clear.
        induction (seq 1 (length text - 1)) as [|q l IH]; [reflexivity|].
        cbn. destruct (markerAt text q); [discriminate|]. exact IH. }
      rewrite Hnil in Hbd. apply boundaries_nil in Hbd.
      destruct (RegExp.split App.autoRegExp text) as [|a [|b l]] eqn:E.
      - cbn in Hc. subst text. rewrite <- Hc in Hb. discriminate.
      - cbn in Hc. rewrite app_nil_r in Hc. now subst a.
      - cbn in Hbd. lia. }
    assert (Hx : App.extract st = App.Proceed text None).
    { unfold App.extract. rewrite Hm. fold text. unfold App.autoMatches.
      rewrite Hpieces. cbn [filter]. rewrite Hb. reflexivity. }
    split; [exact Hx|].
    unfold App.prepare. cbn [negb]. fold text. rewrite Hb, Hx, Hb.
    reflexivity.
Qed.

(** X5 on a text whose second line begins with a marker and whose third
    is blank: the pieces are joined by a blank line, and nothing but
    white space has changed. *)
Lemma X5_witness :
  let st := stateWith auto (js "intro" ++ [NL] ++ js "Q: a" ++ [NL; NL]
                            ++ js "- b") [] (js "g") in
  exists processed notice,
    App.extract (host := engine) st = App.Proceed processed notice
    /\ visible processed = js "introQ:a-b".
Proof.
  intros st.
  destruct (proj1 (@X5_auto_keeps_the_text engine st eq_refl))
    as (processed & notice & Hx & Hv).
  exists processed, notice. split; [exact Hx|].
  rewrite Hv. reflexivity.
Defined.

(** ** The controls during and after a generation *)

Lemma consume_frame (fragments : list jsstring) (st : App.State) :
  Forall (fun s => App.isLoading s = App.isLoading st
                   /\ App.error s = App.error st
                   /\ App.inputText s = App.inputText st)
         (App.consume fragments st).
Proof.
  revert st; induction fragments as [|c fs IH]; intros st; cbn [App.consume].
  - constructor.
  - constructor; [now cbn|].
    exact (IH (App.setOutputText (App.outputText st ++ c) st)).
Qed.

Lemma friendly_nonempty (message : jsstring) :
  isSet (Some (App.getFriendlyErrorMessage message)) = true.
Proof.
  unfold App.getFriendlyErrorMessage.
  repeat match goal with
         | |- context [if ?b then _ else _] => destruct b
         end; reflexivity.
Qed.

(** X6. From the start of a generation to its end, in every state but the
    last the Generate button, the inputs of the input panel and the Copy
    and Download buttons are disabled.  In the last state the Generate
    button is enabled again and the text entered is what it was.  Copy
    and Download are enabled at the end exactly when some text was
    received and the generation did not fail, and they then give the
    whole output; after a failure the panel shows the error in place of
    the text received so far. *)
Theorem X6_controls_during_generation (host : Host) (onLine : bool)
        (provider : GeminiService.Provider) (st : App.State)
        (processed : jsstring) :
  snd (App.prepare onLine st) = Some processed ->
  let response := GeminiService.respond provider processed (App.options st) in
  let received := concat (map chunkText (GeminiService.chunks response)) in
  let states := App.handleGenerate onLine provider st in
  let final := OutputPanel.propsOf (last states st) in
  Forall (fun s => generateDisabled s = true /\ inputsDisabled s = true
                   /\ exportDisabled (OutputPanel.propsOf s) = true)
         (removelast states)
  /\ generateDisabled (last states st) = false
  /\ App.inputText (last states st) = App.inputText st
  /\ exportDisabled final
     = isEmpty received
       || match GeminiService.failure response with
          | Some _ => true
          | None => false
          end
  /\ (exportDisabled final = false ->
      handleCopy final = Some received
      /\ option_map blobContent (handleDownload final) = Some received
      /\ shown final = TextArea received)
  /\ (GeminiService.failure response <> None ->
      exists message, shown final = ErrorBox message).
Proof.
  intros Hstart response received states final.
  destruct (@handleGenerate_started host onLine provider st processed Hstart)
    as (Hout & _ & Hload & Herr).
  destruct (stream_of_response provider processed (App.options st))
    as (Hchunks & Hthrown).
  rewrite Hchunks in Hout. rewrite Hthrown in Herr.
  fold response in Hout, Herr. fold states in Hout, Hload, Herr.
  fold received in Hout.
  assert (Hok : GeminiService.failure response = None ->
                App.error (last states st) = None)
    by (intros Hn; now rewrite Herr, Hn).
  assert (Hko : forall raw, GeminiService.failure response = Some raw ->
                App.error (last states st)
                = Some (App.getFriendlyErrorMessage
                          (GeminiService.mapFailure raw)))
    by (intros raw Hr; now rewrite Herr, Hr).
  destruct (@prepare_started host onLine st processed Hstart)
    as (_ & Hb & _ & Hst1).
  assert (Hshape : exists st1 streamed stN,
             states = (st1 :: streamed) ++ [stN]
             /\ App.isLoading st1 = true
             /\ App.inputText st1 = App.inputText st
             /\ Forall (fun s => App.isLoading s = App.isLoading st1
                                 /\ App.error s = App.error st1
                                 /\ App.inputText s = App.inputText st1)
                       streamed
             /\ App.inputText stN = App.inputText (last streamed st1)).
  { subst states. unfold App.handleGenerate.
    destruct (App.prepare onLine st) as [st1 [p|]]; [|discriminate].
    cbn [fst] in Hst1.
    destruct (GeminiService.generateFlashcardsStream provider p
                (App.options st)) as [fragments thrown].
    eexists st1, (App.consume fragments st1), _.
    split; [reflexivity|].
    split; [rewrite Hst1; reflexivity|].
    split; [rewrite Hst1; reflexivity|].
    split; [apply consume_frame|].
    destruct thrown; reflexivity. }
  destruct Hshape as (st1 & streamed & stN & Hs & Hl1 & Hi1 & Hfr & HiN).
  assert (Hlast : last states st = stN)
    by (rewrite Hs; apply last_last).
  assert (Hinput : App.inputText stN = App.inputText st).
  { rewrite HiN, <- Hi1.
    destruct streamed as [|a l]; [reflexivity|].
    assert (Hin : In (last (a :: l) st1) (a :: l)).
    { clear. generalize st1. revert a.
      induction l as [|b l IH]; intros a d; [now left|].
      right. exact (IH b d). }
    rewrite Forall_forall in Hfr. now apply Hfr in Hin. }
  assert (Hfinal : final = OutputPanel.propsOf stN)
    by (unfold final; now rewrite Hlast).
  assert (Hexp : exportDisabled final
                 = isEmpty received
                   || match GeminiService.failure response with
                      | Some _ => true
                      | None => false
                      end).
  { unfold exportDisabled, hasOutput. unfold final at 1 2 3.
    cbn [OutputPanel.propsOf OutputPanel.outputText OutputPanel.isLoading
         OutputPanel.error].
    rewrite Hout, Hload.
    destruct (GeminiService.failure response) as [raw|] eqn:Hf.
    - rewrite (Hko raw eq_refl), friendly_nonempty.
      now destruct received.
    - rewrite (Hok eq_refl). now destruct received. }
  split.
  { rewrite Hs, removelast_last. constructor.
    - unfold generateDisabled, inputsDisabled, exportDisabled.
      cbn [OutputPanel.propsOf OutputPanel.isLoading].
      rewrite Hl1. cbn. now rewrite orb_true_r.
    - rewrite Forall_forall in Hfr |- *. intros s Hin.
      destruct (Hfr s Hin) as (Hl & _ & _).
      unfold generateDisabled, inputsDisabled, exportDisabled.
      cbn [OutputPanel.propsOf OutputPanel.isLoading].
      rewrite Hl, Hl1. cbn. now rewrite orb_true_r. }
  split.
  { unfold generateDisabled. rewrite Hload. rewrite Hlast, Hinput, Hb.
    reflexivity. }
  split; [now rewrite Hlast|].
  split; [exact Hexp|].
  split.
  - rewrite Hexp. intros Hen. apply orb_false_iff in Hen.
    destruct Hen as [Hne Hnf].
    destruct (GeminiService.failure response) eqn:Hf; [discriminate|].
    unfold handleCopy, handleDownload, shown. unfold final.
    cbn [OutputPanel.propsOf OutputPanel.outputText OutputPanel.error].
    rewrite Hout, (Hok eq_refl), Hne. repeat split.
  - intros Hf. unfold shown, final.
    cbn [OutputPanel.propsOf OutputPanel.error].
    destruct (GeminiService.failure response) as [raw|]; [|congruence].
    rewrite (Hko raw eq_refl).
    pose proof (friendly_nonempty (GeminiService.mapFailure raw)) as Hne.
    destruct (App.getFriendlyErrorMessage (GeminiService.mapFailure raw));
      [discriminate|]. now eexists.
Qed.

(** X6 on a response of three chunks that fails: the text received is
    not shown and cannot be exported. *)
Lemma X6_witness :
  let st := stateWith none (js "notes") [] (js "g") in
  let final := OutputPanel.propsOf
                 (last (App.handleGenerate (host := engine) true
                          quotaProvider st) st) in
  exportDisabled final = true /\ exists message, shown final = ErrorBox message.
Proof.
  intros st final.
  destruct (@X6_controls_during_generation engine true quotaProvider st
              (js "notes") eq_refl) as (_ & _ & _ & Hexp & _ & Hshown).
  unfold final. split; [rewrite Hexp; vm_compute; reflexivity|].
  apply Hshown. vm_compute. discriminate.
Defined.

(** ** The modes without extraction, and the list of questions *)

(** X7. When the Generate button is enabled and the browser is on line,
    a request in the mode without extraction or in the AI mode is never
    turned down: generation starts on the text exactly as entered, the
    error is cleared and the output emptied.  Off line every request is
    turned down with the message on the connection, whatever the mode. *)
Theorem X7_no_extraction_always_starts (host : Host) (st : App.State) :
  generateDisabled st = false ->
  App.extractionMethod st = none \/ App.extractionMethod st = ai ->
  App.prepare true st
  = (App.setOutputText [] (App.setIsLoading true (App.setError None st)),
     Some (App.inputText st))
  /\ (forall st0 : App.State,
        App.prepare false st0 = (App.setError (Some App.msgOffline) st0, None)).
Proof.
  intros Hg Hm. unfold generateDisabled in Hg.
  apply orb_false_iff in Hg. destruct Hg as [_ Hb].
  split; [|reflexivity].
  unfold App.prepare, App.extract. cbn [negb]. rewrite Hb.
  destruct Hm as [-> | ->]; rewrite Hb; reflexivity.
Qed.

(** X7 in the AI mode. *)
Lemma X7_witness :
  snd (App.prepare (host := engine) true
         (stateWith ai (js " notes ") [] (js "g")))
  = Some (js " notes ").
Proof.
  exact (f_equal snd
           (proj1 (@X7_no_extraction_always_starts engine
                     (stateWith ai (js " notes ") [] (js "g"))
                     eq_refl (or_intror eq_refl)))).
Defined.

Lemma inputUserQuestions_shape (userInput questions : jsstring) :
  exists a b c,
    GeminiService.inputUserQuestions userInput questions
    = a ++ (js "---" ++ [NL] ++ userInput ++ [NL] ++ js "---" ++ b
            ++ js "---" ++ [NL] ++ questions ++ [NL] ++ js "---" ++ c).
Proof.
  exists (firstn 23 (GeminiService.inputUserQuestions [] [])),
         (firstn 25 (skipn 31 (GeminiService.inputUserQuestions [] []))),
         (skipn 64 (GeminiService.inputUserQuestions [] [])).
  vm_compute. reflexivity.
Qed.

(** X8. In the mode of the user's questions, on line and on a text that
    is not blank, generation starts exactly when the list of questions is
    not blank, on the text as entered; a blank list is turned down with
    the message on the missing questions.  When generation starts the
    content sent to the provider is built with the task of the questions
    and holds the text and the list as entered, each between its lines
    of dashes: the fall-back of the prompt on the default task, taken for
    an empty list, is never reached from the application. *)
Theorem X8_questions_reach_the_prompt (host : Host) (st : App.State) :
  App.extractionMethod st = user_questions ->
  isBlank (App.inputText st) = false ->
  (isBlank (App.questionList st) = true ->
   App.prepare true st = (App.setError (Some App.msgNoQuestions) st, None))
  /\ (isBlank (App.questionList st) = false ->
      snd (App.prepare true st) = Some (App.inputText st)
      /\ GeminiService.taskAndInput (App.inputText st) (App.options st)
         = (GeminiService.taskUserQuestions,
            GeminiService.inputUserQuestions (App.inputText st)
                                             (App.questionList st))
      /\ exists before between after,
           snd (GeminiService.createPromptParts (App.inputText st)
                                                (App.options st))
           = before ++ js "---" ++ [NL] ++ App.inputText st ++ [NL]
             ++ js "---" ++ between ++ js "---" ++ [NL]
             ++ App.questionList st ++ [NL] ++ js "---" ++ after).
Proof.
  intros Hm Hb. split; intros Hq.
  - unfold App.prepare, App.extract. cbn [negb]. now rewrite Hb, Hm, Hq.
  - assert (Hstart : snd (App.prepare true st) = Some (App.inputText st)).
    { unfold App.prepare, App.extract. cbn [negb].
      now rewrite Hb, Hm, Hq, Hb. }
    assert (Htask : GeminiService.taskAndInput (App.inputText st)
                      (App.options st)
                    = (GeminiService.taskUserQuestions,
                       GeminiService.inputUserQuestions (App.inputText st)
                         (App.questionList st))).
    { unfold GeminiService.taskAndInput, App.options.
      cbn [GeminiService.extractionMethod GeminiService.questionList].
      rewrite Hm. destruct (App.questionList st); [discriminate|].
      reflexivity. }
    split; [exact Hstart|]. split; [exact Htask|].
    unfold GeminiService.createPromptParts. rewrite Htask. cbn [snd].
    unfold GeminiService.contentHead.
    match goal with
    | |- context [(?h ++ ?m ++ ?r) ++ ?q] => generalize r, q; intros r' q'
    end.
    destruct (inputUserQuestions_shape (App.inputText st)
                (App.questionList st)) as (a & b & c & ->).
    exists (js "
" ++ a), b, (c ++ r' ++ q').
    rewrite <- !app_assoc. reflexivity.
Qed.

(** X8 on a text with one question. *)
Lemma X8_witness :
  let st := stateWithQuestions (js "notes") (js "What is it?") in
  snd (App.prepare (host := engine) true st) = Some (js "notes").
Proof.
  intros st.
  exact (proj1 (proj2 (@X8_questions_reach_the_prompt engine st
                         eq_refl eq_refl) eq_refl)).
Defined.

End FlowFacts.

(* ===================================================================== *)
(** * Facts about the formats and the prompt *)
(* ===================================================================== *)

Module FormatFacts.
Import JS JSFacts FormatDefs.
Import OutputPanel.

(** ** White space around the output *)

Lemma trimStart_app_keep (s b : jsstring) :
  trimStart s <> [] -> trimStart (s ++ b) = trimStart s ++ b.
Proof.
  induction s as [|c s IH]; cbn; [intros H; now elim H|].
  destruct (isWhiteSpace c); [exact IH | reflexivity].
Qed.

Lemma trimEnd_app_blank (s b : jsstring) :
  forallb isWhiteSpace b = true -> trimEnd (s ++ b) = trimEnd s.
Proof.
  intros Hb. unfold trimEnd. rewrite rev_app_distr.
  rewrite trimStart_app_blank; [reflexivity|].
  now rewrite forallb_rev.
Qed.

Lemma trim_surrounded (a s b : jsstring) :
  isBlank a = true -> isBlank b = true -> trim (a ++ s ++ b) = trim s.
Proof.
  rewrite !isBlank_forallb. intros Ha Hb. unfold trim.
  rewrite trimStart_app_blank by exact Ha.
  destruct (trimStart s) as [|c t] eqn:E.
  - assert (Hs : forallb isWhiteSpace s = true) by now apply trimStart_blank.
    assert (Hsb : trimStart (s ++ b) = []).
    { apply trimStart_blank. now rewrite forallb_app, Hs, Hb. }
    now rewrite Hsb.
  - rewrite trimStart_app_keep by congruence.
    rewrite E. now apply trimEnd_app_blank.
Qed.

(** X9. The verdict of the validation does not depend on white space
    around the output: blank text before it and after it, such as the
    final line break of a response, changes neither the status nor the
    message, whatever the format. *)
Theorem X9_verdict_ignores_surrounding_space
        (JSON_parses : jsstring -> bool) (before text after : jsstring)
        (outputFormat : OutputFormat) :
  isBlank before = true -> isBlank after = true ->
  validate JSON_parses (before ++ text ++ after) outputFormat
  = validate JSON_parses text outputFormat.
Proof.
  intros Ha Hb. unfold validate, nonBlankLines.
  now rewrite (@trim_surrounded before text after Ha Hb).
Qed.

(** X9 on a row of TSV followed by a line break. *)
Lemma X9_witness :
  status (validate (fun _ => false) (js "a" ++ [TAB] ++ js "b" ++ [NL]) tsv)
  = valid.
Proof.
  change (js "a" ++ [TAB] ++ js "b" ++ [NL])
    with ([] ++ (js "a" ++ [TAB] ++ js "b") ++ [NL]).
  rewrite (@X9_verdict_ignores_surrounding_space (fun _ => false) []
             (js "a" ++ [TAB] ++ js "b") [NL] tsv eq_refl eq_refl).
  reflexivity.
Defined.

(** ** The verdict on TSV *)

Lemma length_splitAux_single (c : N) (s cur : jsstring) :
  length (splitAux [c] s cur 0) = S (count_occ N.eq_dec s c).
Proof.
  revert cur; induction s as [|d s IH]; intros cur; [reflexivity|].
  cbn [splitAux startsWith length Nat.sub count_occ].
  rewrite andb_true_r.
  destruct (N.eqb_spec c d) as [->|Hne].
  - destruct (N.eq_dec d d) as [_|H]; [|congruence].
    cbn [length]. now rewrite IH.
  - destruct (N.eq_dec d c) as [H|_]; [congruence|]. apply IH.
Qed.

Lemma tsvLineFails_tabs (line : jsstring) :
  tsvLineFails line = negb (tabs line =? 1)%nat.
Proof.
  unfold tsvLineFails, tabs, split. now rewrite length_splitAux_single.
Qed.

(** X10. For a text validated as TSV the verdict is [warning] exactly when
    one of its lines, taken from the trimmed text and not blank, does not
    hold exactly one tab character, and [valid] otherwise; it is never
    [invalid].  What the two columns hold is not looked at. *)
Theorem X10_tsv_verdict (JSON_parses : jsstring -> bool) (text : jsstring) :
  (status (validate JSON_parses text tsv) = warning
   <-> exists line, In line (nonBlankLines text) /\ tabs line <> 1%nat)
  /\ (status (validate JSON_parses text tsv) = valid
      <-> forall line, In line (nonBlankLines text) -> tabs line = 1%nat)
  /\ status (validate JSON_parses text tsv) <> invalid
  /\ status (validate JSON_parses text tsv) <> idle.
Proof.
  assert (Hst : status (validate JSON_parses text tsv)
                = if existsb tsvLineFails (nonBlankLines text)
                  then warning else valid).
  { unfold validate.
    destruct (nonBlankLines text) as [|l ls]; [reflexivity|].
    cbn [length Nat.ltb Nat.leb andb].
    now destruct (existsb tsvLineFails (l :: ls)). }
  rewrite Hst.
  destruct (existsb tsvLineFails (nonBlankLines text)) eqn:E.
  - apply existsb_exists in E as (line & Hin & Hf).
    rewrite tsvLineFails_tabs, negb_true_iff, Nat.eqb_neq in Hf.
    repeat split; try discriminate.
    + intros _. now exists line.
    + intros Hall. elim Hf. now apply Hall.
  - assert (Hall : forall line, In line (nonBlankLines text) ->
                                tabs line = 1%nat).
    { intros line Hin. destruct (Nat.eqb_spec (tabs line) 1) as [H|H];
        [exact H|]. exfalso.
      assert (Hex : existsb tsvLineFails (nonBlankLines text) = true).
      { apply existsb_exists. exists line. split; [exact Hin|].
        rewrite tsvLineFails_tabs, negb_true_iff. now apply Nat.eqb_neq. }
      congruence. }
    repeat split; try discriminate; auto.
    intros (line & Hin & Hne). elim Hne. now apply Hall.
Qed.

(** ** The rows the prompt prescribes *)

Lemma count_occ_absent (c : N) (s : jsstring) :
  ~ In c s -> count_occ N.eq_dec s c = 0%nat.
Proof. apply count_occ_not_In. Qed.

Lemma splitAux_run (sep : jsstring) (c0 : N) (f rest cur : jsstring) :
  hd_error sep = Some c0 -> ~ In c0 f ->
  splitAux sep (f ++ rest) cur 0 = splitAux sep rest (rev f ++ cur) 0.
Proof.
  intros Hsep. revert cur; induction f as [|c f IH]; intros cur Hf;
    [reflexivity|].
  cbn [app splitAux].
  assert (Hs : startsWith sep (c :: f ++ rest) = false).
  { destruct sep as [|a sep]; [discriminate|]. injection Hsep as ->.
    cbn [startsWith]. destruct (N.eqb_spec c0 c) as [->|_]; [|reflexivity].
    elim Hf. now left. }
  rewrite Hs, IH by (intros H; apply Hf; now right).
  cbn [rev]. now rewrite <- app_assoc.
Qed.

Lemma csvRow_split (front back : jsstring) :
  ~ In DQ front -> ~ In DQ back -> front <> [44%N] ->
  split [DQ; 44%N; DQ] (csvRow front back)
  = [[DQ] ++ front; back ++ [DQ]].
Proof.
  intros Hf Hb Hne. unfold csvRow, split.
  change ([DQ] ++ front ++ [DQ] ++ js "," ++ [DQ] ++ back ++ [DQ])
    with (DQ :: front ++ DQ :: 44%N :: DQ :: back ++ [DQ]).
  cbn [splitAux].
  assert (H0 : startsWith [DQ; 44%N; DQ]
                 (DQ :: front ++ DQ :: 44%N :: DQ :: back ++ [DQ]) = false).
  { cbn [startsWith]. rewrite N.eqb_refl. cbn [andb].
    destruct front as [|c [|d front]]; cbn [app startsWith].
    - reflexivity.
    - destruct (N.eqb_spec 44 c) as [<-|_]; [congruence|reflexivity].
    - destruct (N.eqb 44 c); [|reflexivity]. cbn [andb].
      destruct (N.eqb_spec DQ d) as [<-|_]; [|reflexivity].
      elim Hf. right. now left. }
  rewrite H0.
  rewrite (@splitAux_run [DQ; 44%N; DQ] DQ front) by (auto; reflexivity).
  cbn [splitAux startsWith length Nat.sub].
  rewrite !N.eqb_refl. cbn [andb].
  rewrite (@splitAux_run [DQ; 44%N; DQ] DQ back [DQ] []) by (auto; reflexivity).
  cbn [splitAux startsWith]. rewrite N.eqb_refl. cbn [andb].
  rewrite rev_app_distr, rev_involutive. cbn [rev app].
  rewrite app_nil_r, rev_involutive. reflexivity.
Qed.

Lemma trimStart_nonblank (s : jsstring) :
  isBlank s = false -> trimStart s <> [].
Proof.
  rewrite isBlank_forallb. intros Hb E.
  apply trimStart_blank in E. congruence.
Qed.

Lemma trimEnd_nonblank (s : jsstring) :
  isBlank s = false -> trimEnd s <> [].
Proof.
  rewrite isBlank_forallb. intros Hb E. unfold trimEnd in E.
  assert (E' : trimStart (rev s) = []).
  { apply (f_equal (@rev N)) in E. now rewrite rev_involutive in E. }
  apply trimStart_blank in E'. rewrite forallb_rev in E'. congruence.
Qed.

Lemma trimEnd_app_keep (s b : jsstring) :
  trimEnd b <> [] -> trimEnd (s ++ b) = s ++ trimEnd b.
Proof.
  intros Hb. unfold trimEnd in *. rewrite rev_app_distr.
  rewrite trimStart_app_keep.
  - now rewrite rev_app_distr, rev_involutive.
  - intros E. apply Hb. now rewrite E.
Qed.

(** What is left of a string by [trimStart] and by [trimEnd] is part of
    the string. *)
Lemma trimStart_incl (s : jsstring) (c : N) : In c (trimStart s) -> In c s.
Proof.
  induction s as [|d s IH]; [auto|]. cbn.
  destruct (isWhiteSpace d); [right; auto | auto].
Qed.

Lemma trimEnd_incl (s : jsstring) (c : N) : In c (trimEnd s) -> In c s.
Proof.
  unfold trimEnd. rewrite <- in_rev. intros H.
  apply trimStart_incl in H. now apply in_rev.
Qed.

(** A list of lines without line feed, joined by line feeds and split
    again, is the list. *)
Lemma split_join_lines (rows : list jsstring) :
  rows <> [] -> Forall (fun row => ~ In NL row) rows ->
  split [NL] (join [NL] rows) = rows.
Proof.
  unfold split.
  induction rows as [|r rows IH]; [congruence|]. intros _ Hall.
  inversion Hall as [|? ? Hr Hrows]; subst.
  destruct rows as [|r' rows].
  - cbn [join]. rewrite <- (app_nil_r r) at 1.
    rewrite (@splitAux_run [NL] NL r [] []) by (auto; reflexivity).
    cbn. now rewrite app_nil_r, rev_involutive.
  - rewrite join_cons by discriminate.
    rewrite (@splitAux_run [NL] NL r) by (auto; reflexivity).
    cbn [app splitAux startsWith length Nat.sub].
    rewrite N.eqb_refl. cbn [andb].
    rewrite app_nil_r, rev_involutive.
    f_equal. apply IH; [discriminate | exact Hrows].
Qed.

Lemma tsvRow_tabs (front back : jsstring) :
  ~ In TAB front -> ~ In TAB back -> tabs (tsvRow front back) = 1%nat.
Proof.
  intros Hf Hb. unfold tabs, tsvRow.
  rewrite !count_occ_app, (@count_occ_absent TAB front Hf),
    (@count_occ_absent TAB back Hb).
  reflexivity.
Qed.

Lemma csvRow_passes (front back : jsstring) :
  ~ In DQ front -> ~ In DQ back -> front <> [44%N] ->
  csvLineFails (csvRow front back) = false.
Proof.
  intros Hf Hb Hne. apply OutputFacts.csvLineFails_false.
  unfold PanelExamples.csvWellShaped. split; [reflexivity|]. split.
  - unfold endsWith, csvRow. rewrite !rev_app_distr. reflexivity.
  - now rewrite csvRow_split.
Qed.

(** The verdict on lines that all pass. *)
Lemma validate_lines (JSON_parses : jsstring -> bool)
      (outputFormat : OutputFormat) (text : jsstring) :
  outputFormat <> json ->
  (forall line, In line (nonBlankLines text) ->
                match outputFormat with
                | tsv => tsvLineFails line = false
                | _ => csvLineFails line = false
                end) ->
  status (validate JSON_parses text outputFormat) = valid.
Proof.
  intros Hfmt Hall. unfold validate.
  destruct outputFormat; [| |now elim Hfmt].
  - assert (He : existsb tsvLineFails (nonBlankLines text) = false).
    { destruct (existsb tsvLineFails (nonBlankLines text)) eqn:E;
        [|reflexivity].
      apply existsb_exists in E as (line & Hin & Hf).
      rewrite (Hall line Hin) in Hf. discriminate. }
    rewrite He, andb_false_r. reflexivity.
  - assert (He : existsb csvLineFails (nonBlankLines text) = false).
    { destruct (existsb csvLineFails (nonBlankLines text)) eqn:E;
        [|reflexivity].
      apply existsb_exists in E as (line & Hin & Hf).
      rewrite (Hall line Hin) in Hf. discriminate. }
    rewrite He, andb_false_r. reflexivity.
Qed.

(** *** Rows of TSV *)

Lemma tsvOutput_cons (card : jsstring * jsstring)
      (rest : list (jsstring * jsstring)) :
  exists tail, forall front,
    tsvOutput ((front, snd card) :: rest) = front ++ tail.
Proof.
  unfold tsvOutput. cbn [map fst snd]. destruct rest as [|c rest].
  - exists ([TAB] ++ snd card). intros front. reflexivity.
  - exists ([TAB] ++ snd card ++ [NL]
            ++ join [NL] (map (fun card0 => tsvRow (fst card0) (snd card0))
                              (c :: rest))).
    intros front. cbn [map]. rewrite join_cons by discriminate.
    unfold tsvRow at 1. now rewrite <- !app_assoc.
Qed.

Lemma trimStart_tsvOutput (cards : list (jsstring * jsstring)) :
  Forall (fun card => tsvField (fst card) /\ tsvField (snd card)) cards ->
  trimStart (tsvOutput cards) = tsvOutput (trimFirst cards).
Proof.
  destruct cards as [|[f b] rest]; [reflexivity|]. intros Hall.
  inversion Hall as [|? ? [[Hf _] _] _]; subst. cbn [fst snd] in Hf.
  destruct (tsvOutput_cons (f, b) rest) as (tail & Htail).
  cbn [fst snd trimFirst] in Htail |- *.
  rewrite !Htail. apply trimStart_app_keep. now apply trimStart_nonblank.
Qed.

Lemma trimEnd_tsvOutput (cards : list (jsstring * jsstring)) :
  Forall (fun card => isBlank (snd card) = false) cards ->
  trimEnd (tsvOutput cards) = tsvOutput (trimLast cards)
  /\ (cards <> [] -> trimEnd (tsvOutput cards) <> []).
Proof.
  induction cards as [|[f b] rest IH]; intros Hall.
  - split; [reflexivity | congruence].
  - inversion Hall as [|? ? Hb Hrest]; subst. cbn [snd] in Hb.
    destruct rest as [|c rest].
    + unfold tsvOutput, tsvRow. cbn [map join fst snd trimLast].
      rewrite !app_assoc.
      rewrite trimEnd_app_keep by now apply trimEnd_nonblank.
      split; [reflexivity|]. intros _ E.
      apply (f_equal (@length N)) in E. rewrite length_app in E.
      pose proof (trimEnd_nonblank b Hb) as Hne.
      destruct (trimEnd b); [congruence | cbn in E; lia].
    + destruct (IH Hrest) as (IH1 & IH2).
      specialize (IH2 ltac:(discriminate)).
      assert (Hcons : forall l : list (jsstring * jsstring), l <> [] ->
                tsvOutput ((f, b) :: l)
                = (tsvRow f b ++ [NL]) ++ tsvOutput l).
      { intros l Hl. unfold tsvOutput. cbn [map fst snd].
        rewrite join_cons; [now rewrite <- app_assoc|].
        destruct l; [congruence | discriminate]. }
      assert (Hlast : trimLast ((f, b) :: c :: rest)
                      = (f, b) :: trimLast (c :: rest)) by reflexivity.
      rewrite Hlast, !Hcons; try discriminate.
      * rewrite trimEnd_app_keep by exact IH2. rewrite IH1.
        split; [reflexivity|]. intros _ E.
        apply (f_equal (@length N)) in E. rewrite !length_app in E.
        cbn in E. lia.
      * destruct rest as [|c' rest']; cbn; [destruct c|]; discriminate.
Qed.

Lemma trimFirst_fields (cards : list (jsstring * jsstring)) :
  Forall (fun card => tsvField (fst card) /\ tsvField (snd card)) cards ->
  Forall (fun card => isBlank (snd card) = false) (trimFirst cards)
  /\ Forall (fun card => (~ In TAB (fst card) /\ ~ In NL (fst card))
                         /\ ~ In TAB (snd card) /\ ~ In NL (snd card))
            (trimFirst cards).
Proof.
  intros Hall.
  assert (Hweak : Forall (fun card => isBlank (snd card) = false
                    /\ (~ In TAB (fst card) /\ ~ In NL (fst card))
                    /\ ~ In TAB (snd card) /\ ~ In NL (snd card)) cards).
  { eapply Forall_impl; [|exact Hall]. cbn.
    intros card [(_ & H1 & H2) (H3 & H4 & H5)]. tauto. }
  destruct cards as [|[f b] rest]; [split; constructor|].
  inversion Hweak as [|? ? (Hb & (Hf1 & Hf2) & Hb1 & Hb2) Hrest]; subst.
  cbn [fst snd] in *. cbn [trimFirst fst snd]. split.
  - constructor; [exact Hb|].
    eapply Forall_impl; [|exact Hrest]. cbn. tauto.
  - constructor.
    + cbn [fst snd]. repeat split; auto;
        intros H; apply trimStart_incl in H; auto.
    + eapply Forall_impl; [|exact Hrest]. cbn. tauto.
Qed.

Lemma trimLast_fields (cards : list (jsstring * jsstring)) :
  Forall (fun card => (~ In TAB (fst card) /\ ~ In NL (fst card))
                      /\ ~ In TAB (snd card) /\ ~ In NL (snd card)) cards ->
  Forall (fun card => (~ In TAB (fst card) /\ ~ In NL (fst card))
                      /\ ~ In TAB (snd card) /\ ~ In NL (snd card))
         (trimLast cards).
Proof.
  induction cards as [|[f b] rest IH]; intros Hall; [constructor|].
  inversion Hall as [|? ? ((Hf1 & Hf2) & Hb1 & Hb2) Hrest]; subst.
  cbn [fst snd] in *.
  destruct rest as [|c rest].
  - cbn [trimLast fst snd]. constructor; [|constructor]. cbn [fst snd].
    repeat split; auto; intros H; apply trimEnd_incl in H; auto.
  - change (trimLast ((f, b) :: c :: rest))
      with ((f, b) :: trimLast (c :: rest)).
    constructor; [cbn [fst snd]; tauto | now apply IH].
Qed.

Lemma trimLast_nil (cards : list (jsstring * jsstring)) :
  trimLast cards = [] -> cards = [].
Proof.
  destruct cards as [|c [|c' rest]]; [reflexivity| |]; discriminate.
Qed.

(** *** Rows of CSV *)

Lemma csvOutput_ends (cards : list (jsstring * jsstring)) :
  cards <> [] ->
  (exists x, csvOutput cards = DQ :: x)
  /\ (exists y, csvOutput cards = y ++ [DQ]).
Proof.
  unfold csvOutput.
  induction cards as [|[f b] rest IH]; [congruence|]. intros _.
  cbn [map fst snd]. destruct rest as [|c rest].
  - cbn [join]. unfold csvRow. split; [now eexists|].
    exists ([DQ] ++ f ++ [DQ] ++ js "," ++ [DQ] ++ b).
    now rewrite <- !app_assoc.
  - rewrite join_cons by discriminate.
    destruct (IH ltac:(discriminate)) as (_ & y & Hy).
    split; [unfold csvRow; now eexists|].
    exists (csvRow f b ++ [NL] ++ y). rewrite Hy.
    now rewrite <- !app_assoc.
Qed.

Lemma trim_quoted (x y : jsstring) (s : jsstring) :
  s = DQ :: x -> s = y ++ [DQ] -> trim s = s.
Proof.
  intros Hx Hy. unfold trim.
  assert (Hs : trimStart s = s) by (rewrite Hx; reflexivity).
  rewrite Hs, Hy. unfold trimEnd. rewrite rev_app_distr. cbn.
  now rewrite rev_involutive.
Qed.

(** X11. An output made of rows as the prompt prescribes, one row on
    each line, gets the verdict [valid].  For TSV the rows are a front, a
    tab and a back, the fields being not blank and holding neither tab nor
    line feed; for CSV they are a quoted front, a comma and a quoted back,
    the fields holding neither double quote nor line feed and the front
    not being a single comma.  For each card type the format instructions
    of TSV and of CSV end with such a row, made of the example front and
    back, and that row alone gets [valid]. *)
Theorem X11_prescribed_rows_pass (JSON_parses : jsstring -> bool) :
  (forall cards : list (jsstring * jsstring),
     Forall (fun card => tsvField (fst card) /\ tsvField (snd card)) cards ->
     status (validate JSON_parses (tsvOutput cards) tsv) = valid)
  /\ (forall cards : list (jsstring * jsstring),
        Forall (fun card => csvField (fst card) /\ csvField (snd card)
                            /\ fst card <> [44%N]) cards ->
        status (validate JSON_parses (csvOutput cards) csv) = valid)
  /\ (forall cardType,
        let front := GeminiService.frontExample cardType in
        let back := GeminiService.backExample cardType in
        (exists intro,
           GeminiService.getFormatInstructions tsv cardType
           = intro ++ tsvRow front back)
        /\ (exists intro,
              GeminiService.getFormatInstructions csv cardType
              = intro ++ csvRow front back)
        /\ status (validate JSON_parses (tsvOutput [(front, back)]) tsv)
           = valid
        /\ status (validate JSON_parses (csvOutput [(front, back)]) csv)
           = valid).
Proof.
  assert (Htsv : forall cards : list (jsstring * jsstring),
     Forall (fun card => tsvField (fst card) /\ tsvField (snd card)) cards ->
     status (validate JSON_parses (tsvOutput cards) tsv) = valid).
  { intros cards Hall.
    destruct cards as [|card0 cards0] eqn:Ecards; [reflexivity|].
    rewrite <- Ecards in *.
    assert (Hne : cards <> []) by (rewrite Ecards; discriminate).
    apply validate_lines; [discriminate|].
    intros line Hin. rewrite tsvLineFails_tabs.
    destruct (trimFirst_fields Hall) as (Hblank & Hfields).
    assert (Htrim : trim (tsvOutput cards)
                    = tsvOutput (trimLast (trimFirst cards))).
    { unfold trim. rewrite (trimStart_tsvOutput Hall).
      exact (proj1 (trimEnd_tsvOutput Hblank)). }
    pose proof (trimLast_fields Hfields) as Hfinal.
    unfold nonBlankLines in Hin. apply filter_In in Hin as [Hin _].
    rewrite Htrim in Hin. unfold tsvOutput in Hin.
    rewrite split_join_lines in Hin.
    - apply in_map_iff in Hin as (card & <- & Hcard).
      rewrite Forall_forall in Hfinal.
      destruct (Hfinal card Hcard) as ((Hf & _) & Hb & _).
      rewrite tsvRow_tabs by assumption. reflexivity.
    - intros E. apply map_eq_nil in E. apply trimLast_nil in E.
      rewrite Ecards in E. discriminate.
    - apply Forall_forall. intros row Hrow.
      apply in_map_iff in Hrow as (card & <- & Hcard).
      rewrite Forall_forall in Hfinal.
      destruct (Hfinal card Hcard) as ((_ & Hf) & _ & Hb).
      unfold tsvRow. rewrite !in_app_iff. cbn.
      intros [H|[[H|[]]|H]]; auto. discriminate. }
  assert (Hcsv : forall cards : list (jsstring * jsstring),
     Forall (fun card => csvField (fst card) /\ csvField (snd card)
                         /\ fst card <> [44%N]) cards ->
     status (validate JSON_parses (csvOutput cards) csv) = valid).
  { intros cards Hall.
    destruct cards as [|card0 cards0] eqn:Ecards; [reflexivity|].
    rewrite <- Ecards in *.
    assert (Hne : cards <> []) by (rewrite Ecards; discriminate).
    apply validate_lines; [discriminate|].
    intros line Hin.
    destruct (csvOutput_ends Hne) as ((x & Hx) & (y & Hy)).
    unfold nonBlankLines in Hin. apply filter_In in Hin as [Hin _].
    rewrite (@trim_quoted x y (csvOutput cards) Hx Hy) in Hin. unfold csvOutput in Hin.
    rewrite split_join_lines in Hin.
    - apply in_map_iff in Hin as (card & <- & Hcard).
      rewrite Forall_forall in Hall.
      destruct (Hall card Hcard) as ((Hf & _) & (Hb & _) & Hcomma).
      now apply csvRow_passes.
    - intros E. apply map_eq_nil in E. congruence.
    - apply Forall_forall. intros row Hrow.
      apply in_map_iff in Hrow as (card & <- & Hcard).
      rewrite Forall_forall in Hall.
      destruct (Hall card Hcard) as ((_ & Hf) & (_ & Hb) & _).
      unfold csvRow. rewrite !in_app_iff. cbn.
      intros [[H|[]]|[H|[[H|[]]|[[H|[]]|[[H|[]]|[H|[H|[]]]]]]]]; auto;
        discriminate. }
  split; [exact Htsv|]. split; [exact Hcsv|].
  intros cardType front back. subst front back.
  split; [|split; [|split]].
  - eexists. unfold GeminiService.getFormatInstructions,
      GeminiService.formatTsv, tsvRow.
    rewrite !app_assoc. reflexivity.
  - exists (firstn (length (GeminiService.getFormatInstructions csv cardType)
                    - length (csvRow (GeminiService.frontExample cardType)
                                     (GeminiService.backExample cardType)))
                   (GeminiService.getFormatInstructions csv cardType)).
    destruct cardType; vm_compute; reflexivity.
  - apply Htsv. constructor; [|constructor]. cbn [fst snd].
    unfold tsvField.
    destruct cardType; (split; (split; [vm_compute; reflexivity|]);
      split; intros H; vm_compute in H;
      repeat (destruct H as [H|H]; [discriminate|]); exact H).
  - apply Hcsv. constructor; [|constructor]. cbn [fst snd].
    unfold csvField.
    destruct cardType; (split; [|split]);
      try discriminate;
      (split; intros H; vm_compute in H;
       repeat (destruct H as [H|H]; [discriminate|]); exact H).
Qed.

(** ** The layout of the prompt *)

Lemma inputBlock_shape (userInput : jsstring)
      (options : GeminiService.GenerationOptions) :
  exists a b,
    snd (GeminiService.taskAndInput userInput options)
    = a ++ js "---" ++ [NL] ++ userInput ++ [NL] ++ js "---" ++ b.
Proof.
  unfold GeminiService.taskAndInput.
  destruct (GeminiService.extractionMethod options);
    destruct (GeminiService.truthy (GeminiService.questionList options))
      as [questions|];
    cbn [snd];
    try (exists (firstn 17 (GeminiService.inputDefault [])),
                (skipn 25 (GeminiService.inputDefault []));
         vm_compute; reflexivity).
  exists (firstn 23 (GeminiService.inputUserQuestions [] [])),
         (skipn 31 (GeminiService.inputUserQuestions [] questions)).
  vm_compute. reflexivity.
Qed.

(** X17. Whatever the text and the options, the content sent to the model
    holds, in this order: the text handed on, as it is, between two lines
    of dashes; the format instructions of the output format and card type
    selected; the instructions of the card type; the quantity
    instruction.  The system instruction is the same for every request. *)
Theorem X17_prompt_layout (userInput : jsstring)
        (options : GeminiService.GenerationOptions) :
  (exists a b c d e,
     snd (GeminiService.createPromptParts userInput options)
     = a ++ (js "---" ++ [NL] ++ userInput ++ [NL] ++ js "---")
       ++ b ++ GeminiService.getFormatInstructions
                 (GeminiService.outputFormat options)
                 (GeminiService.cardType options)
       ++ c ++ GeminiService.getCardTypeInstructions
                 (GeminiService.cardType options)
       ++ d ++ GeminiService.quantityInstruction
                 (GeminiService.numberOfCards options)
       ++ e)
  /\ fst (GeminiService.createPromptParts userInput options)
     = GeminiService.systemInstruction.
Proof.
  unfold GeminiService.createPromptParts.
  destruct (inputBlock_shape userInput options) as (a & b & Hblock).
  destruct (GeminiService.taskAndInput userInput options) as [task main].
  cbn [snd fst] in Hblock |- *. split; [|reflexivity].
  unfold GeminiService.contentHead. rewrite Hblock.
  generalize (GeminiService.getFormatInstructions
                (GeminiService.outputFormat options)
                (GeminiService.cardType options)).
  generalize (GeminiService.getCardTypeInstructions
                (GeminiService.cardType options)).
  generalize (GeminiService.quantityInstruction
                (GeminiService.numberOfCards options)).
  generalize GeminiService.contentTail.
  intros tail quantity card format.
  match goal with
  | |- context [(?h ++ _ ++ ?s1 ++ task ++ ?s2 ++ format ++ ?s3 ++ card ++ ?s4)
                ++ _] =>
      exists (h ++ a), (b ++ s1 ++ task ++ s2), s3, s4, tail
  end.
  rewrite <- !app_assoc. reflexivity.
Qed.

(** X20. Outside the mode of the user's questions the list of questions
    has no part in the request: whatever is left in the field, the system
    instruction, the content and the configuration sent to the provider
    are the same, and so is the answer.  In that mode an absent list and
    an empty one give the same request, that of the default task. *)
Theorem X20_questions_do_not_leak (provider : GeminiService.Provider)
        (userInput : jsstring) (options : GeminiService.GenerationOptions)
        (questions : option jsstring) :
  GeminiService.extractionMethod options <> user_questions ->
  GeminiService.request userInput (withQuestionList questions options)
  = GeminiService.request userInput options
  /\ GeminiService.generateFlashcardsStream provider userInput
       (withQuestionList questions options)
     = GeminiService.generateFlashcardsStream provider userInput options
  /\ (forall options' : GeminiService.GenerationOptions,
        GeminiService.request userInput (withQuestionList (Some []) options')
        = GeminiService.request userInput (withQuestionList None options')).
Proof.
  intros Hm.
  assert (Ht : GeminiService.taskAndInput userInput
                 (withQuestionList questions options)
               = GeminiService.taskAndInput userInput options).
  { unfold GeminiService.taskAndInput, withQuestionList.
    cbn [GeminiService.extractionMethod GeminiService.questionList].
    destruct (GeminiService.extractionMethod options);
      try (now elim Hm);
      destruct (GeminiService.truthy questions),
        (GeminiService.truthy (GeminiService.questionList options));
      reflexivity. }
  assert (Hr : GeminiService.request userInput
                 (withQuestionList questions options)
               = GeminiService.request userInput options).
  { unfold GeminiService.request, GeminiService.createPromptParts.
    rewrite Ht. reflexivity. }
  split; [exact Hr|]. split.
  - unfold GeminiService.generateFlashcardsStream, GeminiService.respond.
    now rewrite Hr.
  - intros options'. reflexivity.
Qed.

(** X20 on a list of questions left in the field in the AI mode. *)
Lemma X20_witness :
  let options := GeminiService.mkOptions (js "gemini-2.5-flash") tsv basic []
                   ai None in
  GeminiService.request (js "notes")
    (withQuestionList (Some (js "What is it?")) options)
  = GeminiService.request (js "notes") options.
Proof.
  intros options.
  refine (proj1 (@X20_questions_do_not_leak (fun _ _ _ =>
                   GeminiService.mkResponse [] None) (js "notes") options
                   (Some (js "What is it?")) _)).
  discriminate.
Defined.

(** ** The verdict after the generation *)

(** X19. Once a generation is over the verdict is never computed again:
    through renders in which nothing is loading, whatever their output
    format, no validation is run; the verdict stays what it was as long
    as the output is not empty, even when the format selected is no
    longer the one the output was validated for, and it is [idle] from
    the first render with an empty output on. *)
Theorem X19_verdict_is_not_recomputed (JSON_parses : jsstring -> bool)
        (renders : list Props) (panel : Panel) :
  prevIsLoadingRef panel = false ->
  Forall (fun props => isLoading props = false) renders ->
  snd (runEffects JSON_parses renders panel) = []
  /\ validation (fst (runEffects JSON_parses renders panel))
     = (if existsb (fun props => isEmpty (outputText props)) renders
        then idleState else validation panel).
Proof.
  revert panel; induction renders as [|p rs IH]; intros panel Hp Hall;
    [now split|].
  inversion Hall as [|? ? Hl Hrs]; subst.
  cbn [runEffects existsb].
  assert (Hstep : validationEffect JSON_parses p panel
                  = (mkPanel (if isEmpty (outputText p) then idleState
                              else validation panel) false, None)).
  { unfold validationEffect. rewrite Hp, Hl. cbn [andb].
    now destruct (isEmpty (outputText p)). }
  rewrite Hstep.
  destruct (IH (mkPanel (if isEmpty (outputText p) then idleState
                         else validation panel) false) eq_refl Hrs)
    as (H1 & H2).
  destruct (runEffects JSON_parses rs _) as [panel2 vs].
  cbn [fst snd validation] in H1, H2 |- *. split; [exact H1|].
  rewrite H2. destruct (isEmpty (outputText p)); cbn [orb]; [|reflexivity].
  now destruct (existsb _ rs).
Qed.

(** X19 on an output validated as TSV and then shown under the format
    CSV: the verdict is still the one of TSV. *)
Lemma X19_witness :
  let text := js "front" ++ [TAB] ++ js "back" in
  let panel := mkPanel (validate (fun _ => false) text tsv) false in
  status (validation (fst (runEffects (fun _ => false)
                             [mkProps text false None csv] panel)))
  = valid
  /\ status (validate (fun _ => false) text csv) = warning.
Proof.
  intros text panel. split; [|vm_compute; reflexivity].
  assert (Hall : Forall (fun props => isLoading props = false)
                        [mkProps text false None csv])
    by (constructor; [reflexivity | constructor]).
  rewrite (proj2 (@X19_verdict_is_not_recomputed (fun _ => false)
                    [mkProps text false None csv] panel eq_refl Hall)).
  vm_compute. reflexivity.
Defined.

End FormatFacts.

(* ===================================================================== *)
(** * Facts about the input panel *)
(* ===================================================================== *)

Module InputFacts.
Import JS JSFacts RegExp Examples PanelExamples InputDefs.

(** ** The upload of a file *)

(** X12. A chosen file replaces the input text exactly when its type is
    text/plain, its size is at most 5 MiB (5242880 bytes, the bound
    included) and the reader delivers its text; the text is then the
    content of the file and no error is shown.  In every other case an
    error is shown and the input text is left as it was.  Without a chosen
    file nothing changes. *)
Theorem X12_upload (f : Upload.File) (st : Upload.State) :
  let st' := Upload.handleFileChange (Some f) st in
  (Upload.fileError st' = None
   <-> Upload.file_type f = js "text/plain"
       /\ (Upload.file_size f <= 5242880)%N
       /\ Upload.file_text f <> None)
  /\ (Upload.fileError st' = None ->
      Upload.file_text f = Some (Upload.inputText st'))
  /\ (Upload.fileError st' <> None ->
      Upload.inputText st' = Upload.inputText st)
  /\ Upload.handleFileChange None st = st.
Proof.
  intros st'. subst st'. unfold Upload.handleFileChange.
  destruct (jsstring_eqb (Upload.file_type f) (js "text/plain")) eqn:Ht;
    cbn [negb].
  - apply GeminiFacts.jsstring_eqb_eq in Ht.
    change Upload.maxSize with 5242880%N.
    destruct (N.ltb_spec 5242880 (Upload.file_size f)) as [Hs|Hs].
    + cbn [Upload.fileError Upload.inputText].
      repeat split; try discriminate; try reflexivity.
      intros (_ & H & _). lia.
    + destruct (Upload.file_text f) as [text|];
        cbn [Upload.fileError Upload.inputText].
      * repeat split; try reflexivity; try discriminate; auto.
        intros H; now elim H.
      * repeat split; try discriminate; try reflexivity.
        intros (_ & _ & H). now elim H.
  - cbn [Upload.fileError Upload.inputText].
    repeat split; try discriminate; try reflexivity.
    intros (H & _). apply GeminiFacts.jsstring_eqb_eq in H. congruence.
Qed.

(** ** The presets *)

Lemma fold_left_invariant (A B : Type) (P : A -> Prop) (f : A -> B -> A)
      (l : list B) (a : A) :
  P a -> (forall x b, In b l -> P x -> P (f x b)) -> P (fold_left f l a).
Proof.
  revert a; induction l as [|b l IH]; intros a Ha Hstep; [exact Ha|].
  cbn. apply IH.
  - apply Hstep; [now left | exact Ha].
  - intros x b' Hin. apply Hstep. now right.
Qed.

(** X13. Whatever the user does to the preset menu, the pattern and the
    flags, in any order, the menu never shows a preset the expression has
    departed from: whenever the preset selected is not "Custom", the
    pattern and the flags are those of that preset.  As long as the flags
    are not edited by hand they contain [g], which the generation
    requires. *)
Theorem X13_preset_in_step (events : list Presets.Event) :
  let st := Presets.run events in
  (Presets.selectedPreset st <> Presets.custom ->
   Presets.regexPattern st = Presets.pattern (Presets.selectedPreset st)
   /\ Presets.regexFlags st = Presets.flags (Presets.selectedPreset st))
  /\ (existsb editsFlags events = false ->
      hasFlag 103 (Presets.regexFlags st) = true).
Proof.
  cbn zeta. unfold Presets.run. split.
  - apply fold_left_invariant with
      (P := fun st => Presets.selectedPreset st <> Presets.custom ->
              Presets.regexPattern st
              = Presets.pattern (Presets.selectedPreset st)
              /\ Presets.regexFlags st
                 = Presets.flags (Presets.selectedPreset st)).
    + intros H; now elim H.
    + intros st [k|v|v] _ _; cbn; try (intros H; now elim H).
      destruct k; cbn; intros H; (now elim H) || (split; reflexivity).
  - intros Hno.
    apply fold_left_invariant with
      (P := fun st => hasFlag 103 (Presets.regexFlags st) = true).
    + reflexivity.
    + intros st e Hin Hst.
      assert (He : editsFlags e = false).
      { destruct (editsFlags e) eqn:E; [|reflexivity].
        assert (Hex : existsb editsFlags events = true)
          by (apply existsb_exists; now exists e).
        congruence. }
      destruct e as [k|v|v]; cbn in He |- *; [|exact Hst|discriminate].
      destruct k; cbn; (exact Hst) || reflexivity.
Qed.

(** X14. Each of the four presets is accepted by the engine with its
    flags, which contain [g]: with a preset selected, a request in regex
    mode is never turned down for an invalid pattern or flags, and the
    preview never reports an error of the expression; whatever the text,
    the parts of the preview, put end to end, are the text. *)
Theorem X14_presets_are_valid (k : Presets.Key) (text : jsstring) :
  k <> Presets.custom ->
  let p := Presets.handlePresetChange k Presets.initial in
  (exists re, compile (Presets.regexPattern p) (Presets.regexFlags p)
              = POk re)
  /\ hasFlag 103 (Presets.regexFlags p) = true
  /\ (forall onLine,
        App.error (fst (App.prepare (host := engine) onLine
                          (regexState text p)))
        <> Some App.msgInvalidRegex)
  /\ InputPanel.error
       (InputPanel.preview (host := engine) regex text
          (Presets.regexPattern p) (Presets.regexFlags p))
     <> Some InputPanel.Thrown
  /\ concat (map InputPanel.partText
               (InputPanel.highlightedContent
                  (InputPanel.preview (host := engine) regex text
                     (Presets.regexPattern p) (Presets.regexFlags p))))
     = text.
Proof.
  intros Hk p.
  assert (Hc : exists re, compile (Presets.regexPattern p)
                            (Presets.regexFlags p) = POk re)
    by (destruct k; [now elim Hk| | | |]; vm_compute; eexists; reflexivity).
  assert (Hg : hasFlag 103 (Presets.regexFlags p) = true)
    by (destruct k; [now elim Hk| | | |]; reflexivity).
  assert (Hc' : exists re, compile (Presets.regexPattern p)
                             (previewFlags (Presets.regexFlags p)) = POk re
                           /\ noLook (re_ast re) = true)
    by (destruct k; [now elim Hk| | | |]; vm_compute; eexists;
        split; reflexivity).
  split; [exact Hc|]. split; [exact Hg|]. split; [|split].
  - intros onLine He.
    apply FlowFacts.prepare_invalidRegex in He as (_ & [Hn|Hn]).
    + cbn [App.regexPattern App.regexFlags regexState] in Hn.
      destruct Hc as (re & Hre). cbn [RegExp_new engine] in Hn.
      rewrite Hre in Hn. discriminate.
    + cbn [App.regexFlags regexState] in Hn. congruence.
  - unfold InputPanel.preview.
    destruct (isEmpty text || isBlank (Presets.regexPattern p));
      [discriminate|].
    destruct Hc' as (re & Hre & _). fold (previewFlags (Presets.regexFlags p)).
    cbn [RegExp_new engine]. rewrite Hre.
    assert (Hg' : hasFlag 103 (previewFlags (Presets.regexFlags p)) = true)
      by (destruct k; [now elim Hk| | | |]; reflexivity).
    unfold String_matchAll. rewrite Hg'.
    cbn [RegExp_execAll engine].
    destruct (execAll re text); [discriminate|].
    now destruct (InputPanel.highlightLoop _ _ _ _).
  - apply PanelFacts.preview_reconstructs_noLook.
    intros re Hre. destruct Hc' as (re' & Hre' & Hno).
    unfold previewFlags in Hre'. rewrite Hre' in Hre.
    now injection Hre as <-.
Qed.

(** X14 for the preset of the text in bold. *)
Lemma X14_witness :
  hasFlag 103 (Presets.regexFlags
                 (Presets.handlePresetChange Presets.bold Presets.initial))
  = true.
Proof.
  refine (proj1 (proj2 (@X14_presets_are_valid Presets.bold [] _))).
  discriminate.
Defined.

(** ** The flags of the preview *)

Lemma noDup_dedupe (seen s : jsstring) :
  noDup (InputPanel.dedupe seen s) = true.
Proof.
  revert seen; induction s as [|c s IH]; intros seen; [reflexivity|].
  cbn [InputPanel.dedupe].
  destruct (existsb (N.eqb c) seen) eqn:E; [apply IH|].
  cbn [noDup]. rewrite IH, andb_true_r.
  change (existsb (N.eqb c) (InputPanel.dedupe (c :: seen) s))
    with (hasFlag c (InputPanel.dedupe (c :: seen) s)).
  rewrite PanelFacts.hasFlag_dedupe. unfold hasFlag at 2. cbn [existsb].
  rewrite N.eqb_refl. cbn. now rewrite andb_false_r.
Qed.

Lemma forallb_dedupe (P : N -> bool) (seen s : jsstring) :
  forallb P s = true -> forallb P (InputPanel.dedupe seen s) = true.
Proof.
  revert seen; induction s as [|c s IH]; intros seen; [reflexivity|].
  cbn [forallb InputPanel.dedupe]. intros H.
  apply andb_true_iff in H as [Hc Hs].
  destruct (existsb (N.eqb c) seen); [now apply IH|].
  cbn [forallb]. now rewrite Hc, IH.
Qed.

Lemma hasFlag_previewFlags (c : N) (flags : jsstring) :
  hasFlag c (previewFlags flags)
  = hasFlag c flags || (c =? 100)%N || (c =? 103)%N.
Proof.
  unfold previewFlags. rewrite PanelFacts.hasFlag_dedupe.
  unfold hasFlag. rewrite existsb_app. cbn.
  now rewrite andb_true_r, !orb_false_r, orb_assoc.
Qed.

(** X15. The preview compiles the pattern with the flags of the user made
    distinct and completed by [d] and [g]: flags that repeat a letter or
    lack [g], which stop the generation, do not stop the preview.  On a
    text that is not empty and a pattern that is not blank, the preview
    reports an error of the expression exactly when the host rejects the
    pattern with the completed flags; otherwise it counts the matches of
    that expression, and reports that none was found exactly when there
    is none. *)
Theorem X15_preview_completes_the_flags (host : Host)
        (text pattern flags : jsstring) :
  isEmpty text || isBlank pattern = false ->
  let p := InputPanel.preview regex text pattern flags in
  (forall c, hasFlag c (previewFlags flags)
             = hasFlag c flags || (c =? 100)%N || (c =? 103)%N)
  /\ noDup (previewFlags flags) = true
  /\ (InputPanel.error p = Some InputPanel.Thrown
      <-> RegExp_new pattern (previewFlags flags) = None)
  /\ (forall re, RegExp_new pattern (previewFlags flags) = Some re ->
      InputPanel.matchCount p = length (RegExp_execAll re text)
      /\ (InputPanel.error p = Some InputPanel.NoMatchesFound
          <-> RegExp_execAll re text = [])).
Proof.
  intros Hne p. subst p.
  split; [intros c; apply hasFlag_previewFlags|].
  split; [apply noDup_dedupe|].
  unfold InputPanel.preview. rewrite Hne.
  fold (previewFlags flags). unfold String_matchAll.
  rewrite hasFlag_previewFlags. cbn [N.eqb Pos.eqb orb].
  rewrite orb_true_r.
  destruct (RegExp_new pattern (previewFlags flags)) as [re|].
  - split.
    + split; [|discriminate].
      destruct (RegExp_execAll re text); [discriminate|].
      now destruct (InputPanel.highlightLoop _ _ _ _).
    + intros re' [= <-].
      destruct (RegExp_execAll re text) as [|m ms]; [now split|].
      destruct (InputPanel.highlightLoop _ _ _ _). cbn. split; [reflexivity|].
      split; discriminate.
  - split; [now split|]. discriminate.
Qed.

(** X15 on flags that repeat a letter and lack [g]. *)
Lemma X15_witness :
  InputPanel.matchCount
    (InputPanel.preview (host := engine) regex (js "a b a") (js "a") (js "mm"))
  = 2%nat.
Proof.
  destruct (@X15_preview_completes_the_flags engine (js "a b a") (js "a")
              (js "mm") eq_refl) as (_ & _ & _ & H).
  destruct (H (match compile (js "a") (js "mdg") with
               | POk re => re
               | _ => App.autoRegExp
               end)) as (Hc & _); [vm_compute; reflexivity|].
  rewrite Hc. vm_compute. reflexivity.
Defined.

(** ** The keys of the highlighted spans *)

Lemma keys_app (a b : list InputPanel.Part) : keys (a ++ b) = keys a ++ keys b.
Proof. apply flat_map_app. Qed.

Lemma highlightStep_keys (text : jsstring) (i : nat) (m : Match)
      (acc : nat * list InputPanel.Part) :
  keys (snd (InputPanel.highlightStep text i m acc)) = keys (snd acc)
  \/ keys (snd (InputPanel.highlightStep text i m acc)) = keys (snd acc) ++ [i].
Proof.
  destruct acc as [lastIndex parts]. unfold InputPanel.highlightStep.
  destruct (InputPanel.selectIndices m) as [[a b]|].
  - right. cbn [snd].
    destruct (lastIndex <? a)%nat; rewrite !keys_app; cbn;
      now rewrite ?app_nil_r.
  - destruct (indexOf (App.snippet m) (m_index m) text) as [start|];
      [|now left].
    right. cbn [snd].
    destruct (lastIndex <? start)%nat; rewrite !keys_app; cbn;
      now rewrite ?app_nil_r.
Qed.

Lemma increasing_weaken (from from' : nat) (ks : list nat) :
  (from <= from')%nat -> increasing from' ks = true -> increasing from ks = true.
Proof.
  destruct ks as [|k ks]; [reflexivity|]. cbn. intros Hle H.
  apply andb_true_iff in H as [Hk Hr]. apply Nat.leb_le in Hk.
  rewrite Hr, andb_true_r. apply Nat.leb_le. lia.
Qed.

Lemma increasing_from (from : nat) (ks : list nat) :
  increasing from ks = true -> Forall (fun k => from <= k)%nat ks.
Proof.
  revert from; induction ks as [|k ks IH]; intros from H; [constructor|].
  cbn in H. apply andb_true_iff in H as [Hk Hr]. apply Nat.leb_le in Hk.
  constructor; [exact Hk|].
  eapply Forall_impl; [|exact (IH _ Hr)]. cbn. intros j Hj. lia.
Qed.

Lemma increasing_NoDup (from : nat) (ks : list nat) :
  increasing from ks = true -> NoDup ks.
Proof.
  revert from; induction ks as [|k ks IH]; intros from H; [constructor|].
  cbn in H. apply andb_true_iff in H as [_ Hr].
  constructor; [|exact (IH _ Hr)].
  intros Hin. pose proof (increasing_from _ _ Hr) as Hge.
  rewrite Forall_forall in Hge. specialize (Hge _ Hin). lia.
Qed.

Lemma increasing_length (from hi : nat) (ks : list nat) :
  increasing from ks = true -> Forall (fun k => k < hi)%nat ks ->
  (length ks <= hi - from)%nat.
Proof.
  revert from; induction ks as [|k ks IH]; intros from H Hb; [cbn; lia|].
  cbn in H. apply andb_true_iff in H as [Hk Hr]. apply Nat.leb_le in Hk.
  inversion Hb as [|? ? Hkh Hb']; subst.
  specialize (IH _ Hr Hb'). cbn [length]. lia.
Qed.

Lemma highlightLoop_keys (text : jsstring) (matches : list Match) (i : nat)
      (acc : nat * list InputPanel.Part) :
  exists added,
    keys (snd (InputPanel.highlightLoop text i matches acc))
    = keys (snd acc) ++ added
    /\ increasing i added = true
    /\ Forall (fun k => k < i + length matches)%nat added.
Proof.
  revert i acc; induction matches as [|m ms IH]; intros i acc.
  - exists []. cbn. rewrite app_nil_r. repeat split; constructor.
  - cbn [InputPanel.highlightLoop].
    destruct (IH (S i) (InputPanel.highlightStep text i m acc))
      as (added & Hk & Hs & Hb).
    assert (Hb' : Forall (fun k => k < i + length (m :: ms))%nat added).
    { eapply Forall_impl; [|exact Hb]. cbn. intros k Hk'. lia. }
    destruct (highlightStep_keys text i m acc) as [He|He]; rewrite He in Hk.
    + exists added. split; [exact Hk|]. split; [|exact Hb'].
      apply increasing_weaken with (from' := S i); [lia | exact Hs].
    + exists (i :: added). rewrite <- app_assoc in Hk.
      split; [exact Hk|]. split.
      * cbn. now rewrite Nat.leb_refl, Hs.
      * constructor; [cbn; lia | exact Hb'].
Qed.

(** X21. Whatever the host answers, the keys given to the highlighted
    spans of the preview go up strictly, so no two spans of one preview
    share a key; each key is the number of a match, below the count of
    matches reported, and a match gives at most one span. *)
Theorem X21_keys_are_distinct (host : Host) (method : ExtractionMethod)
        (text pattern flags : jsstring) :
  let p := InputPanel.preview method text pattern flags in
  increasing 0 (keys (InputPanel.highlightedContent p)) = true
  /\ NoDup (keys (InputPanel.highlightedContent p))
  /\ Forall (fun k => k < InputPanel.matchCount p)%nat
            (keys (InputPanel.highlightedContent p))
  /\ (length (keys (InputPanel.highlightedContent p))
      <= InputPanel.matchCount p)%nat.
Proof.
  cbn zeta.
  assert (Hgen : forall ks count,
             increasing 0 ks = true ->
             Forall (fun k => k < count)%nat ks ->
             increasing 0 ks = true /\ NoDup ks
             /\ Forall (fun k => k < count)%nat ks
             /\ (length ks <= count)%nat).
  { intros ks count Hs Hb. split; [exact Hs|].
    split; [exact (increasing_NoDup _ _ Hs)|]. split; [exact Hb|].
    pose proof (increasing_length _ Hs Hb). lia. }
  unfold InputPanel.preview.
  destruct method; try (apply Hgen; [reflexivity | constructor]).
  destruct (isEmpty text || isBlank pattern);
    [apply Hgen; [reflexivity | constructor]|].
  destruct (RegExp_new pattern (InputPanel.dedupe [] (flags ++ js "dg")))
    as [re|]; [|apply Hgen; [reflexivity | constructor]].
  destruct (String_matchAll re (InputPanel.dedupe [] (flags ++ js "dg")) text)
    as [[|m ms]|]; try (apply Hgen; [reflexivity | constructor]).
  destruct (highlightLoop_keys text (m :: ms) 0 (0%nat, []))
    as (added & Hk & Hs & Hb).
  destruct (InputPanel.highlightLoop text 0 (m :: ms) (0%nat, []))
    as [lastIndex parts].
  cbn [snd] in Hk. change (keys []) with (@nil nat) in Hk. cbn [app] in Hk.
  cbn [InputPanel.highlightedContent InputPanel.matchCount].
  assert (Hkeys : keys (if (lastIndex <? length text)%nat
                        then parts ++ [InputPanel.Plain
                                         (substringFrom lastIndex text)]
                        else parts) = added).
  { destruct (lastIndex <? length text)%nat; [|exact Hk].
    rewrite keys_app, Hk. cbn. now rewrite app_nil_r. }
  rewrite Hkeys. apply Hgen; [exact Hs | exact Hb].
Qed.

(** ** The preview and the generation on the engine *)

Lemma parseFlags_previewFlags (flags : jsstring) :
  parseFlags flags = POk tt -> parseFlags (previewFlags flags) = POk tt.
Proof.
  unfold parseFlags.
  set (in8 := fun c => existsb (N.eqb c) [100; 103; 105; 109; 115; 117; 118; 121]%N).
  set (in4 := fun c => existsb (N.eqb c) [100; 103; 109; 115]%N).
  destruct (forallb in8 flags && noDup flags
            && negb (hasFlag 117 flags && hasFlag 118 flags));
    [|discriminate].
  destruct (forallb in4 flags) eqn:H4; [|discriminate]. intros _.
  assert (H4' : forallb in4 (previewFlags flags) = true).
  { apply forallb_dedupe. rewrite forallb_app, H4. reflexivity. }
  assert (H8' : forallb in8 (previewFlags flags) = true).
  { rewrite forallb_forall in H4' |- *. intros c Hc.
    specialize (H4' c Hc). unfold in4, in8 in *. cbn in H4' |- *.
    repeat match goal with
           | |- context [N.eqb c ?k] => destruct (N.eqb c k)
           end; try reflexivity; discriminate. }
  assert (Hu : hasFlag 117 (previewFlags flags) = false).
  { destruct (hasFlag 117 (previewFlags flags)) eqn:E; [|reflexivity].
    unfold hasFlag in E. apply existsb_exists in E as (c & Hc & Hcu).
    apply N.eqb_eq in Hcu. subst c.
    rewrite forallb_forall in H4'. now specialize (H4' _ Hc). }
  assert (Hn : noDup (previewFlags flags) = true) by apply noDup_dedupe.
  now rewrite H8', H4', Hn, Hu.
Qed.

Lemma compile_previewFlags (pattern flags : jsstring) (re : Compiled) :
  compile pattern flags = POk re ->
  compile pattern (previewFlags flags) = POk (withIndices re).
Proof.
  unfold compile. destruct (parseFlags flags) as [[]| |] eqn:Hf;
    try discriminate.
  rewrite (parseFlags_previewFlags _ Hf). cbn [pbind].
  destruct (parseDisjunction (4 * length pattern + 8) pattern 0)
    as [[[r rest] n]| |]; try discriminate.
  cbn [pbind]. destruct rest; [|discriminate]. intros [= <-].
  unfold withIndices. cbn [re_ast re_ngroups re_multiline re_dotAll].
  rewrite !hasFlag_previewFlags. cbn [N.eqb Pos.eqb orb].
  now rewrite !orb_false_r, orb_true_r.
Qed.

(** The span chosen for a match of an expression compiled with [d] is
    the span of its snippet. *)
Lemma selectIndices_snippet (re : Compiled) (text : jsstring) (i : nat)
      (y : MatchState) :
  exists sp,
    InputPanel.selectIndices (toMatch (withIndices re) text i y) = Some sp
    /\ substring (fst sp) (snd sp) text = App.snippet (toMatch re text i y).
Proof.
  unfold InputPanel.selectIndices, App.snippet, toMatch, withIndices.
  cbn [m_indices m_groups m_whole re_hasIndices length nth].
  destruct (captures y) as [|[sp|] caps]; cbn.
  - now eexists.
  - now exists sp.
  - now eexists.
Qed.

Lemma highlightStep_highlights (re : Compiled) (text : jsstring)
      (k i : nat) (y : MatchState) (acc : nat * list InputPanel.Part) :
  highlights (snd (InputPanel.highlightStep text k
                     (toMatch (withIndices re) text i y) acc))
  = highlights (snd acc) ++ [App.snippet (toMatch re text i y)].
Proof.
  destruct acc as [lastIndex parts]. unfold InputPanel.highlightStep.
  destruct (selectIndices_snippet re text i y) as ([a b] & -> & Hs).
  cbn [fst snd] in Hs |- *. unfold highlights.
  destruct (lastIndex <? a)%nat; rewrite !flat_map_app; cbn;
    rewrite ?app_nil_r, Hs; reflexivity.
Qed.

Lemma execAllFrom_highlights (re : Compiled) (text : jsstring)
      (fuel lastIndex k : nat) (acc : nat * list InputPanel.Part) :
  highlights (snd (InputPanel.highlightLoop text k
                     (execAllFrom (withIndices re) text fuel lastIndex) acc))
  = highlights (snd acc)
    ++ map App.snippet (execAllFrom re text fuel lastIndex)
  /\ length (execAllFrom (withIndices re) text fuel lastIndex)
     = length (execAllFrom re text fuel lastIndex).
Proof.
  assert (Hex : forall f li, execFrom (withIndices re) text f li
                             = execFrom re text f li).
  { induction f as [|f IH]; intros li; [reflexivity|]. cbn [execFrom].
    change (matchAt (withIndices re) text li) with (matchAt re text li).
    now rewrite IH. }
  revert lastIndex k acc; induction fuel as [|fuel IH]; intros li k acc.
  - cbn. now rewrite app_nil_r.
  - cbn [execAllFrom]. rewrite Hex.
    destruct (execFrom re text (length text + 2 - li) li) as [[i y]|].
    + cbn [InputPanel.highlightLoop map length].
      destruct (IH (if (endIndex y =? i)%nat then S (endIndex y)
                    else endIndex y) (S k)
                   (InputPanel.highlightStep text k
                      (toMatch (withIndices re) text i y) acc)) as (H1 & H2).
      rewrite H1, H2, highlightStep_highlights, <- app_assoc.
      split; reflexivity.
    + cbn. now rewrite app_nil_r.
Qed.

(** X16. On the engine, for a pattern that is not blank and compiles with
    the flags given, these containing [g], the preview and the generation
    agree on every text that is not empty: the number of matches the
    preview reports is the number of snippets the generation extracts,
    and the highlighted texts of the preview, in order, are these
    snippets; the text handed on by the extraction is the highlighted
    texts joined by blank lines. *)
Theorem X16_preview_shows_the_snippets (st : App.State) (re : Compiled) :
  App.extractionMethod st = regex ->
  isEmpty (App.inputText st) = false ->
  isBlank (App.regexPattern st) = false ->
  hasFlag 103 (App.regexFlags st) = true ->
  compile (App.regexPattern st) (App.regexFlags st) = POk re ->
  let p := InputPanel.preview (host := engine) regex (App.inputText st)
             (App.regexPattern st) (App.regexFlags st) in
  let shown := highlights (InputPanel.highlightedContent p) in
  shown = map App.snippet (execAll re (App.inputText st))
  /\ InputPanel.matchCount p = length shown
  /\ App.extract (host := engine) st
     = match shown with
       | [] => App.Abort App.msgNoMatches
       | _ :: _ => App.Proceed (join [NL; NL] shown) None
       end.
Proof.
  intros Hm Ht Hp Hg Hc p shown.
  assert (Hshown : shown = map App.snippet (execAll re (App.inputText st))
                   /\ InputPanel.matchCount p
                      = length (execAll re (App.inputText st))).
  { subst shown p. unfold InputPanel.preview. rewrite Ht, Hp. cbn [orb].
    fold (previewFlags (App.regexFlags st)).
    cbn [RegExp_new engine].
    rewrite (compile_previewFlags _ _ Hc).
    unfold String_matchAll. rewrite hasFlag_previewFlags.
    cbn [N.eqb Pos.eqb orb]. rewrite orb_true_r.
    cbn [RegExp_execAll engine]. unfold execAll.
    set (text := App.inputText st).
    destruct (execAllFrom_highlights re text (length text + 2) 0 0 (0%nat, []))
      as (H1 & H2).
    destruct (execAllFrom (withIndices re) text (length text + 2) 0)
      as [|m ms] eqn:E.
    - cbn in H1, H2 |- *. destruct (execAllFrom re text (length text + 2) 0);
        [now split | discriminate].
    - rewrite <- H2.
      destruct (InputPanel.highlightLoop text 0 (m :: ms) (0%nat, []))
        as [lastIndex parts].
      cbn [snd highlights flat_map app] in H1.
      cbn [InputPanel.highlightedContent InputPanel.matchCount].
      split; [|reflexivity].
      destruct (lastIndex <? length text)%nat; [|exact H1].
      unfold highlights in *. rewrite flat_map_app. cbn.
      now rewrite app_nil_r. }
  destruct Hshown as (Hs & Hn).
  split; [exact Hs|]. split; [now rewrite Hs, length_map|].
  rewrite Hs. unfold App.extract, String_matchAll.
  rewrite Hm, Hp, Hg. cbn [negb RegExp_new RegExp_execAll engine].
  rewrite Hc. now destruct (execAll re (App.inputText st)).
Qed.

(** X16 on the text of scenario B with the pattern of the text in bold. *)
Lemma X16_witness :
  highlights
    (InputPanel.highlightedContent
       (InputPanel.preview (host := engine) regex scenarioB boldPattern
                           (js "g")))
  = [js "foo"; js "bar"].
Proof.
  destruct (@X16_preview_shows_the_snippets
              (stateWith regex scenarioB boldPattern (js "g"))
              (match compile boldPattern (js "g") with
               | POk re => re
               | _ => App.autoRegExp
               end)
              eq_refl eq_refl eq_refl eq_refl)
    as (H & _); [vm_compute; reflexivity|].
  cbn [App.inputText App.regexPattern App.regexFlags stateWith] in H.
  rewrite H. vm_compute. reflexivity.
Defined.

(** ** The debounced values *)

Section Debounced.
Variable delay : nat.

Lemma settled_step (now t : nat) (v : jsstring) (h : Debounce.Hook) :
  settled delay now h -> (now <= t)%nat ->
  let h' := Debounce.render delay t v (Debounce.elapse t h) in
  settled delay t h'
  /\ Debounce.value h' = v
  /\ In (Debounce.debouncedValue h')
        [Debounce.debouncedValue h; Debounce.value h].
Proof.
  unfold settled, Debounce.render, Debounce.elapse, Debounce.fire.
  intros Hs Ht. cbn zeta.
  destruct (Debounce.handler h) as [[due w]|] eqn:Hh.
  - destruct Hs as [-> Hdue].
    destruct (due <=? t)%nat; cbn [Debounce.value Debounce.handler].
    + destruct (jsstring_eqb v (Debounce.value h)) eqn:E;
        cbn [Debounce.value Debounce.handler Debounce.debouncedValue].
      * apply GeminiFacts.jsstring_eqb_eq in E. cbn; auto.
      * cbn; auto.
    + destruct (jsstring_eqb v (Debounce.value h)) eqn:E;
        cbn [Debounce.value Debounce.handler Debounce.debouncedValue].
      * apply GeminiFacts.jsstring_eqb_eq in E. rewrite Hh.
        cbn. repeat split; auto. lia.
      * cbn; auto.
  - destruct (jsstring_eqb v (Debounce.value h)) eqn:E;
      cbn [Debounce.value Debounce.handler Debounce.debouncedValue].
    + apply GeminiFacts.jsstring_eqb_eq in E. rewrite Hh. cbn; auto.
    + cbn; auto.
Qed.

Lemma run_settled (renders : list (nat * jsstring)) (now : nat)
      (h : Debounce.Hook) :
  settled delay now h -> inOrder now renders = true ->
  let h' := Debounce.run delay h renders in
  settled delay (lastTime now renders) h'
  /\ Debounce.value h' = lastValue (Debounce.value h) renders
  /\ In (Debounce.debouncedValue h')
        (Debounce.debouncedValue h :: Debounce.value h :: map snd renders).
Proof.
  revert now h; induction renders as [|[t v] rest IH]; intros now h Hs Ho.
  - cbn. auto.
  - cbn [inOrder fst] in Ho. apply andb_true_iff in Ho as [Ht Ho].
    apply Nat.leb_le in Ht.
    destruct (@settled_step now t v h Hs Ht) as (Hs1 & Hv1 & Hd1).
    cbn zeta in Hs1, Hv1, Hd1.
    unfold Debounce.run. cbn [fold_left fst snd].
    fold (Debounce.run delay
            (Debounce.render delay t v (Debounce.elapse t h)) rest).
    destruct (IH t _ Hs1 Ho) as (Hs2 & Hv2 & Hd2). cbn zeta in Hs2, Hv2, Hd2.
    unfold lastTime, lastValue in *. cbn [map fst snd].
    rewrite !FlowFacts.last_cons_default.
    split; [exact Hs2|]. split; [now rewrite Hv2, Hv1|].
    rewrite Hv1 in Hd2. cbn [In] in Hd1, Hd2 |- *.
    destruct Hd2 as [H|[H|H]]; [|now auto|now auto].
    rewrite <- H. destruct Hd1 as [H1|[H1|[]]]; auto.
Qed.

Lemma run_burst (renders : list (nat * jsstring)) (now : nat)
      (h : Debounce.Hook) :
  Debounce.handler h = Some ((now + delay)%nat, Debounce.value h) ->
  burst delay now (Debounce.value h) renders = true ->
  Debounce.debouncedValue (Debounce.run delay h renders)
  = Debounce.debouncedValue h.
Proof.
  revert now h; induction renders as [|[t v] rest IH]; intros now h Hh Hb;
    [reflexivity|].
  cbn [burst fst snd] in Hb.
  apply andb_true_iff in Hb as [Hb Hrest].
  apply andb_true_iff in Hb as [Hb Hne].
  apply andb_true_iff in Hb as [_ Hlt].
  apply Nat.ltb_lt in Hlt. apply negb_true_iff in Hne.
  unfold Debounce.run. cbn [fold_left fst snd].
  set (h1 := Debounce.render delay t v (Debounce.elapse t h)).
  fold (Debounce.run delay h1 rest).
  assert (H1 : h1 = Debounce.mkHook v (Debounce.debouncedValue h)
                      (Some ((t + delay)%nat, v))).
  { unfold h1, Debounce.elapse. rewrite Hh.
    destruct (Nat.leb_spec (now + delay) t) as [H|_]; [lia|].
    unfold Debounce.render. now rewrite Hne. }
  rewrite (IH t h1); rewrite H1; cbn; auto.
Qed.

End Debounced.

(** X18. A debounced value follows its value with a delay: after any
    renders in order of time, once [delay] has passed since the last one
    the debounced value is the value of that render and no timeout is
    pending.  At any moment the debounced value is the first value or the
    value of some render.  Through renders in quick succession, each
    changing the value before the timeout of the previous one is due, the
    debounced value stays what it was: the preview is not recomputed
    while the user types. *)
Theorem X18_debounced_value_settles (delay now : nat) (v : jsstring)
        (renders : list (nat * jsstring)) :
  inOrder now renders = true ->
  let h := Debounce.run delay (Debounce.mount delay now v) renders in
  Debounce.value h = lastValue v renders
  /\ (forall later, (lastTime now renders + delay <= later)%nat ->
      Debounce.debouncedValue (Debounce.elapse later h) = lastValue v renders
      /\ Debounce.handler (Debounce.elapse later h) = None)
  /\ In (Debounce.debouncedValue h) (v :: map snd renders)
  /\ (burst delay now v renders = true -> Debounce.debouncedValue h = v).
Proof.
  intros Ho h.
  assert (Hs0 : settled delay now (Debounce.mount delay now v))
    by (cbn; auto).
  destruct (@run_settled delay renders now _ Hs0 Ho) as (Hs & Hv & Hd).
  cbn zeta in Hs, Hv, Hd. fold h in Hs, Hv, Hd.
  cbn [Debounce.mount Debounce.value Debounce.debouncedValue] in Hv, Hd.
  split; [exact Hv|]. split; [|split].
  - intros later Hl. unfold settled in Hs.
    unfold Debounce.elapse, Debounce.fire.
    destruct (Debounce.handler h) as [[due w]|] eqn:Hh.
    + destruct Hs as [-> Hdue].
      destruct (Nat.leb_spec due later) as [_|H]; [|lia].
      cbn. now rewrite Hv.
    + rewrite Hh. now rewrite Hs, Hv.
  - cbn [In] in Hd |- *. tauto.
  - intros Hb. unfold h. now rewrite (@run_burst delay renders now).
Qed.

(** X18 with the delay of the panel: three key strokes 100 ms apart leave
    the debounced text as it was, and 250 ms after the last one it is the
    text typed. *)
Lemma X18_witness :
  let renders := [(100, js "a"); (200, js "ab"); (300, js "abc")]%nat in
  let h := Debounce.run 250 (Debounce.mount 250 0 []) renders in
  Debounce.debouncedValue h = []
  /\ Debounce.debouncedValue (Debounce.elapse 550 h) = js "abc".
Proof.
  intros renders h.
  destruct (@X18_debounced_value_settles 250 0 [] renders eq_refl)
    as (_ & Hlater & _ & Hburst).
  split; [exact (Hburst eq_refl)|].
  exact (proj1 (Hlater 550%nat (Nat.le_refl _))).
Defined.

End InputFacts.
